(** * Layout-to-interval matching engine of the borehole stratigraphy extractor

    A shallow embedding of the matching code of [stratigraphy/main.py]
    (scoring, conflict removal, block/interval reconciliation, the
    description region locator), of the depth column entries of
    [stratigraphy/depthcolumn/depthcolumnentry.py] and of the macro averages
    of [stratigraphy/benchmark/metrics.py].

    Conventions of the embedding:
    - Python floats are exact rationals ([Q]); comparisons of floats are the
      boolean comparisons of [Q] ([Qeq_bool], [Qle_bool]), so [1#2] and [2#4]
      are the same coordinate, as they are the same float; the description
      region locator is modelled as a whole as well, over an arithmetic
      that is a parameter of the model, with the rationals and the binary64
      floats of IEEE 754 as its instances;
    - Python ints that index or count are [Z], with the wrap-around of
      negative indices written out;
    - a Python call that may raise returns a [result]; the exception classes
      are the constructors of [exception];
    - a Python list is a [list]; a dict that is only iterated is an
      association list in insertion order. *)

From Stdlib Require Import List Bool ZArith QArith Qabs Qminmax Qpower Lia.
From Stdlib Require Import String Permutation Sorted.
From Stdlib Require PrimFloat Uint63 FloatAxioms SpecFloat.
Import ListNotations.

(** ** The Python run time the sources rely on *)

(** Exception classes.  The first four are raised by the interpreter on the
    paths modelled below.  [ValidationError] and [PreconditionError] are the
    classes the specification names; no source file defines or raises them,
    they are here so that statements can tell them apart from the classes
    that are raised. *)
Inductive exception : Set :=
| AssertionError
| IndexError
| ValueError
| ZeroDivisionError
| ValidationError
| PreconditionError.

Inductive result (A : Type) : Type :=
| Ok (a : A)
| Raise (e : exception).

Arguments Ok {A} a.
Arguments Raise {A} e.

Definition bind {A B : Type} (m : result A) (k : A -> result B) : result B :=
  match m with
  | Ok a => k a
  | Raise e => Raise e
  end.

Definition is_ok {A : Type} (m : result A) : bool :=
  match m with Ok _ => true | Raise _ => false end.

Notation "x <- m ;; k" := (bind m (fun x => k))
  (at level 61, m at next level, right associativity).

Module Py.

(** [len(l)] *)
Definition len {A : Type} (l : list A) : Z := Z.of_nat (List.length l).

(** [l[i]]: a negative index counts from the end, an index outside
    [-len(l) .. len(l) - 1] raises [IndexError]. *)
Definition index {A : Type} (l : list A) (i : Z) : result A :=
  let j := if (i <? 0)%Z then (len l + i)%Z else i in
  if (j <? 0)%Z then Raise IndexError
  else match nth_error l (Z.to_nat j) with
       | Some a => Ok a
       | None => Raise IndexError
       end.

(** [l[:i]]: a negative bound counts from the end, bounds are clamped. *)
Definition slice_to {A : Type} (l : list A) (i : Z) : list A :=
  let j := if (i <? 0)%Z then (len l + i)%Z else i in
  firstn (Z.to_nat j) l.

(** [l[1:]] *)
Definition slice_from_1 {A : Type} (l : list A) : list A := tl l.

(** [enumerate(l)] *)
Definition enumerate {A : Type} (l : list A) : list (nat * A) :=
  combine (seq 0 (List.length l)) l.

(** [sorted(l, key=key)] and [l.sort(key=key)]: a stable sort, ascending
    in the key.  Insertion from the right keeps equal keys in their
    original order. *)
Fixpoint insert_by {A : Type} (key : A -> Q) (a : A) (l : list A) : list A :=
  match l with
  | [] => [a]
  | b :: l' =>
      if Qle_bool (key a) (key b) then a :: b :: l'
      else b :: insert_by key a l'
  end.

Definition sort_by {A : Type} (key : A -> Q) (l : list A) : list A :=
  fold_right (insert_by key) [] l.

Definition sorted (l : list Q) : list Q := sort_by (fun q => q) l.

(** [min(l)] and [max(l)] over a list of floats: [ValueError] on the empty
    list, else the first least (greatest) element. *)
Definition min (l : list Q) : result Q :=
  match l with
  | [] => Raise ValueError
  | q :: l' => Ok (fold_left (fun m x => if Qlt_le_dec x m then x else m) l' q)
  end.

Definition max (l : list Q) : result Q :=
  match l with
  | [] => Raise ValueError
  | q :: l' => Ok (fold_left (fun m x => if Qlt_le_dec m x then x else m) l' q)
  end.

(** [max(l, key=key)]: [ValueError] on the empty list, else the first
    element whose key is greatest. *)
Definition max_by {A : Type} (key : A -> Q) (l : list A) : result A :=
  match l with
  | [] => Raise ValueError
  | a :: l' => Ok (fold_left (fun m x => if Qlt_le_dec (key m) (key x) then x else m) l' a)
  end.

(** [a < b] on floats. *)
Definition lt (a b : Q) : bool := negb (Qle_bool b a).

(** [sum(l)]: starts from 0 and adds from the left. *)
Definition sum (l : list Q) : Q := fold_left Qplus l 0.

(** [x in l] and [l.remove(x)] on a list of floats. *)
Definition contains (x : Q) (l : list Q) : bool := existsb (Qeq_bool x) l.

Fixpoint remove (x : Q) (l : list Q) : list Q :=
  match l with
  | [] => []
  | y :: l' => if Qeq_bool y x then l' else y :: remove x l'
  end.

(** [x / n] for a float [x] and an int [n]. *)
Definition truediv (x : Q) (n : Z) : result Q :=
  if (n =? 0)%Z then Raise ZeroDivisionError else Ok (x / inject_Z n).

End Py.

(** ** Geometry *)

(** [fitz.Rect]: an axis-aligned box in page coordinates. *)
Record Rect : Set := mkRect { x0 : Q; y0 : Q; x1 : Q; y1 : Q }.

(** [Rect.width] of PyMuPDF: [max(0, x1 - x0)]. *)
Definition width (r : Rect) : Q := Qmax 0 (x1 r - x0 r).

(** [Rect.is_empty] of PyMuPDF. *)
Definition is_empty (r : Rect) : bool :=
  Qle_bool (x1 r) (x0 r) || Qle_bool (y1 r) (y0 r).

(** [Rect.intersects] of PyMuPDF: both rectangles are non-empty and their
    common rectangle is non-empty. *)
Definition intersects (r s : Rect) : bool :=
  negb (is_empty r) && negb (is_empty s)
  && negb (is_empty (mkRect (Qmax (x0 r) (x0 s)) (Qmax (y0 r) (y0 s))
                            (Qmin (x1 r) (x1 s)) (Qmin (y1 r) (y1 s)))).

(** [util.x_overlap] *)
Definition x_overlap (rect1 rect2 : Rect) : Q :=
  if Qlt_le_dec (x0 rect1) (x1 rect2) then
    if Qlt_le_dec (x0 rect2) (x1 rect1) then
      Qmin (x1 rect1) (x1 rect2) - Qmax (x0 rect1) (x0 rect2)
    else 0
  else 0.

(** [util.x_overlap_significant_smallest] *)
Definition x_overlap_significant_smallest (rect1 rect2 : Rect) (level : Q) : bool :=
  negb (Qle_bool (x_overlap rect1 rect2) (level * Qmin (width rect1) (width rect2))).

(** ** Text lines and text blocks *)

(** Modelled from the spec: the class [TextLine] of [stratigraphy.util.line]
    is not among the sources.  The matching code reads its bounding
    rectangle and its description flag only. *)
Record TextLine : Set := mkTextLine { rect : Rect; is_description : bool }.

(** Modelled from the spec: the class [TextBlock] of
    [stratigraphy.util.textblock] is not among the sources.  A block is the
    ordered sequence of its lines and the flag [is_terminated_by_line],
    which the constructor leaves false. *)
Record TextBlock : Set :=
  mkTextBlock { lines : list TextLine; is_terminated_by_line : bool }.

Definition TextBlock_init (ls : list TextLine) : TextBlock := mkTextBlock ls false.

Definition line_count (b : TextBlock) : nat := List.length (lines b).

(** Modelled from the spec: [TextBlock.concatenate] builds a new block from
    the lines of both blocks, in order. *)
Definition concatenate (b other : TextBlock) : TextBlock :=
  TextBlock_init (lines b ++ lines other).

Definition total_line_count (bs : list TextBlock) : nat :=
  list_sum (map line_count bs).

(** ** Scoring of a depth column against a description region *)

Section Scoring.

(** [DepthColumn] of [stratigraphy.util.depthcolumn] is not among the
    sources: its bounding rectangle and its noise count are parameters. *)
Variable DepthColumn : Type.
Variable column_rect : DepthColumn -> Rect.
Variable noise_count : DepthColumn -> list TextLine -> Z.

(** [score_column_match]; [all_words] defaults to [None], and
    [if all_words] is false for [None] and for the empty list. *)
Definition score_column_match (depth_column : DepthColumn)
    (material_description_rect : Rect) (all_words : option (list TextLine)) : Q :=
  let rect := column_rect depth_column in
  let top := y0 rect in
  let bottom := y1 rect in
  let right := x1 rect in
  let distance :=
    Qabs (top - y0 material_description_rect)
    + Qabs (bottom - y1 material_description_rect)
    + Qabs (right - x0 material_description_rect) in
  let height := bottom - top in
  let noise :=
    match all_words with
    | Some (w :: ws) => noise_count depth_column (w :: ws)
    | _ => 0%Z
    end in
  (height - distance) * (8 # 10) ^ noise.

(** ** Conflict removal among the (depth column, region) pairs of a page

    The part of [process_page] between the pairing loop and the line
    detection: the pairs are sorted by score, lowest first, and a pair whose
    region intersects the region of a later pair is dropped. *)

(** The inner loop for the pair at index [i]: one entry of [to_delete] for
    each later pair whose region intersects [material_description_rect]. *)
Definition to_delete_for (i : nat) (material_description_rect : Rect)
    (later : list (DepthColumn * Rect)) : list nat :=
  map (fun _ => i)
      (filter (fun pair_2 => intersects material_description_rect (snd pair_2)) later).

(** The outer loop, over [enumerate(pairs)]; [later] is [pairs[i + 1:]]. *)
Fixpoint to_delete_from (i : nat) (pairs : list (DepthColumn * Rect)) : list nat :=
  match pairs with
  | [] => []
  | (_, material_description_rect) :: later =>
      to_delete_for i material_description_rect later ++ to_delete_from (S i) later
  end.

Definition filtered_pairs (words : list TextLine) (pairs : list (DepthColumn * Rect))
    : list (DepthColumn * Rect) :=
  let pairs :=
    Py.sort_by (fun pair => score_column_match (fst pair) (snd pair) (Some words)) pairs in
  let to_delete := to_delete_from 0 pairs in
  map snd (filter (fun item => negb (existsb (Nat.eqb (fst item)) to_delete))
                  (Py.enumerate pairs)).

End Scoring.

Arguments score_column_match {DepthColumn}.
Arguments to_delete_for {DepthColumn}.
Arguments to_delete_from {DepthColumn}.
Arguments filtered_pairs {DepthColumn}.

(** ** Reconciling text blocks with depth intervals *)

Section Reconciler.

(** [Interval] of [stratigraphy.util.interval] and [block_distance] of
    [stratigraphy.util.textblock] are not among the sources. *)
Variable Interval : Type.
Variable block_distance : TextBlock -> TextBlock -> Q.

(** An element of the result of [transform_groups]: the dict with the keys
    [depth_interval] and [block]. *)
Record Group : Type := mkGroup { depth_interval : Interval; block : TextBlock }.

(** *** Merging *)

(** [distances]: one entry per pair of consecutive blocks. *)
Fixpoint distances_from (previous : TextBlock) (rest : list TextBlock) : list Q :=
  match rest with
  | [] => []
  | next :: rest' => block_distance previous next :: distances_from next rest'
  end.

Definition distances (blocks : list TextBlock) : list Q :=
  match blocks with
  | [] => []
  | first :: rest => distances_from first rest
  end.

(** The variables of the merge loop. *)
Record merge_state : Set := mkMerge {
  merged_count : Z;
  merged_blocks : list TextBlock;
  current_merged_block : TextBlock
}.

(** The merge loop from [block_index] on: [previous] is [blocks[block_index]]
    and [rest] is [blocks[block_index + 1:]]. *)
Fixpoint merge_loop (target_merge_count : Z) (cutoff : Q)
    (previous : TextBlock) (rest : list TextBlock) (st : merge_state) : merge_state :=
  match rest with
  | [] => st
  | new_block :: rest' =>
      merge_loop target_merge_count cutoff new_block rest'
        (if (merged_count st <? target_merge_count)%Z
            && Qle_bool (block_distance previous new_block) cutoff
         then mkMerge (merged_count st + 1) (merged_blocks st)
                      (concatenate (current_merged_block st) new_block)
         else mkMerge (merged_count st) (merged_blocks st ++ [current_merged_block st])
                      new_block)
  end.

(** The state of [merge_blocks_by_vertical_spacing] when its loop ends. *)
Definition merge_blocks_final_state (blocks : list TextBlock) (target_merge_count : Z)
    : result merge_state :=
  cutoff <- Py.index (Py.sorted (distances blocks)) (target_merge_count - 1) ;;
  first <- Py.index blocks 0 ;;
  Ok (merge_loop target_merge_count cutoff first (Py.slice_from_1 blocks)
                 (mkMerge 0 [] first)).

Definition merge_blocks_by_vertical_spacing (blocks : list TextBlock)
    (target_merge_count : Z) : result (list TextBlock) :=
  st <- merge_blocks_final_state blocks target_merge_count ;;
  Ok (if (Py.len (lines (current_merged_block st)) =? 0)%Z
      then merged_blocks st
      else merged_blocks st ++ [current_merged_block st]).

(** *** Splitting *)

(** The variables of the split loop. *)
Record split_state : Set := mkSplit {
  cutoff_values : list Q;
  split_blocks : list TextBlock;
  current_block_lines : list TextLine
}.

(** The inner loop over the lines of one block, from [line_index] on; [ls]
    is [block.lines[line_index:]] and [count] is [block.line_count]. *)
Fixpoint split_lines (count : nat) (line_index : nat) (ls : list TextLine)
    (st : split_state) : split_state :=
  match ls with
  | [] => st
  | line :: ls' =>
      let current := current_block_lines st ++ [line] in
      split_lines count (S line_index) ls'
        (if (Z.of_nat line_index <? Z.of_nat count - 1)%Z
            && Py.contains (x1 (rect line)) (cutoff_values st)
         then mkSplit (Py.remove (x1 (rect line)) (cutoff_values st))
                      (split_blocks st ++ [TextBlock_init current]) []
         else mkSplit (cutoff_values st) (split_blocks st) current)
  end.

(** [split_blocks[-1].is_terminated_by_line = True] *)
Fixpoint set_last_terminated (bs : list TextBlock) : result (list TextBlock) :=
  match bs with
  | [] => Raise IndexError
  | [b] => Ok [mkTextBlock (lines b) true]
  | b :: bs' => bs'' <- set_last_terminated bs' ;; Ok (b :: bs'')
  end.

(** The outer loop over the blocks. *)
Fixpoint split_loop (blocks : list TextBlock) (st : split_state) : result split_state :=
  match blocks with
  | [] => Ok st
  | block :: blocks' =>
      let st1 := split_lines (line_count block) 0 (lines block) st in
      let st2 :=
        if (Py.len (current_block_lines st1) =? 0)%Z then st1
        else mkSplit (cutoff_values st1)
                     (split_blocks st1 ++ [TextBlock_init (current_block_lines st1)]) [] in
      st3 <- (if is_terminated_by_line block
              then bs <- set_last_terminated (split_blocks st2) ;;
                   Ok (mkSplit (cutoff_values st2) bs (current_block_lines st2))
              else Ok st2) ;;
      split_loop blocks' st3
  end.

(** [line.rect.x1] of every line but the last of each block. *)
Definition eligible_lengths (blocks : list TextBlock) : list Q :=
  flat_map (fun block => map (fun line => x1 (rect line)) (Py.slice_to (lines block) (-1)))
           blocks.

Definition split_blocks_by_textline_length (blocks : list TextBlock)
    (target_split_count : Z) : result (list TextBlock) :=
  let line_lengths := Py.sorted (eligible_lengths blocks) in
  if (Py.len line_lengths <=? target_split_count)%Z then
    Ok (flat_map (fun block => map (fun line => TextBlock_init [line]) (lines block)) blocks)
  else
    st <- split_loop blocks (mkSplit (Py.slice_to line_lengths target_split_count) [] []) ;;
    Ok (split_blocks st).

(** *** [transform_groups] *)

Definition zip_groups (depth_intervals : list Interval) (blocks : list TextBlock)
    : list Group :=
  map (fun p => mkGroup (fst p) (snd p)) (combine depth_intervals blocks).

Definition transform_groups (depth_intervals : list Interval) (blocks : list TextBlock)
    : result (list Group) :=
  if (Py.len depth_intervals =? 0)%Z then Ok []
  else if (Py.len depth_intervals =? 1)%Z then
    let concatenated_block := TextBlock_init (flat_map lines blocks) in
    first <- Py.index depth_intervals 0 ;;
    Ok [mkGroup first concatenated_block]
  else
    blocks <- (if (Py.len blocks <? Py.len depth_intervals)%Z
               then split_blocks_by_textline_length blocks
                      (Py.len depth_intervals - Py.len blocks)
               else Ok blocks) ;;
    blocks <- (if (Py.len blocks >? Py.len depth_intervals)%Z
               then merge_blocks_by_vertical_spacing blocks
                      (Py.len blocks - Py.len depth_intervals)
               else Ok blocks) ;;
    Ok (zip_groups depth_intervals blocks).

End Reconciler.

Arguments mkGroup {Interval}.
Arguments depth_interval {Interval}.
Arguments block {Interval}.
Arguments zip_groups {Interval}.
Arguments transform_groups {Interval}.

(** ** The description region locator

    The steps of [find_material_description_column] over the rationals:
    the vertical gating, [filter_coverage], the downward expansion and the
    final choice.  The function as a whole, with its clustering loop and
    with the arithmetic of Python's floats, is
    [locator.find_material_description_column] below. *)

Section Locator.

Variable DepthColumn : Type.
Variable column_rect : DepthColumn -> Rect.
Variable noise_count : DepthColumn -> list TextLine -> Z.

(** [candidate_description]: the lines below the nearest line above the
    depth column and above the bottom of the column; every line when there
    is no depth column. *)
Definition candidate_description (all_lines : list TextLine)
    (depth_column : option DepthColumn) : result (list TextLine) :=
  match depth_column with
  | Some column =>
      let above_depth_column :=
        filter (fun line =>
                  negb (Qeq_bool (x_overlap (rect line) (column_rect column)) 0)
                  && Py.lt (y0 (rect line)) (y0 (column_rect column)))
               all_lines in
      min_y0 <- (if (Py.len above_depth_column =? 0)%Z then Ok (-1)
                 else Py.max (map (fun line => y0 (rect line)) above_depth_column)) ;;
      Ok (filter (fun line =>
                    Py.lt min_y0 (y0 (rect line))
                    && Py.lt (y0 (rect line)) (y1 (column_rect column)))
                 all_lines)
  | None => Ok all_lines
  end.

(** [filter_coverage], the local function of the clustering loop. *)
Definition filter_coverage (coverage : list TextLine) : result (list TextLine) :=
  if (Py.len coverage =? 0)%Z then Ok []
  else
    min_x0 <- Py.min (map (fun line => x0 (rect line)) coverage) ;;
    max_x1 <- Py.max (map (fun line => x1 (rect line)) coverage) ;;
    let x0_threshold := max_x1 - (4 # 10) * (max_x1 - min_x0) in
    Ok (filter (fun line => Py.lt (x0 (rect line)) x0_threshold) coverage).

(** [is_below]; [best_x1] is read from the enclosing scope. *)
Definition is_below (best_x0 best_x1 best_y1 : Q) (line : TextLine) : bool :=
  Py.lt (best_x0 - 5) (x0 (rect line))
  && Py.lt (x0 (rect line)) ((best_x0 + best_x1) / 2)
  && Py.lt (y0 (rect line)) (best_y1 + 10)
  && Py.lt best_y1 (y1 (rect line)).

(** The downward expansion [while continue_search].  Each round raises
    [best_y1] to the bottom of the absorbed line, so a line is absorbed at
    most once: the loop is given one round per line and one more. *)
Fixpoint expand_below (rounds : nat) (all_lines : list TextLine)
    (best : Q * Q * Q) : Q * Q * Q :=
  let '(best_x0, best_x1, best_y1) := best in
  match rounds with
  | O => best
  | S rounds' =>
      match find (is_below best_x0 best_x1 best_y1) all_lines with
      | Some line =>
          expand_below rounds' all_lines
            (Qmin best_x0 (x0 (rect line)), Qmax best_x1 (x1 (rect line)), y1 (rect line))
      | None => best
      end
  end.

(** The end of [find_material_description_column]: nothing when there is no
    candidate, the best scoring candidate for a depth column, else the
    first candidate. *)
Definition choose_candidate (depth_column : option DepthColumn)
    (candidate_rects : list Rect) : result (option Rect) :=
  if (Py.len candidate_rects =? 0)%Z then Ok None
  else
    match depth_column with
    | Some column =>
        best <- Py.max_by (fun r => score_column_match column_rect noise_count column r None)
                          candidate_rects ;;
        Ok (Some best)
    | None => first <- Py.index candidate_rects 0 ;; Ok (Some first)
    end.

End Locator.

Arguments candidate_description {DepthColumn}.
Arguments choose_candidate {DepthColumn}.

(** ** Depth column entries *)

Module depthcolumnentry.

(** [DepthColumnEntry]; entries read from annotations have neither a
    rectangle nor a page number. *)
Record DepthColumnEntry : Set := mkDepthColumnEntry {
  rect : option Rect;
  value : Q;
  page_number : option Z
}.

(** [AnnotatedDepthColumnEntry(value)] *)
Definition AnnotatedDepthColumnEntry (value : Q) : DepthColumnEntry :=
  mkDepthColumnEntry None value None.

Record LayerDepthColumnEntry : Set := mkLayerDepthColumnEntry {
  start : DepthColumnEntry;
  end_ : DepthColumnEntry
}.

(** [==] on page numbers. *)
Definition page_number_eq (p q : option Z) : bool :=
  match p, q with
  | Some a, Some b => (a =? b)%Z
  | None, None => true
  | _, _ => false
  end.

(** [LayerDepthColumnEntry.__init__]: the [assert] raises [AssertionError]
    when the page numbers differ. *)
Definition LayerDepthColumnEntry_init (start end_ : DepthColumnEntry)
    : result LayerDepthColumnEntry :=
  if page_number_eq (page_number start) (page_number end_)
  then Ok (mkLayerDepthColumnEntry start end_)
  else Raise AssertionError.

End depthcolumnentry.

(** ** Macro averages over a dataset *)

Section DatasetMetrics.

(** [Metrics] of [stratigraphy.evaluation.evaluation_dataclasses] is not
    among the sources: its three scores are parameters. *)
Variable Metrics : Type.
Variable f1 precision recall : Metrics -> Q.

(** [DatasetMetrics]: the dict [metrics], by file name, in insertion order. *)
Record DatasetMetrics : Type := mkDatasetMetrics { metrics : list (string * Metrics) }.

(** [DatasetMetrics()] *)
Definition DatasetMetrics_init : DatasetMetrics := mkDatasetMetrics [].

(** [if self.metrics] is false for the empty dict. *)
Definition macro_f1 (self : DatasetMetrics) : result Q :=
  if (Py.len (metrics self) =? 0)%Z then Ok 0
  else Py.truediv (Py.sum (map (fun item => f1 (snd item)) (metrics self)))
                  (Py.len (metrics self)).

Definition macro_precision (self : DatasetMetrics) : result Q :=
  if (Py.len (metrics self) =? 0)%Z then Ok 0
  else Py.truediv (Py.sum (map (fun item => precision (snd item)) (metrics self)))
                  (Py.len (metrics self)).

Definition macro_recall (self : DatasetMetrics) : result Q :=
  if (Py.len (metrics self) =? 0)%Z then Ok 0
  else Py.truediv (Py.sum (map (fun item => recall (snd item)) (metrics self)))
                  (Py.len (metrics self)).

End DatasetMetrics.

Arguments mkDatasetMetrics {Metrics}.
Arguments metrics {Metrics}.
Arguments DatasetMetrics_init {Metrics}.
Arguments macro_f1 {Metrics}.
Arguments macro_precision {Metrics}.
Arguments macro_recall {Metrics}.

(** ** Sample inputs

    Concrete instances of the parameters and small inputs, used by the
    closed lemmas below. *)

(** A depth column given by its bounding rectangle alone. *)
Definition column_of_rect (r : Rect) : Rect := r.

(** A noise count that takes every word for noise. *)
Definition every_word_is_noise (column : Rect) (words : list TextLine) : Z :=
  Py.len words.

(** A line of height 1 from [x0 = 0] to [x1 = a], at vertical position [y]. *)
Definition line_at (y a : Z) : TextLine :=
  mkTextLine (mkRect 0 (inject_Z y) (inject_Z a) (inject_Z y + 1)) true.

(** A block of lines given by their right ends, one below the other. *)
Definition block_at (y : Z) (ends : list Z) : TextBlock :=
  TextBlock_init (map (fun p => line_at (y + Z.of_nat (fst p)) (snd p)) (Py.enumerate ends)).

(** The gap between the top of the first line of the second block and the
    bottom of the last line of the first block; 0 when a block is empty. *)
Definition vertical_gap (a b : TextBlock) : Q :=
  match rev (lines a), lines b with
  | la :: _, lb :: _ => y0 (rect lb) - y1 (rect la)
  | _, _ => 0
  end.

(** A block without lines. *)
Definition empty_block : TextBlock := TextBlock_init [].

(** A line of zero width. *)
Definition thin_line : TextLine := mkTextLine (mkRect 3 0 3 1) true.

(** ** Counting, for the proofs *)

(** The number of entries of [l] that are at most [c]. *)
Definition count_le (c : Q) (l : list Q) : nat :=
  List.length (filter (fun d => Qle_bool d c) l).

(** The number of entries of [l] that are equal to [v]. *)
Definition count_eq (v : Q) (l : list Q) : nat :=
  List.length (filter (fun y => Qeq_bool y v) l).

(** Every value occurs in [c] at most as often as in [l]. *)
Definition included (c l : list Q) : Prop :=
  forall v : Q, (count_eq v c <= count_eq v l)%nat.

(** ** [match_columns] *)

Section MatchColumns.

Variable Interval : Type.
Variable block_distance : TextBlock -> TextBlock -> Q.

(** [match_columns], from the groups that [depth_column.identify_groups]
    returns (a method of [DepthColumn], not among the sources): each group
    holds its depth intervals and its blocks, and the pairs of the groups
    are chained in order. *)
Fixpoint match_columns (groups : list (list Interval * list TextBlock))
    : result (list (Group Interval)) :=
  match groups with
  | [] => Ok []
  | group :: groups' =>
      elements <- transform_groups block_distance (fst group) (snd group) ;;
      others <- match_columns groups' ;;
      Ok (elements ++ others)
  end.

End MatchColumns.

Arguments match_columns {Interval}.

(** ** Conflict removal, by recursion on the sorted pairs (for the proofs) *)

(** The pairs of [pairs] whose region intersects the region of no later
    pair; [filtered_pairs] is shown below to return these pairs of the
    sorted list. *)
Fixpoint surviving {DepthColumn : Type} (pairs : list (DepthColumn * Rect))
    : list (DepthColumn * Rect) :=
  match pairs with
  | [] => []
  | pair_1 :: later =>
      if existsb (fun pair_2 => intersects (snd pair_1) (snd pair_2)) later
      then surviving later
      else pair_1 :: surviving later
  end.

(** ** The pseudo macro F1 score *)

(** [x / y] for two floats. *)
Definition float_truediv (x y : Q) : result Q :=
  if Qeq_bool y 0 then Raise ZeroDivisionError else Ok (x / y).

Section PseudoMacroF1.

Variable Metrics : Type.
Variable precision recall : Metrics -> Q.

(** [DatasetMetrics.pseudo_macro_f1]; [and] evaluates its second operand
    only when the dict is not empty. *)
Definition pseudo_macro_f1 (self : DatasetMetrics Metrics) : result Q :=
  if (Py.len (metrics self) =? 0)%Z then Ok 0
  else
    p <- macro_precision precision self ;;
    r <- macro_recall recall self ;;
    if Py.lt 0 (p + r) then
      p1 <- macro_precision precision self ;;
      r1 <- macro_recall recall self ;;
      p2 <- macro_precision precision self ;;
      r2 <- macro_recall recall self ;;
      float_truediv (2 * p1 * r1) (p2 + r2)
    else Ok 0.

(** [DatasetMetrics.get_metrics_list] *)
Definition get_metrics_list (self : DatasetMetrics Metrics) : list Metrics :=
  map snd (metrics self).

End PseudoMacroF1.

Arguments pseudo_macro_f1 {Metrics}.
Arguments get_metrics_list {Metrics}.

(** ** More of [util.py] *)

(** [util.x_overlap_significant_largest] *)
Definition x_overlap_significant_largest (rect1 rect2 : Rect) (level : Q) : bool :=
  negb (Qle_bool (x_overlap rect1 rect2) (level * Qmax (width rect1) (width rect2))).

(** A value of a parameter dict: a leaf, or a nested mapping with its items
    in insertion order. *)
#[warnings="-register-all"] Inductive param (A : Type) : Type :=
| Value (a : A)
| Mapping (items : list (string * param A)).

Arguments Value {A} a.
Arguments Mapping {A} items.

(** [d[k] = v] on a dict: an existing key keeps its place and takes the new
    value, a new key goes to the end. *)
Fixpoint dict_set {A : Type} (k : string) (v : A) (d : list (string * A))
    : list (string * A) :=
  match d with
  | [] => [(k, v)]
  | (k', v') :: d' =>
      if String.eqb k' k then (k', v) :: d' else (k', v') :: dict_set k v d'
  end.

(** [dict(items)] *)
Definition dict_of_items {A : Type} (items : list (string * A)) : list (string * A) :=
  fold_left (fun d item => dict_set (fst item) (snd item) d) items [].

(** [parent_key + separator + key if parent_key else key] *)
Definition new_key_of (parent_key separator key : string) : string :=
  if String.eqb parent_key EmptyString then key
  else String.append parent_key (String.append separator key).

(** [flatten(value, new_key, separator).items()] for a nested mapping, and
    the single item appended for a leaf. *)
Fixpoint flatten_value {A : Type} (value : param A) (new_key separator : string)
    : list (string * A) :=
  match value with
  | Value a => [(new_key, a)]
  | Mapping dictionary =>
      dict_of_items
        ((fix items (dictionary : list (string * param A)) : list (string * A) :=
            match dictionary with
            | [] => []
            | (key, value) :: rest =>
                flatten_value value (new_key_of new_key separator key) separator
                ++ items rest
            end) dictionary)
  end.

(** [util.flatten] *)
Definition flatten {A : Type} (dictionary : list (string * param A))
    (parent_key separator : string) : list (string * A) :=
  flatten_value (Mapping dictionary) parent_key separator.

(** A flat dict as a parameter dict: every value is a leaf. *)
Definition as_params {A : Type} (d : list (string * A)) : list (string * param A) :=
  map (fun item => (fst item, Value (snd item))) d.

(** ** More sample inputs *)

(** Two (column, region) pairs whose regions intersect; the first scores
    higher. *)
Definition tall_pair : Rect * Rect := (mkRect 0 0 5 10, mkRect 5 0 30 10).
Definition short_pair : Rect * Rect := (mkRect 0 0 5 8, mkRect 5 0 30 8).

(** A dataset of two documents whose metrics are one score each. *)
Definition two_documents : DatasetMetrics Q :=
  mkDatasetMetrics [("a.pdf"%string, 1 # 2); ("b.pdf"%string, 1)].

(** ** The description region locator as a whole

    [find_material_description_column] from its first line to its last,
    with the clustering loop.  The arithmetic of the coordinates is a
    parameter of the model: the locator compares, subtracts, adds and
    multiplies coordinates; the rationals and the binary64 floats of Python
    are two instances. *)

Record arithmetic : Type := mkArithmetic {
  num : Type;
  of_decimal : Q -> num;
  num_add : num -> num -> num;
  num_sub : num -> num -> num;
  num_mul : num -> num -> num;
  num_div : num -> num -> num;
  num_abs : num -> num;
  num_lt : num -> num -> bool;
  num_le : num -> num -> bool;
  num_eq : num -> num -> bool
}.

(** The arithmetic of the rationals, without rounding. *)
Definition rationals : arithmetic :=
  mkArithmetic Q (fun q => q) Qplus Qminus Qmult Qdiv Qabs Py.lt Qle_bool Qeq_bool.

(** [float(z)] for an int below [2 ^ 63]. *)
Definition float_of_Z (z : Z) : PrimFloat.float :=
  match z with
  | Z0 => PrimFloat.zero
  | Zpos _ => PrimFloat.of_uint63 (Uint63.of_Z z)
  | Zneg p => PrimFloat.opp (PrimFloat.of_uint63 (Uint63.of_Z (Zpos p)))
  end.

(** The float that a decimal literal denotes: the quotient of two ints that
    are floats themselves, rounded once. *)
Definition float_of_decimal (q : Q) : PrimFloat.float :=
  PrimFloat.div (float_of_Z (Qnum q)) (float_of_Z (Zpos (Qden q))).

(** The arithmetic of Python's floats: IEEE 754 binary64, rounding to
    nearest. *)
Definition binary64 : arithmetic :=
  mkArithmetic PrimFloat.float float_of_decimal PrimFloat.add PrimFloat.sub PrimFloat.mul
               PrimFloat.div PrimFloat.abs PrimFloat.ltb PrimFloat.leb PrimFloat.eqb.

(** What a call does: it returns, it raises, or it never ends. *)
Inductive outcome (X : Type) : Type :=
| Returns (x : X)
| Raises (e : exception)
| Loops.

Arguments Returns {X} x.
Arguments Raises {X} e.
Arguments Loops {X}.

Definition outcome_bind {X Y : Type} (m : outcome X) (k : X -> outcome Y) : outcome Y :=
  match m with
  | Returns x => k x
  | Raises e => Raises e
  | Loops => Loops
  end.

Definition of_result {X : Type} (m : result X) : outcome X :=
  match m with
  | Ok x => Returns x
  | Raise e => Raises e
  end.

(** A list comprehension whose element expression may raise. *)
Fixpoint map_result {X Y : Type} (f : X -> result Y) (l : list X) : result (list Y) :=
  match l with
  | [] => Ok []
  | x :: l' => y <- f x ;; ys <- map_result f l' ;; Ok (y :: ys)
  end.

Fixpoint map_outcome {X Y : Type} (f : X -> outcome Y) (l : list X) : outcome (list Y) :=
  match l with
  | [] => Returns []
  | x :: l' =>
      outcome_bind (f x) (fun y =>
      outcome_bind (map_outcome f l') (fun ys => Returns (y :: ys)))
  end.

(** [max(l, key=len)]: [ValueError] on the empty list, else the first list
    of greatest length. *)
Definition max_by_len {X : Type} (l : list (list X)) : result (list X) :=
  match l with
  | [] => Raise ValueError
  | a :: l' =>
      Ok (fold_left (fun m x => if (List.length m <? List.length x)%nat then x else m) l' a)
  end.

Module locator.

Section Over.

Variable A : arithmetic.

(** [fitz.Rect] *)
Record Rect : Type := mkRect { x0 : num A; y0 : num A; x1 : num A; y1 : num A }.

(** Modelled from the spec: the class [TextLine] of [stratigraphy.util.line]
    is not among the sources.  A line object is taken with its position in
    [lines], which stands for its identity: [line not in max_coverage]
    compares objects, and the lines of a page are distinct objects. *)
Record TextLine : Type := mkTextLine { rect : Rect; is_description : bool }.

Definition line_object : Type := (nat * TextLine)%type.

Definition rect_of (line : line_object) : Rect := rect (snd line).

Definition same_object (a b : line_object) : bool := Nat.eqb (fst a) (fst b).

(** [min(a, b)] and [max(a, b)] of two numbers. *)
Definition min2 (a b : num A) : num A := if num_lt A b a then b else a.

Definition max2 (a b : num A) : num A := if num_lt A a b then b else a.

(** [min(l)] and [max(l)] *)
Definition min_list (l : list (num A)) : result (num A) :=
  match l with
  | [] => Raise ValueError
  | a :: l' => Ok (fold_left (fun m x => if num_lt A x m then x else m) l' a)
  end.

Definition max_list (l : list (num A)) : result (num A) :=
  match l with
  | [] => Raise ValueError
  | a :: l' => Ok (fold_left (fun m x => if num_lt A m x then x else m) l' a)
  end.

(** [max(l, key=key)] *)
Definition max_by {X : Type} (key : X -> num A) (l : list X) : result X :=
  match l with
  | [] => Raise ValueError
  | a :: l' => Ok (fold_left (fun m x => if num_lt A (key m) (key x) then x else m) l' a)
  end.

(** [Rect.width] of PyMuPDF: [max(0, x1 - x0)]. *)
Definition width (r : Rect) : num A := max2 (of_decimal A 0) (num_sub A (x1 r) (x0 r)).

(** [util.x_overlap] *)
Definition x_overlap (rect1 rect2 : Rect) : num A :=
  if num_lt A (x0 rect1) (x1 rect2) && num_lt A (x0 rect2) (x1 rect1)
  then num_sub A (min2 (x1 rect1) (x1 rect2)) (max2 (x0 rect1) (x0 rect2))
  else of_decimal A 0.

(** [util.x_overlap_significant_smallest] *)
Definition x_overlap_significant_smallest (rect1 rect2 : Rect) (level : num A) : bool :=
  num_lt A (num_mul A level (min2 (width rect1) (width rect2))) (x_overlap rect1 rect2).

Variable DepthColumn : Type.
Variable column_rect : DepthColumn -> Rect.

(** [score_column_match(depth_column, rect)], as the locator calls it:
    without words, so that the noise is 0 and the factor [math.pow(0.8, 0)]
    is 1. *)
Definition score_column_match (depth_column : DepthColumn)
    (material_description_rect : Rect) : num A :=
  let rect := column_rect depth_column in
  let top := y0 rect in
  let bottom := y1 rect in
  let right := x1 rect in
  let distance :=
    num_add A
      (num_add A (num_abs A (num_sub A top (y0 material_description_rect)))
                 (num_abs A (num_sub A bottom (y1 material_description_rect))))
      (num_abs A (num_sub A right (x0 material_description_rect))) in
  let height := num_sub A bottom top in
  num_mul A (num_sub A height distance) (of_decimal A 1).

(** The vertical gating: [candidate_description]. *)
Definition candidate_description (lines : list line_object)
    (depth_column : option DepthColumn) : result (list line_object) :=
  match depth_column with
  | Some column =>
      let above_depth_column :=
        filter (fun line =>
                  negb (num_eq A (x_overlap (rect_of line) (column_rect column))
                                 (of_decimal A 0))
                  && num_lt A (y0 (rect_of line)) (y0 (column_rect column)))
               lines in
      min_y0 <- (if (Py.len above_depth_column =? 0)%Z then Ok (of_decimal A (-1))
                 else max_list (map (fun line => y0 (rect_of line)) above_depth_column)) ;;
      Ok (filter (fun line =>
                    num_lt A min_y0 (y0 (rect_of line))
                    && num_lt A (y0 (rect_of line)) (y1 (column_rect column)))
                 lines)
  | None => Ok lines
  end.

(** [filter_coverage] *)
Definition filter_coverage (coverage : list line_object) : result (list line_object) :=
  if (Py.len coverage =? 0)%Z then Ok []
  else
    min_x0 <- min_list (map (fun line => x0 (rect_of line)) coverage) ;;
    max_x1 <- max_list (map (fun line => x1 (rect_of line)) coverage) ;;
    let x0_threshold :=
      num_sub A max_x1 (num_mul A (of_decimal A (4 # 10)) (num_sub A max_x1 min_x0)) in
    Ok (filter (fun line => num_lt A (x0 (rect_of line)) x0_threshold) coverage).

(** One round of the clustering loop: the coverage of greatest length and
    the lines that are left. *)
Definition clustering_round (is_description : list line_object)
    : result (list line_object * list line_object) :=
  let coverage_by_generating_line :=
    map (fun line =>
           filter (fun other =>
                     x_overlap_significant_smallest (rect_of line) (rect_of other)
                                                    (of_decimal A (5 # 10)))
                  is_description)
        is_description in
  coverage_by_generating_line <- map_result filter_coverage coverage_by_generating_line ;;
  max_coverage <- max_by_len coverage_by_generating_line ;;
  Ok (max_coverage,
      filter (fun line => negb (existsb (same_object line) max_coverage)) is_description).

(** [while len(is_description) > 0].  A round that finds an empty coverage
    leaves [is_description] as it is, so that the same round is repeated
    with no end; every other round removes a line, so that one round per
    line is enough. *)
Fixpoint clustering (rounds : nat) (is_description : list line_object)
    : outcome (list (list line_object)) :=
  match is_description with
  | [] => Returns []
  | _ :: _ =>
      outcome_bind (of_result (clustering_round is_description)) (fun round =>
      match fst round, rounds with
      | [], _ => Loops
      | _ :: _, O => Loops
      | _ :: _, S rounds' =>
          outcome_bind (clustering rounds' (snd round)) (fun description_clusters =>
          Returns (fst round :: description_clusters))
      end)
  end.

(** [is_below]; [best_x1] is read from the enclosing scope. *)
Definition is_below (best_x0 best_x1 best_y1 : num A) (line : line_object) : bool :=
  num_lt A (num_sub A best_x0 (of_decimal A 5)) (x0 (rect_of line))
  && num_lt A (x0 (rect_of line))
              (num_div A (num_add A best_x0 best_x1) (of_decimal A 2))
  && num_lt A (y0 (rect_of line)) (num_add A best_y1 (of_decimal A 10))
  && num_lt A best_y1 (y1 (rect_of line)).

(** [while continue_search], with one round per line. *)
Fixpoint expand_below (rounds : nat) (lines : list line_object)
    (best : num A * num A * num A) : outcome (num A * num A * num A) :=
  let '(best_x0, best_x1, best_y1) := best in
  match find (is_below best_x0 best_x1 best_y1) lines with
  | None => Returns best
  | Some line =>
      match rounds with
      | O => Loops
      | S rounds' =>
          expand_below rounds' lines
            (min2 best_x0 (x0 (rect_of line)), max2 best_x1 (x1 (rect_of line)),
             y1 (rect_of line))
      end
  end.

(** The reductions over one cluster and its [good_lines]: [best_y0],
    [best_y1] and the lines of [candidate_description] inside the window
    of the cluster. *)
Definition good_lines (candidate_description cluster : list line_object)
    : result (num A * num A * list line_object) :=
  best_y0 <- min_list (map (fun line => y0 (rect_of line)) cluster) ;;
  best_y1 <- max_list (map (fun line => y1 (rect_of line)) cluster) ;;
  min_description_x0 <-
    min_list (map (fun line =>
                     num_sub A (x0 (rect_of line))
                       (num_mul A (of_decimal A (1 # 100)) (width (rect_of line))))
                  cluster) ;;
  max_description_x0 <-
    max_list (map (fun line =>
                     num_add A (x0 (rect_of line))
                       (num_mul A (of_decimal A (2 # 10)) (width (rect_of line))))
                  cluster) ;;
  Ok (best_y0, best_y1,
      filter (fun line =>
                num_le A best_y0 (y0 (rect_of line))
                && num_le A (y1 (rect_of line)) best_y1
                && (num_lt A min_description_x0 (x0 (rect_of line))
                    && num_lt A (x0 (rect_of line)) max_description_x0))
             candidate_description).

(** The body of the loop over [description_clusters]. *)
Definition candidate_rect (lines candidate_description cluster : list line_object)
    : outcome Rect :=
  outcome_bind (of_result (good_lines candidate_description cluster)) (fun reduced =>
  let '(best_y0, best_y1, good_lines) := reduced in
  outcome_bind (of_result (min_list (map (fun line => x0 (rect_of line)) good_lines)))
    (fun best_x0 =>
  outcome_bind (of_result (max_list (map (fun line => x1 (rect_of line)) good_lines)))
    (fun best_x1 =>
  outcome_bind (expand_below (List.length lines) lines (best_x0, best_x1, best_y1))
    (fun best =>
  let '(best_x0, best_x1, best_y1) := best in
  Returns (mkRect best_x0 best_y0 best_x1 best_y1))))).

(** The end of the function: the choice among the candidate rects. *)
Definition choose_candidate (depth_column : option DepthColumn)
    (candidate_rects : list Rect) : result (option Rect) :=
  if (Py.len candidate_rects =? 0)%Z then Ok None
  else
    match depth_column with
    | Some column =>
        best <- max_by (score_column_match column) candidate_rects ;;
        Ok (Some best)
    | None => first <- Py.index candidate_rects 0 ;; Ok (Some first)
    end.

(** [find_material_description_column] *)
Definition find_material_description_column (lines : list TextLine)
    (depth_column : option DepthColumn) : outcome (option Rect) :=
  let lines := Py.enumerate lines in
  outcome_bind (of_result (candidate_description lines depth_column))
    (fun candidate_description =>
  let is_description :=
    filter (fun line => is_description (snd line)) candidate_description in
  if (Py.len candidate_description =? 0)%Z then Returns None
  else
    outcome_bind (clustering (List.length is_description) is_description)
      (fun description_clusters =>
    outcome_bind (map_outcome (candidate_rect lines candidate_description)
                              description_clusters)
      (fun candidate_rects =>
    of_result (choose_candidate depth_column candidate_rects)))).

End Over.

End locator.

Arguments locator.mkRect {A}.
Arguments locator.x0 {A}.
Arguments locator.y0 {A}.
Arguments locator.x1 {A}.
Arguments locator.y1 {A}.
Arguments locator.mkTextLine {A}.
Arguments locator.rect {A}.
Arguments locator.is_description {A}.
Arguments locator.rect_of {A}.
Arguments locator.same_object {A}.
Arguments locator.width {A}.
Arguments locator.find_material_description_column A {DepthColumn}.
Arguments locator.candidate_description A {DepthColumn}.
Arguments locator.choose_candidate A {DepthColumn}.
Arguments locator.score_column_match A {DepthColumn}.

(** Comparisons that order the numbers of a set [proper]: what Python's
    floats do on the numbers that are no NaN, whatever the rounding of the
    other operations. *)
Record ordered (A : arithmetic) (proper : num A -> Prop) : Prop := mkOrdered {
  lt_irreflexive : forall a, proper a -> num_lt A a a = false;
  lt_transitive :
    forall a b c, proper a -> proper b -> proper c ->
      num_lt A a b = true -> num_lt A b c = true -> num_lt A a c = true;
  le_not_gt : forall a b, proper a -> proper b -> num_le A a b = negb (num_lt A b a);
  le_transitive :
    forall a b c, proper a -> proper b -> proper c ->
      num_le A a b = true -> num_le A b c = true -> num_le A a c = true
}.

(** A line whose four coordinates are proper numbers. *)
Definition proper_line {A : arithmetic} (proper : num A -> Prop)
    (line : locator.line_object A) : Prop :=
  proper (locator.x0 (locator.rect_of line)) /\ proper (locator.y0 (locator.rect_of line))
  /\ proper (locator.x1 (locator.rect_of line))
  /\ proper (locator.y1 (locator.rect_of line)).

(** [x == x]: a float that is no NaN. *)
Definition is_number (x : PrimFloat.float) : Prop := PrimFloat.eqb x x = true.

(** A line at x0 = 100 that is one unit in the last place wide:
    [x1 = math.nextafter(100.0, math.inf)]. *)
Definition narrow_line : locator.TextLine binary64 :=
  locator.mkTextLine
    (locator.mkRect (A := binary64) (float_of_decimal 100) (float_of_decimal 0)
                    (PrimFloat.next_up (float_of_decimal 100)) (float_of_decimal 10))
    true.

(** A line of width zero. *)
Definition zero_width_line : locator.TextLine binary64 :=
  locator.mkTextLine
    (locator.mkRect (A := binary64) (float_of_decimal 3) (float_of_decimal 0)
                    (float_of_decimal 3) (float_of_decimal 1))
    true.

(** Two lines of a paragraph, the second one below the first and twice as
    long, with float coordinates. *)
Definition paragraph : list (locator.line_object binary64) :=
  Py.enumerate
    [locator.mkTextLine
       (locator.mkRect (A := binary64) (float_of_decimal 0) (float_of_decimal 0)
                       (float_of_decimal 10) (float_of_decimal 1)) true;
     locator.mkTextLine
       (locator.mkRect (A := binary64) (float_of_decimal 0) (float_of_decimal 1)
                       (float_of_decimal 20) (float_of_decimal 2)) true].

(** * Properties *)

(** ** Facts about the run time *)

Lemma bind_ok {A B : Type} (m : result A) (k : A -> result B) (b : B) :
  bind m k = Ok b -> exists a, m = Ok a /\ k a = Ok b.
Proof.
  destruct m as [a|e]; simpl; intros H; [now exists a | discriminate].
Qed.

Lemma lt_iff (a b : Q) : Py.lt a b = true <-> a < b.
Proof.
  unfold Py.lt. rewrite negb_true_iff. split; intros H.
  - apply Qnot_le_lt. intros C. apply Qle_bool_iff in C. congruence.
  - destruct (Qle_bool b a) eqn:E; [|reflexivity].
    apply Qle_bool_iff in E. exfalso. exact (Qlt_not_le _ _ H E).
Qed.

Lemma Qle_bool_false_iff (a b : Q) : Qle_bool a b = false <-> b < a.
Proof.
  rewrite <- lt_iff. unfold Py.lt. now rewrite negb_true_iff.
Qed.

(** ** Scoring *)

Lemma pow_08_as_inverse (n : Z) : (8 # 10) ^ n == (10 # 8) ^ (- n).
Proof.
  rewrite Qpower_opp, <- Qinv_power.
  assert (E : / (10 # 8) == 8 # 10) by reflexivity.
  now rewrite E.
Qed.

Lemma pow_08_decreasing (n1 n2 : Z) : (n1 < n2)%Z -> (8 # 10) ^ n2 < (8 # 10) ^ n1.
Proof.
  intros H. rewrite !pow_08_as_inverse.
  apply Qpower_lt_compat_l; [lia | reflexivity].
Qed.

Section ScoringFacts.

Variable DepthColumn : Type.
Variable column_rect : DepthColumn -> Rect.
Variable noise_count : DepthColumn -> list TextLine -> Z.

(** The noise that enters the score: the noise count of the column over the
    words, 0 when [all_words] is [None] or empty. *)
Let noise_of (depth_column : DepthColumn) (all_words : option (list TextLine)) : Z :=
  match all_words with
  | None | Some [] => 0%Z
  | Some words => noise_count depth_column words
  end.

Let distance_of (depth_column : DepthColumn) (region : Rect) : Q :=
  Qabs (y0 (column_rect depth_column) - y0 region)
  + Qabs (y1 (column_rect depth_column) - y1 region)
  + Qabs (x1 (column_rect depth_column) - x0 region).

Let height_of (depth_column : DepthColumn) : Q :=
  y1 (column_rect depth_column) - y0 (column_rect depth_column).

Lemma score_unfold (depth_column : DepthColumn) (region : Rect)
    (all_words : option (list TextLine)) :
  score_column_match column_rect noise_count depth_column region all_words
  = (height_of depth_column - distance_of depth_column region)
    * (8 # 10) ^ noise_of depth_column all_words.
Proof.
  destruct all_words as [[|w ws]|]; reflexivity.
Qed.

(** C6: [score_column_match] returns [(height - distance) * 0.8 ^ noise],
    with [distance] the sum of the three absolute offsets between the column
    (top, bottom, right edge) and the region (top, bottom, left edge),
    [height] the height of the column, and [noise] the noise count of the
    column over the words, 0 when no words are supplied. *)
Theorem score_column_match_formula (depth_column : DepthColumn) (region : Rect)
    (all_words : option (list TextLine)) :
  let top := y0 (column_rect depth_column) in
  let bottom := y1 (column_rect depth_column) in
  let right := x1 (column_rect depth_column) in
  let distance :=
    Qabs (top - y0 region) + Qabs (bottom - y1 region) + Qabs (right - x0 region) in
  let height := bottom - top in
  let noise :=
    match all_words with
    | None | Some [] => 0%Z
    | Some words => noise_count depth_column words
    end in
  score_column_match column_rect noise_count depth_column region all_words
  = (height - distance) * (8 # 10) ^ noise.
Proof. apply score_unfold. Qed.


(** The other side of C5: when the distance exceeds the height, a larger
    noise count gives a strictly larger score. *)
Lemma score_increases_with_noise (depth_column : DepthColumn) (region : Rect)
    (words1 words2 : option (list TextLine)) :
  (noise_of depth_column words1 < noise_of depth_column words2)%Z ->
  height_of depth_column < distance_of depth_column region ->
  score_column_match column_rect noise_count depth_column region words1
  < score_column_match column_rect noise_count depth_column region words2.
Proof.
  intros Hn Hd. rewrite !score_unfold.
  apply pow_08_decreasing in Hn.
  set (h := height_of depth_column) in *.
  set (d := distance_of depth_column region) in *.
  set (p1 := (8 # 10) ^ noise_of depth_column words1) in *.
  set (p2 := (8 # 10) ^ noise_of depth_column words2) in *.
  assert (H : (d - h) * p2 < (d - h) * p1).
  { apply Qmult_lt_l; [|exact Hn].
    rewrite <- (Qplus_opp_r h). apply Qplus_lt_l. exact Hd. }
  assert (E1 : (h - d) * p1 == - ((d - h) * p1)) by ring.
  assert (E2 : (h - d) * p2 == - ((d - h) * p2)) by ring.
  rewrite E1, E2. now apply Qopp_lt_compat.
Qed.

End ScoringFacts.



(** ** Conflict removal *)

Lemma is_empty_false_iff (r : Rect) :
  is_empty r = false <-> x0 r < x1 r /\ y0 r < y1 r.
Proof.
  unfold is_empty. rewrite orb_false_iff, !Qle_bool_false_iff. tauto.
Qed.

Lemma intersects_iff (r s : Rect) :
  intersects r s = true <->
  (x0 r < x1 r /\ y0 r < y1 r) /\ (x0 s < x1 s /\ y0 s < y1 s)
  /\ (Qmax (x0 r) (x0 s) < Qmin (x1 r) (x1 s)
      /\ Qmax (y0 r) (y0 s) < Qmin (y1 r) (y1 s)).
Proof.
  unfold intersects.
  rewrite !andb_true_iff, !negb_true_iff, !is_empty_false_iff. simpl. tauto.
Qed.

Lemma intersects_sym (r s : Rect) : intersects r s = intersects s r.
Proof.
  assert (H : forall a b, intersects a b = true -> intersects b a = true).
  { intros a b. rewrite !intersects_iff.
    rewrite (Q.max_comm (x0 b)), (Q.max_comm (y0 b)),
            (Q.min_comm (x1 b)), (Q.min_comm (y1 b)). tauto. }
  destruct (intersects r s) eqn:E1, (intersects s r) eqn:E2; try reflexivity.
  - apply H in E1. congruence.
  - apply H in E2. congruence.
Qed.

Section PairingFacts.

Variable DepthColumn : Type.
Variable column_rect : DepthColumn -> Rect.
Variable noise_count : DepthColumn -> list TextLine -> Z.
Variable words : list TextLine.

Let score (pair : DepthColumn * Rect) : Q :=
  score_column_match column_rect noise_count (fst pair) (snd pair) (Some words).

Lemma filtered_pairs_two (lower higher : DepthColumn * Rect) :
  intersects (snd lower) (snd higher) = true ->
  score lower < score higher ->
  filtered_pairs column_rect noise_count words [lower; higher] = [higher]
  /\ filtered_pairs column_rect noise_count words [higher; lower] = [higher].
Proof.
  intros Hi Hs. unfold filtered_pairs, Py.sort_by. simpl.
  fold (score lower). fold (score higher).
  assert (E1 : Qle_bool (score lower) (score higher) = true).
  { apply Qle_bool_iff. now apply Qlt_le_weak. }
  assert (E2 : Qle_bool (score higher) (score lower) = false).
  { now apply Qle_bool_false_iff. }
  rewrite E1, E2.
  destruct lower as [c1 r1], higher as [c2 r2]. simpl in *.
  unfold to_delete_for. simpl. rewrite Hi. simpl. split; reflexivity.
Qed.

(** C4: when the pairing step yields two pairs whose regions intersect and
    whose scores differ, the filtered list holds the pair of higher score
    and not the pair of lower score. *)
Theorem conflict_removal_keeps_higher (first second : DepthColumn * Rect) :
  intersects (snd first) (snd second) = true ->
  ~ score first == score second ->
  let higher := if Qlt_le_dec (score first) (score second) then second else first in
  let lower := if Qlt_le_dec (score first) (score second) then first else second in
  In higher (filtered_pairs column_rect noise_count words [first; second])
  /\ ~ In lower (filtered_pairs column_rect noise_count words [first; second]).
Proof.
  intros Hi Hne. destruct (Qlt_le_dec (score first) (score second)) as [Hlt|Hle]; simpl.
  - destruct (filtered_pairs_two first second Hi Hlt) as [E _]. rewrite E.
    split; [now left|]. intros [C|[]]. subst. exact (Qlt_irrefl _ Hlt).
  - assert (Hlt : score second < score first).
    { apply Qle_lt_or_eq in Hle. destruct Hle as [H|H]; [exact H|].
      exfalso. apply Hne. now symmetry. }
    rewrite intersects_sym in Hi.
    destruct (filtered_pairs_two second first Hi Hlt) as [_ E]. rewrite E.
    split; [now left|]. intros [C|[]]. subst. exact (Qlt_irrefl _ Hlt).
Qed.

End PairingFacts.

(** Witness of [conflict_removal_keeps_higher]: two columns of different
    height beside the same region. *)
Lemma conflict_removal_keeps_higher_witness :
  In (mkRect 0 0 5 10, mkRect 5 0 30 10)
     (filtered_pairs column_of_rect every_word_is_noise []
        [(mkRect 0 0 5 10, mkRect 5 0 30 10); (mkRect 0 0 5 8, mkRect 5 0 30 8)])
  /\ ~ In (mkRect 0 0 5 8, mkRect 5 0 30 8)
       (filtered_pairs column_of_rect every_word_is_noise []
          [(mkRect 0 0 5 10, mkRect 5 0 30 10); (mkRect 0 0 5 8, mkRect 5 0 30 8)]).
Proof.
  apply (conflict_removal_keeps_higher Rect column_of_rect every_word_is_noise []
           (mkRect 0 0 5 10, mkRect 5 0 30 10) (mkRect 0 0 5 8, mkRect 5 0 30 8)).
  - vm_compute. reflexivity.
  - vm_compute. discriminate.
Defined.

(** ** Depth column entries *)

(** C7, amended: constructing a layer depth entry succeeds, and yields the
    entry with the given start and end, exactly when the two page numbers
    are equal; when they differ the construction raises [AssertionError]. *)
Theorem layer_entry_pages_checked (start end_ : depthcolumnentry.DepthColumnEntry) :
  match depthcolumnentry.LayerDepthColumnEntry_init start end_ with
  | Ok entry =>
      depthcolumnentry.page_number start = depthcolumnentry.page_number end_
      /\ entry = depthcolumnentry.mkLayerDepthColumnEntry start end_
  | Raise e =>
      depthcolumnentry.page_number start <> depthcolumnentry.page_number end_
      /\ e = AssertionError
  end.
Proof.
  unfold depthcolumnentry.LayerDepthColumnEntry_init.
  destruct (depthcolumnentry.page_number start) as [p|],
           (depthcolumnentry.page_number end_) as [q|]; simpl;
    try (split; [congruence | reflexivity]).
  destruct (Z.eqb_spec p q); split; congruence.
Qed.

(** C7 as stated fails: entries on pages 1 and 2 raise [AssertionError],
    not [ValidationError]. *)
Lemma layer_entry_raises_assertion_error :
  let start := depthcolumnentry.mkDepthColumnEntry (Some (mkRect 0 0 5 1)) 12 (Some 1%Z) in
  let end_ := depthcolumnentry.mkDepthColumnEntry (Some (mkRect 6 0 9 1)) (29 # 2) (Some 2%Z) in
  depthcolumnentry.page_number start <> depthcolumnentry.page_number end_
  /\ depthcolumnentry.LayerDepthColumnEntry_init start end_ = Raise AssertionError
  /\ depthcolumnentry.LayerDepthColumnEntry_init start end_ <> Raise ValidationError.
Proof.
  simpl. repeat split; discriminate.
Qed.

(** ** Macro averages *)

(** C10: on a dataset without recorded metrics the three macro averages
    return 0, and on every dataset they return a value: the division is
    never a division by zero. *)
Theorem macro_averages_of_empty_dataset (Metrics : Type) (f1 precision recall : Metrics -> Q) :
  macro_f1 f1 DatasetMetrics_init = Ok 0
  /\ macro_precision precision DatasetMetrics_init = Ok 0
  /\ macro_recall recall DatasetMetrics_init = Ok 0
  /\ forall self : DatasetMetrics Metrics,
       is_ok (macro_f1 f1 self) = true
       /\ is_ok (macro_precision precision self) = true
       /\ is_ok (macro_recall recall self) = true.
Proof.
  repeat split; try reflexivity;
    unfold macro_f1, macro_precision, macro_recall, Py.truediv;
    destruct (Py.len (metrics self) =? 0)%Z; reflexivity.
Qed.

(** ** The description region locator *)

Lemma len_zero_iff {A : Type} (l : list A) : (Py.len l =? 0)%Z = true <-> l = [].
Proof.
  unfold Py.len. rewrite Z.eqb_eq. destruct l; simpl; split; intros H;
    try reflexivity; try discriminate; lia.
Qed.

Lemma fold_min_spec (l : list Q) :
  forall q : Q,
    let m := fold_left (fun m x => if Qlt_le_dec x m then x else m) l q in
    m <= q /\ forall x, In x l -> m <= x.
Proof.
  induction l as [|y l IH]; intros q; cbn zeta; simpl.
  - split; [apply Qle_refl | intros x []].
  - destruct (Qlt_le_dec y q) as [Hlt|Hle].
    + destruct (IH y) as [H1 H2]. split.
      * apply Qle_trans with y; [exact H1 | now apply Qlt_le_weak].
      * intros x [<-|Hx]; [exact H1 | now apply H2].
    + destruct (IH q) as [H1 H2]. split; [exact H1|].
      intros x [<-|Hx]; [eapply Qle_trans; eassumption | now apply H2].
Qed.

Lemma fold_max_spec (l : list Q) :
  forall q : Q,
    let m := fold_left (fun m x => if Qlt_le_dec m x then x else m) l q in
    q <= m /\ forall x, In x l -> x <= m.
Proof.
  induction l as [|y l IH]; intros q; cbn zeta; simpl.
  - split; [apply Qle_refl | intros x []].
  - destruct (Qlt_le_dec q y) as [Hlt|Hle].
    + destruct (IH y) as [H1 H2]. split.
      * apply Qle_trans with y; [now apply Qlt_le_weak | exact H1].
      * intros x [<-|Hx]; [exact H1 | now apply H2].
    + destruct (IH q) as [H1 H2]. split; [exact H1|].
      intros x [<-|Hx]; [eapply Qle_trans; eassumption | now apply H2].
Qed.

Lemma min_lower_bound (l : list Q) (m : Q) :
  Py.min l = Ok m -> forall x, In x l -> m <= x.
Proof.
  destruct l as [|q l]; [discriminate|]. simpl. intros H. injection H as <-.
  destruct (fold_min_spec l q) as [H1 H2]. intros x [<-|Hx]; [exact H1 | now apply H2].
Qed.

Lemma max_upper_bound (l : list Q) (m : Q) :
  Py.max l = Ok m -> forall x, In x l -> x <= m.
Proof.
  destruct l as [|q l]; [discriminate|]. simpl. intros H. injection H as <-.
  destruct (fold_max_spec l q) as [H1 H2]. intros x [<-|Hx]; [exact H1 | now apply H2].
Qed.

Lemma filter_length_lt {A : Type} (f g : A -> bool) (l : list A) (a : A) :
  (forall x, f x = true -> g x = true) ->
  In a l -> g a = true -> f a = false ->
  (List.length (filter f l) < List.length (filter g l))%nat.
Proof.
  intros Hfg. induction l as [|x l IH]; intros Ha Hg Hf; [destruct Ha|].
  assert (Hle : forall l', (List.length (filter f l') <= List.length (filter g l'))%nat).
  { induction l' as [|y l' IH']; [reflexivity|]. simpl.
    destruct (f y) eqn:Ef; [rewrite (Hfg y Ef); simpl; lia|].
    destruct (g y); simpl; lia. }
  simpl. destruct Ha as [->|Ha].
  - rewrite Hf, Hg. simpl. specialize (Hle l). lia.
  - specialize (IH Ha Hg Hf).
    destruct (f x) eqn:Ef; [rewrite (Hfg x Ef); simpl; lia|].
    destruct (g x); simpl; lia.
Qed.

(** The downward expansion stops by itself: with one round per line whose
    bottom lies below [best_y1], and one more, no line is below the
    rectangle it returns. *)
Lemma expand_below_stable (all_lines : list TextLine) (rounds : nat) :
  forall best_x0 best_x1 best_y1 : Q,
    (List.length (filter (fun line => Py.lt best_y1 (y1 (rect line))) all_lines)
     < rounds)%nat ->
    forall x x' y,
      expand_below rounds all_lines (best_x0, best_x1, best_y1) = (x, x', y) ->
      find (is_below x x' y) all_lines = None.
Proof.
  induction rounds as [|rounds IH]; intros best_x0 best_x1 best_y1 Hm x x' y; [lia|].
  cbn [expand_below].
  destruct (find (is_below best_x0 best_x1 best_y1) all_lines) as [line|] eqn:Ef.
  - apply IH. apply find_some in Ef. destruct Ef as [Hin Hb].
    unfold is_below in Hb. rewrite !andb_true_iff in Hb. destruct Hb as [_ Hb].
    assert (Hlt : (List.length
                     (filter (fun l => Py.lt (y1 (rect line)) (y1 (rect l))) all_lines)
                   < List.length
                       (filter (fun l => Py.lt best_y1 (y1 (rect l))) all_lines))%nat).
    { apply (filter_length_lt _ _ all_lines line); [|exact Hin|exact Hb|].
      - intros l Hl. apply lt_iff in Hl, Hb. apply lt_iff.
        eapply Qlt_trans; eassumption.
      - destruct (Py.lt (y1 (rect line)) (y1 (rect line))) eqn:E; [|reflexivity].
        apply lt_iff in E. exfalso. exact (Qlt_irrefl _ E). }
    lia.
  - intros H. injection H as <- <- <-. exact Ef.
Qed.

Lemma expand_below_complete (all_lines : list TextLine) (best_x0 best_x1 best_y1 x x' y : Q) :
  expand_below (S (List.length all_lines)) all_lines (best_x0, best_x1, best_y1)
  = (x, x', y) ->
  find (is_below x x' y) all_lines = None.
Proof.
  apply expand_below_stable.
  assert (H : forall (f : TextLine -> bool) l,
             (List.length (filter f l) <= List.length l)%nat).
  { intros f l. induction l as [|a l IH]; [reflexivity|].
    simpl. destruct (f a); simpl; lia. }
  specialize (H (fun line => Py.lt best_y1 (y1 (rect line))) all_lines). lia.
Qed.

Section LocatorFacts.

Variable DepthColumn : Type.
Variable column_rect : DepthColumn -> Rect.
Variable noise_count : DepthColumn -> list TextLine -> Z.

Lemma candidate_description_total (all_lines : list TextLine)
    (depth_column : option DepthColumn) :
  is_ok (candidate_description column_rect all_lines depth_column) = true.
Proof.
  destruct depth_column as [column|]; [|reflexivity].
  unfold candidate_description.
  match goal with |- context [Py.len ?l] => destruct l as [|a l'] end;
    reflexivity.
Qed.

Lemma filter_coverage_total (coverage : list TextLine) :
  is_ok (filter_coverage coverage) = true.
Proof. destruct coverage; reflexivity. Qed.

Lemma choose_candidate_total (depth_column : option DepthColumn)
    (candidate_rects : list Rect) :
  is_ok (choose_candidate column_rect noise_count depth_column candidate_rects) = true.
Proof. destruct candidate_rects, depth_column; reflexivity. Qed.

End LocatorFacts.

(** * The exceptions of the description region locator *)

Lemma outcome_bind_raises {X Y : Type} (m : outcome X) (k : X -> outcome Y)
    (e0 : exception) :
  (forall e, m = Raises e -> e = e0) ->
  (forall x e, k x = Raises e -> e = e0) ->
  forall e, outcome_bind m k = Raises e -> e = e0.
Proof.
  intros Hm Hk e. destruct m as [x|e'|]; simpl.
  - apply Hk.
  - intros H. apply Hm. congruence.
  - discriminate.
Qed.

Lemma map_result_ok {X Y : Type} (f : X -> result Y) (l : list X) :
  (forall x, is_ok (f x) = true) -> is_ok (map_result f l) = true.
Proof.
  intros Hf. induction l as [|x l IH]; [reflexivity|]. simpl.
  specialize (Hf x). destruct (f x); [|discriminate]. simpl.
  destruct (map_result f l); [reflexivity | discriminate].
Qed.

Lemma map_outcome_raises {X Y : Type} (f : X -> outcome Y) (l : list X) (e0 : exception) :
  (forall x e, f x = Raises e -> e = e0) ->
  forall e, map_outcome f l = Raises e -> e = e0.
Proof.
  intros Hf. induction l as [|x l IH]; intros e; simpl; [discriminate|].
  apply outcome_bind_raises; [apply Hf|]. intros y.
  apply outcome_bind_raises; [exact IH | discriminate].
Qed.

Lemma map_result_In {X Y : Type} (f : X -> result Y) (l : list X) :
  forall ys y, map_result f l = Ok ys -> In y ys -> exists x, In x l /\ f x = Ok y.
Proof.
  induction l as [|x l IH]; intros ys y; simpl.
  - intros H. injection H as <-. intros [].
  - destruct (f x) as [y0|] eqn:E; [|discriminate]. simpl.
    destruct (map_result f l) as [ys0|]; [|discriminate]. simpl.
    intros H. injection H as <-. intros [<-|Hin].
    + exists x. split; [now left | exact E].
    + destruct (IH ys0 y eq_refl Hin) as (x' & Hx & Ex). exists x'. split; [now right|exact Ex].
Qed.

Lemma max_by_len_In {X : Type} (l : list (list X)) (m : list X) :
  max_by_len l = Ok m -> In m l.
Proof.
  destruct l as [|a l]; [discriminate|]. simpl. intros H. injection H as <-.
  revert a. induction l as [|x l IH]; intros a; simpl; [now left|].
  destruct (List.length a <? List.length x)%nat.
  - destruct (IH x) as [E|H]; [right; left; exact E | right; right; exact H].
  - destruct (IH a) as [E|H]; [left; exact E | right; right; exact H].
Qed.

Section LocatorExceptions.

Variable A : arithmetic.
Variable DepthColumn : Type.
Variable column_rect : DepthColumn -> locator.Rect A.

Lemma gating_total (objects : list (locator.line_object A))
    (depth_column : option DepthColumn) :
  is_ok (locator.candidate_description A column_rect objects depth_column) = true.
Proof.
  destruct depth_column as [column|]; [|reflexivity].
  unfold locator.candidate_description.
  match goal with |- context [Py.len ?l] => destruct l as [|a l'] end; reflexivity.
Qed.

Lemma filter_coverage_guarded (coverage : list (locator.line_object A)) :
  is_ok (locator.filter_coverage A coverage) = true.
Proof. destruct coverage; reflexivity. Qed.

Lemma clustering_round_guarded (first : locator.line_object A)
    (others : list (locator.line_object A)) :
  is_ok (locator.clustering_round A (first :: others)) = true.
Proof.
  unfold locator.clustering_round.
  set (coverages := map _ (first :: others)).
  pose proof (map_result_ok (locator.filter_coverage A) coverages filter_coverage_guarded)
    as H.
  destruct (map_result (locator.filter_coverage A) coverages) as [filtered|e] eqn:E;
    [|discriminate].
  cbn [bind]. destruct filtered as [|c filtered]; [|reflexivity].
  subst coverages. cbn [map map_result] in E.
  destruct (locator.filter_coverage A _); [|discriminate]. cbn [bind] in E.
  destruct (map_result _ _); discriminate.
Qed.

Lemma choice_guarded (depth_column : option DepthColumn)
    (candidate_rects : list (locator.Rect A)) :
  is_ok (locator.choose_candidate A column_rect depth_column candidate_rects) = true.
Proof. destruct candidate_rects, depth_column; reflexivity. Qed.

Lemma clustering_never_raises (rounds : nat) :
  forall (is_description : list (locator.line_object A)) (e : exception),
    locator.clustering A rounds is_description <> Raises e.
Proof.
  induction rounds as [|rounds IH]; intros [|first others] e; simpl; try discriminate.
  - pose proof (clustering_round_guarded first others) as H.
    destruct (locator.clustering_round A (first :: others)) as [[mc rest]|]; [|discriminate].
    simpl. destruct mc; discriminate.
  - pose proof (clustering_round_guarded first others) as H.
    destruct (locator.clustering_round A (first :: others)) as [[mc rest]|]; [|discriminate].
    simpl. destruct mc as [|c mc]; [discriminate|].
    specialize (IH rest). destruct (locator.clustering A rounds rest) as [cl|e'|];
      simpl; try discriminate. intros C. injection C as ->. now apply (IH e).
Qed.

Lemma filter_coverage_sublist (coverage kept : list (locator.line_object A)) :
  locator.filter_coverage A coverage = Ok kept ->
  forall line, In line kept -> In line coverage.
Proof.
  unfold locator.filter_coverage. destruct (Py.len coverage =? 0)%Z.
  - intros H. injection H as <-. intros line [].
  - destruct (locator.min_list A _); [|discriminate].
    destruct (locator.max_list A _); [|discriminate]. simpl.
    intros H. injection H as <-. intros line Hin. now apply filter_In in Hin.
Qed.

(** A round of the clustering loop that finds a coverage with a line in it
    takes this line out of [is_description]. *)
Lemma clustering_round_shrinks (is_description max_coverage rest : list (locator.line_object A))
    (first : locator.line_object A) :
  locator.clustering_round A is_description = Ok (first :: max_coverage, rest) ->
  (List.length rest < List.length is_description)%nat.
Proof.
  unfold locator.clustering_round.
  destruct (map_result (locator.filter_coverage A) _) as [filtered|] eqn:E; [|discriminate].
  cbn [bind]. destruct (max_by_len filtered) as [mc|] eqn:Em; [|discriminate].
  cbn [bind]. intros H. injection H as -> <-.
  apply max_by_len_In in Em.
  destruct (map_result_In _ _ _ _ E Em) as (coverage & Hc & Ef).
  apply in_map_iff in Hc. destruct Hc as (line & <- & _).
  pose proof (filter_coverage_sublist _ _ Ef first (or_introl eq_refl)) as Hin.
  apply filter_In in Hin. destruct Hin as [Hin _].
  set (kept := fun line0 : locator.line_object A =>
                 negb (existsb (locator.same_object line0) (first :: max_coverage))).
  assert (Hk : kept first = false).
  { unfold kept. cbn [existsb]. unfold locator.same_object at 1.
    now rewrite Nat.eqb_refl. }
  clearbody kept. clear E Em Ef. induction is_description as [|a l IH]; [destruct Hin|].
  assert (Hle : (List.length (filter kept l) <= List.length l)%nat).
  { clear. induction l as [|b l IH]; [reflexivity|]. simpl.
    destruct (kept b); simpl; lia. }
  simpl. destruct Hin as [->|Hin].
  - rewrite Hk. lia.
  - specialize (IH Hin). destruct (kept a); simpl; lia.
Qed.

(** One round per line is enough for the clustering loop: with more rounds
    it does the same. *)
Lemma clustering_rounds_enough (rounds : nat) :
  forall (more : nat) (is_description : list (locator.line_object A)),
    (List.length is_description <= rounds)%nat ->
    (List.length is_description <= more)%nat ->
    locator.clustering A rounds is_description = locator.clustering A more is_description.
Proof.
  induction rounds as [|rounds IH]; intros more [|line is_description] H1 H2;
    try (now destruct more); try (simpl in H1; lia).
  destruct more as [|more]; [simpl in H2; lia|].
  cbn [locator.clustering].
  destruct (locator.clustering_round A (line :: is_description))
    as [[max_coverage rest]|e] eqn:E; [|reflexivity].
  cbn [of_result outcome_bind fst snd].
  destruct max_coverage as [|first max_coverage]; [reflexivity|].
  apply clustering_round_shrinks in E. simpl in E, H1, H2.
  rewrite (IH more rest); [reflexivity | lia | lia].
Qed.

Lemma expand_below_never_raises (rounds : nat) (objects : list (locator.line_object A)) :
  forall (best : num A * num A * num A) (e : exception),
    locator.expand_below A rounds objects best <> Raises e.
Proof.
  induction rounds as [|rounds IH]; intros [[bx0 bx1] by1] e; simpl;
    destruct (find _ objects); try discriminate. apply IH.
Qed.

(** The cluster step raises only [ValueError], and only when the cluster or
    its good lines are empty. *)
Lemma good_lines_raises (candidates cluster : list (locator.line_object A))
    (e : exception) :
  locator.good_lines A candidates cluster = Raise e -> e = ValueError /\ cluster = [].
Proof.
  destruct cluster as [|first cluster]; simpl.
  - intros H. injection H as <-. now split.
  - discriminate.
Qed.

Lemma candidate_rect_raises (objects candidates cluster : list (locator.line_object A))
    (e : exception) :
  locator.candidate_rect A objects candidates cluster = Raises e ->
  e = ValueError
  /\ (cluster = []
      \/ exists best_y0 best_y1,
           locator.good_lines A candidates cluster = Ok (best_y0, best_y1, [])).
Proof.
  unfold locator.candidate_rect.
  destruct (locator.good_lines A candidates cluster) as [[[best_y0 best_y1] good]|e']
    eqn:E.
  - cbn [of_result outcome_bind]. destruct good as [|g good].
    + simpl. intros H. injection H as <-. split; [reflexivity|]. right.
      now exists best_y0, best_y1.
    + cbn [map locator.min_list locator.max_list of_result outcome_bind].
      intros H. exfalso.
      match type of H with
      | outcome_bind ?m _ = _ =>
          destruct m as [[[bx0 bx1] by1]|e''|] eqn:Ee; simpl in H; try discriminate
      end.
      now apply expand_below_never_raises in Ee.
  - simpl. intros H. injection H as ->. apply good_lines_raises in E.
    destruct E as [-> ->]. split; [reflexivity | now left].
Qed.

(** C8, amended: in the description region locator the reductions of the
    vertical gating, of [filter_coverage], of the clustering round and of
    the final choice are guarded, by a length test or by the loop condition,
    and these steps return on every input.  The reductions that build the
    rectangle of a cluster are not guarded: over an empty cluster, or a
    cluster without good lines, the step fails with [ValueError].  No
    [PreconditionError] is raised: the only exception of
    [find_material_description_column] is [ValueError], whatever the
    arithmetic of the coordinates. *)
Theorem locator_exceptions (lines : list (locator.TextLine A))
    (objects candidates cluster coverage : list (locator.line_object A))
    (first : locator.line_object A)
    (depth_column : option DepthColumn) (candidate_rects : list (locator.Rect A)) :
  is_ok (locator.candidate_description A column_rect objects depth_column) = true
  /\ is_ok (locator.filter_coverage A coverage) = true
  /\ is_ok (locator.clustering_round A (first :: objects)) = true
  /\ is_ok (locator.choose_candidate A column_rect depth_column candidate_rects) = true
  /\ locator.candidate_rect A objects candidates [] = Raises ValueError
  /\ match locator.candidate_rect A objects candidates cluster with
     | Raises e =>
         e = ValueError
         /\ (cluster = []
             \/ exists best_y0 best_y1,
                  locator.good_lines A candidates cluster = Ok (best_y0, best_y1, []))
     | _ => True
     end
  /\ match locator.find_material_description_column A column_rect lines depth_column with
     | Raises e => e = ValueError
     | _ => True
     end.
Proof.
  split; [apply gating_total|].
  split; [apply filter_coverage_guarded|].
  split; [apply clustering_round_guarded|].
  split; [apply choice_guarded|].
  split; [reflexivity|]. split.
  - destruct (locator.candidate_rect A objects candidates cluster) as [r|e|] eqn:E;
      [exact I| |exact I].
    now apply candidate_rect_raises in E.
  - destruct (locator.find_material_description_column A column_rect lines depth_column)
      as [r|e|] eqn:E; [exact I| |exact I].
    revert e E. unfold locator.find_material_description_column.
    apply outcome_bind_raises.
    { intros e H. pose proof (gating_total (Py.enumerate lines) depth_column) as Hg.
      destruct (locator.candidate_description A column_rect (Py.enumerate lines)
                  depth_column); [discriminate H | discriminate Hg]. }
    intros cands e.
    destruct (Py.len cands =? 0)%Z; [discriminate|].
    apply outcome_bind_raises.
    { intros e' H. exfalso. exact (clustering_never_raises _ _ _ H). }
    intros clusters. apply outcome_bind_raises.
    { apply map_outcome_raises. intros c e' H. now apply candidate_rect_raises in H. }
    intros rects e' H.
    pose proof (choice_guarded depth_column rects) as Hc.
    destruct (locator.choose_candidate A column_rect depth_column rects);
      [discriminate H | discriminate Hc].
Qed.

End LocatorExceptions.

(** C8 as stated fails, in the arithmetic of Python's floats: for the page
    made of one description line at [x0 = 100] that is one unit in the last
    place wide, the clustering loop ends with the line as its one cluster,
    the window [x0 - 0.01 * width < x0 < x0 + 0.2 * width] rounds to
    [100 < 100 < 100], no line is a good line, and
    [find_material_description_column] raises [ValueError] from the
    unguarded [min], not [PreconditionError]. *)
Lemma locator_raises_value_error :
  locator.clustering binary64 1 (Py.enumerate [narrow_line])
  = Returns [Py.enumerate [narrow_line]]
  /\ locator.good_lines binary64 (Py.enumerate [narrow_line]) (Py.enumerate [narrow_line])
     = Ok (float_of_decimal 0, float_of_decimal 10, [])
  /\ locator.find_material_description_column binary64
       (fun r : locator.Rect binary64 => r) [narrow_line] None
     = Raises ValueError
  /\ locator.find_material_description_column binary64
       (fun r : locator.Rect binary64 => r) [narrow_line] None
     <> Raises PreconditionError.
Proof.
  assert (E : locator.find_material_description_column binary64
                (fun r : locator.Rect binary64 => r) [narrow_line] None
              = Raises ValueError) by (vm_compute; reflexivity).
  split; [vm_compute; reflexivity|]. split; [vm_compute; reflexivity|].
  split; [exact E|]. rewrite E. discriminate.
Qed.

(** A description line of width zero overlaps no line significantly, not
    even itself: the round of the clustering loop finds an empty coverage
    and leaves [is_description] as it is, and the loop does not end. *)
Example locator_loops_on_zero_width :
  locator.clustering_round binary64 (Py.enumerate [zero_width_line])
  = Ok ([], Py.enumerate [zero_width_line])
  /\ locator.find_material_description_column binary64
       (fun r : locator.Rect binary64 => r) [zero_width_line] None
     = Loops.
Proof. split; vm_compute; reflexivity. Qed.

(** ** The reconciler: a single interval *)

(** C9: for one depth interval and no text block, [transform_groups]
    returns one pair, of the given interval and a block without lines. *)
Theorem single_interval_without_blocks (Interval : Type)
    (block_distance : TextBlock -> TextBlock -> Q) (interval : Interval) :
  transform_groups block_distance [interval] []
  = Ok [mkGroup interval (TextBlock_init [])]
  /\ line_count (TextBlock_init []) = 0%nat.
Proof. split; reflexivity. Qed.

(** ** Splitting preserves the lines *)

Lemma total_line_count_app (bs cs : list TextBlock) :
  total_line_count (bs ++ cs) = (total_line_count bs + total_line_count cs)%nat.
Proof.
  unfold total_line_count. now rewrite map_app, list_sum_app.
Qed.

Lemma total_line_count_single (ls : list TextLine) :
  total_line_count [TextBlock_init ls] = List.length ls.
Proof. unfold total_line_count, line_count. simpl. lia. Qed.

Lemma split_lines_total (count : nat) (ls : list TextLine) :
  forall (line_index : nat) (st : split_state),
    (total_line_count (split_blocks (split_lines count line_index ls st))
     + List.length (current_block_lines (split_lines count line_index ls st))
     = total_line_count (split_blocks st)
       + List.length (current_block_lines st) + List.length ls)%nat.
Proof.
  induction ls as [|line ls IH]; intros line_index st; simpl; [lia|].
  rewrite IH.
  destruct ((Z.of_nat line_index <? Z.of_nat count - 1)%Z
            && Py.contains (x1 (rect line)) (cutoff_values st)); simpl.
  - rewrite total_line_count_app, total_line_count_single, length_app. simpl. lia.
  - rewrite length_app. simpl. lia.
Qed.

Lemma set_last_terminated_ok (bs bs' : list TextBlock) :
  set_last_terminated bs = Ok bs' ->
  total_line_count bs' = total_line_count bs /\ List.length bs' = List.length bs.
Proof.
  revert bs'. induction bs as [|b bs IH]; intros bs'; simpl; [discriminate|].
  destruct bs as [|b' bs].
  - intros H. injection H as <-. split; reflexivity.
  - intros H. apply bind_ok in H. destruct H as (bs'' & E & H).
    injection H as <-. destruct (IH _ E) as [H1 H2].
    unfold total_line_count in *. simpl in *. lia.
Qed.

Lemma set_last_terminated_raise (bs : list TextBlock) (e : exception) :
  set_last_terminated bs = Raise e -> bs = [] /\ e = IndexError.
Proof.
  induction bs as [|b bs IH]; simpl.
  - intros H. injection H as <-. split; reflexivity.
  - destruct bs as [|b' bs]; [discriminate|].
    destruct (set_last_terminated (b' :: bs)) as [bs''|e'] eqn:E; simpl; [discriminate|].
    intros H. injection H as ->. destruct (IH eq_refl). discriminate.
Qed.

(** The state after the lines of one block and the flush that follows. *)
Lemma split_loop_step_total (block : TextBlock) (st : split_state) :
  let st1 := split_lines (line_count block) 0 (lines block) st in
  let st2 :=
    if (Py.len (current_block_lines st1) =? 0)%Z then st1
    else mkSplit (cutoff_values st1)
                 (split_blocks st1 ++ [TextBlock_init (current_block_lines st1)]) [] in
  current_block_lines st = [] ->
  current_block_lines st2 = []
  /\ total_line_count (split_blocks st2)
     = (total_line_count (split_blocks st) + line_count block)%nat
  /\ (split_blocks st2 = [] -> lines block = []).
Proof.
  intros st1 st2 Hc.
  pose proof (split_lines_total (line_count block) (lines block) 0 st) as H.
  fold st1 in H. rewrite Hc in H. simpl in H. fold (line_count block) in H.
  subst st2. destruct (Py.len (current_block_lines st1) =? 0)%Z eqn:E.
  - apply len_zero_iff in E. rewrite E in H. simpl in H.
    split; [exact E|]. split; [lia|].
    intros Hs. rewrite Hs in H. unfold total_line_count in H. simpl in H.
    apply length_zero_iff_nil. unfold line_count in H. lia.
  - simpl. split; [reflexivity|]. split.
    + rewrite total_line_count_app, total_line_count_single. lia.
    + intros Hs. destruct (split_blocks st1); discriminate.
Qed.

Lemma split_loop_total (blocks : list TextBlock) :
  forall st : split_state,
    current_block_lines st = [] ->
    match split_loop blocks st with
    | Ok st' =>
        total_line_count (split_blocks st')
        = (total_line_count (split_blocks st) + total_line_count blocks)%nat
    | Raise e =>
        e = IndexError
        /\ exists b, In b blocks /\ lines b = [] /\ is_terminated_by_line b = true
    end.
Proof.
  induction blocks as [|block blocks IH]; intros st Hc.
  - simpl. unfold total_line_count. simpl. lia.
  - cbn [split_loop].
    destruct (split_loop_step_total block st Hc) as (Hc2 & Ht & Hn).
    set (st2 := if (Py.len _ =? 0)%Z then _ else _) in *.
    destruct (is_terminated_by_line block) eqn:Eterm.
    + destruct (set_last_terminated (split_blocks st2)) as [bs|e] eqn:E; simpl.
      * apply set_last_terminated_ok in E. destruct E as [E _].
        specialize (IH (mkSplit (cutoff_values st2) bs (current_block_lines st2)) Hc2).
        destruct (split_loop blocks _) as [st'|e].
        -- simpl in IH. rewrite IH, E, Ht.
           unfold total_line_count. simpl. lia.
        -- destruct IH as (He & b & Hb & Hl & Hf). split; [exact He|].
           exists b. split; [now right | now split].
      * apply set_last_terminated_raise in E. destruct E as [E ->].
        split; [reflexivity|]. exists block. split; [now left | split; auto].
    + simpl. specialize (IH st2 Hc2).
      destruct (split_loop blocks st2) as [st'|e].
      * rewrite IH, Ht. unfold total_line_count. simpl. lia.
      * destruct IH as (He & b & Hb & Hl & Hf). split; [exact He|].
        exists b. split; [now right | now split].
Qed.

Lemma one_block_per_line_total (blocks : list TextBlock) :
  total_line_count
    (flat_map (fun block => map (fun line => TextBlock_init [line]) (lines block)) blocks)
  = total_line_count blocks.
Proof.
  induction blocks as [|block blocks IH]; [reflexivity|].
  simpl. rewrite total_line_count_app, IH.
  unfold total_line_count at 2 3. simpl. f_equal.
  unfold line_count. induction (lines block) as [|l ls IHl]; [reflexivity|].
  simpl. unfold total_line_count in *. simpl. now rewrite IHl.
Qed.

(** C3: for a non-empty list of blocks and a target of at least 1, the
    blocks returned by [split_blocks_by_textline_length] hold in total as
    many lines as the blocks given, in the branch of one block per line and
    in the branch driven by the cutoff values.  The call returns unless a
    block without lines carries the flag [is_terminated_by_line], where it
    raises [IndexError]. *)
Theorem split_preserves_line_count (blocks : list TextBlock) (target_split_count : Z) :
  blocks <> [] -> (1 <= target_split_count)%Z ->
  match split_blocks_by_textline_length blocks target_split_count with
  | Ok out => total_line_count out = total_line_count blocks
  | Raise e =>
      e = IndexError
      /\ exists b, In b blocks /\ lines b = [] /\ is_terminated_by_line b = true
  end.
Proof.
  intros _ _. unfold split_blocks_by_textline_length.
  destruct (Py.len (Py.sorted (eligible_lengths blocks)) <=? target_split_count)%Z.
  - (* one block per line *)
    apply one_block_per_line_total.
  - (* the walk over the cutoff values *)
    pose proof (split_loop_total blocks
      (mkSplit (Py.slice_to (Py.sorted (eligible_lengths blocks)) target_split_count) [] [])
      eq_refl) as H.
    destruct (split_loop blocks _) as [st'|e]; simpl; exact H.
Qed.

(** ** Sorting *)

Lemma insert_by_perm {A : Type} (key : A -> Q) (a : A) (l : list A) :
  Permutation (Py.insert_by key a l) (a :: l).
Proof.
  induction l as [|b l IH]; simpl; [reflexivity|].
  destruct (Qle_bool (key a) (key b)); [reflexivity|].
  rewrite IH. apply perm_swap.
Qed.

Lemma sort_by_perm {A : Type} (key : A -> Q) (l : list A) :
  Permutation (Py.sort_by key l) l.
Proof.
  induction l as [|a l IH]; simpl; [reflexivity|].
  rewrite insert_by_perm. now constructor.
Qed.

Lemma sorted_length (l : list Q) : List.length (Py.sorted l) = List.length l.
Proof. apply Permutation_length, sort_by_perm. Qed.

Lemma insert_sorted (a : Q) (l : list Q) :
  StronglySorted Qle l -> StronglySorted Qle (Py.insert_by (fun q => q) a l).
Proof.
  induction l as [|b l IH]; intros Hs; simpl.
  - constructor; constructor.
  - inversion Hs as [|? ? Hs' Hall]; subst.
    destruct (Qle_bool a b) eqn:E.
    + apply Qle_bool_iff in E. constructor; [exact Hs|].
      constructor; [exact E|].
      eapply Forall_impl; [|exact Hall]. intros c Hc. eapply Qle_trans; eassumption.
    + apply Qle_bool_false_iff in E. constructor; [now apply IH|].
      eapply Permutation_Forall.
      * symmetry. apply insert_by_perm.
      * constructor; [now apply Qlt_le_weak | exact Hall].
Qed.

Lemma sorted_sorted (l : list Q) : StronglySorted Qle (Py.sorted l).
Proof.
  induction l as [|a l IH]; simpl; [constructor|].
  now apply insert_sorted.
Qed.

Lemma count_le_perm (c : Q) (l l' : list Q) :
  Permutation l l' -> count_le c l = count_le c l'.
Proof.
  unfold count_le. induction 1; simpl.
  - reflexivity.
  - destruct (Qle_bool x c); simpl; congruence.
  - destruct (Qle_bool x c), (Qle_bool y c); reflexivity.
  - congruence.
Qed.

Lemma count_eq_perm (v : Q) (l l' : list Q) :
  Permutation l l' -> count_eq v l = count_eq v l'.
Proof.
  unfold count_eq. induction 1; simpl.
  - reflexivity.
  - destruct (Qeq_bool x v); simpl; congruence.
  - destruct (Qeq_bool x v), (Qeq_bool y v); reflexivity.
  - congruence.
Qed.

(** In an ascending list the entry at position [k] is at least the [k + 1]
    entries up to it. *)
Lemma count_le_nth_sorted (l : list Q) :
  StronglySorted Qle l ->
  forall (k : nat) (c : Q), nth_error l k = Some c -> (k < count_le c l)%nat.
Proof.
  induction 1 as [|a l Hs IH Hall]; intros k c Hk.
  - destruct k; discriminate.
  - unfold count_le. simpl. destruct k as [|k]; simpl in Hk.
    + injection Hk as ->.
      assert (E : Qle_bool c c = true) by (apply Qle_bool_iff, Qle_refl).
      rewrite E. simpl. lia.
    + assert (E : Qle_bool a c = true).
      { apply Qle_bool_iff. rewrite Forall_forall in Hall.
        apply Hall. eapply nth_error_In, Hk. }
      rewrite E. simpl. specialize (IH k c Hk). unfold count_le in IH. lia.
Qed.

Lemma index_ok {A : Type} (l : list A) (i : Z) :
  (0 <= i < Py.len l)%Z ->
  exists a, Py.index l i = Ok a /\ nth_error l (Z.to_nat i) = Some a.
Proof.
  intros [H0 H1]. unfold Py.index.
  destruct (i <? 0)%Z eqn:E; [apply Z.ltb_lt in E; lia|]. rewrite E.
  destruct (nth_error l (Z.to_nat i)) as [a|] eqn:En.
  - exists a. split; reflexivity.
  - apply nth_error_None in En. unfold Py.len in H1. lia.
Qed.

(** ** Merging *)

Section MergeFacts.

Variable block_distance : TextBlock -> TextBlock -> Q.

Lemma distances_from_length (rest : list TextBlock) :
  forall previous, List.length (distances_from block_distance previous rest) = List.length rest.
Proof.
  induction rest as [|b rest IH]; intros previous; simpl; [reflexivity|].
  now rewrite IH.
Qed.

(** Every round of the loop either merges or emits a block, and the loop
    merges at the entries that are at most the cutoff until the target is
    reached. *)
Lemma merge_loop_counts (target_merge_count : Z) (cutoff : Q) (rest : list TextBlock) :
  forall (previous : TextBlock) (st : merge_state),
    (merged_count st <= target_merge_count)%Z ->
    let st' := merge_loop block_distance target_merge_count cutoff previous rest st in
    merged_count st'
    = Z.min target_merge_count
        (merged_count st
         + Z.of_nat (count_le cutoff (distances_from block_distance previous rest)))
    /\ (Py.len (merged_blocks st') + merged_count st'
        = Py.len (merged_blocks st) + merged_count st + Py.len rest)%Z.
Proof.
  unfold Py.len.
  induction rest as [|new_block rest IH]; intros previous st Hle; cbn zeta.
  - simpl. split; lia.
  - cbn [merge_loop distances_from]. unfold count_le. cbn [filter].
    destruct (merged_count st <? target_merge_count)%Z eqn:Elt;
      [apply Z.ltb_lt in Elt | apply Z.ltb_ge in Elt];
      destruct (Qle_bool (block_distance previous new_block) cutoff) eqn:Ed;
      cbn [andb];
      match goal with
      | |- context [merge_loop _ _ _ _ _ ?s] =>
          let H := fresh "H" in
          assert (H : (merged_count s <= target_merge_count)%Z) by (simpl; lia);
          destruct (IH new_block s H) as [IH1 IH2]; clear H
      end;
      rewrite IH1 in *; unfold count_le in *; simpl in *;
      rewrite ?length_app in *; simpl in *; split; lia.
Qed.

Lemma last_default {A : Type} (l : list A) :
  forall (a d d' : A), last (a :: l) d = last (a :: l) d'.
Proof.
  induction l as [|b l IH]; intros a d d'; [reflexivity|].
  change (last (b :: l) d = last (b :: l) d'). apply IH.
Qed.

(** The block accumulated last ends with the lines of the last block. *)
Lemma merge_loop_current (target_merge_count : Z) (cutoff : Q) (rest : list TextBlock) :
  forall (previous : TextBlock) (st : merge_state),
    lines (last rest (current_merged_block st)) <> [] ->
    lines (current_merged_block
             (merge_loop block_distance target_merge_count cutoff previous rest st)) <> [].
Proof.
  induction rest as [|new_block rest IH]; intros previous st H; [exact H|].
  cbn [merge_loop]. apply IH.
  destruct rest as [|b rest].
  - simpl in *.
    destruct ((merged_count st <? target_merge_count)%Z
              && Qle_bool (block_distance previous new_block) cutoff); simpl; [|exact H].
    intros C. apply app_eq_nil in C. destruct C as [_ C]. now apply H.
  - change (lines (last (b :: rest) (current_merged_block st)) <> []) in H.
    now rewrite (last_default rest b _ (current_merged_block st)).
Qed.

Lemma merge_final_state_spec (blocks : list TextBlock) (target_merge_count : Z) :
  (1 <= target_merge_count <= Py.len blocks - 1)%Z ->
  exists st : merge_state,
    merge_blocks_final_state block_distance blocks target_merge_count = Ok st
    /\ merged_count st = target_merge_count
    /\ (Py.len (merged_blocks st) = Py.len blocks - 1 - target_merge_count)%Z
    /\ (lines (last blocks empty_block) <> [] -> lines (current_merged_block st) <> []).
Proof.
  intros Ht. destruct blocks as [|first rest]; [unfold Py.len in Ht; simpl in Ht; lia|].
  unfold merge_blocks_final_state.
  assert (Hlen : Py.len (Py.sorted (distances block_distance (first :: rest))) = Py.len rest).
  { unfold Py.len. rewrite sorted_length. simpl. now rewrite distances_from_length. }
  assert (Hm : (Py.len (first :: rest) = Py.len rest + 1)%Z).
  { unfold Py.len. simpl. lia. }
  destruct (index_ok (Py.sorted (distances block_distance (first :: rest)))
              (target_merge_count - 1)) as (cutoff & Ec & En); [lia|].
  rewrite Ec. cbn [bind]. change (Py.index (first :: rest) 0) with (Ok first).
  cbn [bind Py.slice_from_1 tl].
  eexists. split; [reflexivity|].
  pose proof (merge_loop_counts target_merge_count cutoff rest first
                (mkMerge 0 [] first)) as H.
  cbn zeta in H. destruct H as [H1 H2]; [simpl; lia|].
  apply (count_le_nth_sorted _ (sorted_sorted _)) in En.
  unfold Py.sorted in En. rewrite (count_le_perm cutoff _ _ (sort_by_perm _ _)) in En.
  cbn [distances] in En. cbn [merged_count merged_blocks] in H1, H2.
  change (Py.len (@nil TextBlock)) with 0%Z in H2.
  repeat split.
  - rewrite H1. lia.
  - rewrite H1 in H2. rewrite Hm. lia.
  - intros Hl. apply merge_loop_current. simpl.
    destruct rest as [|b rest]; [exact Hl|].
    now rewrite (last_default rest b _ empty_block).
Qed.

(** C2, amended: for [m >= 2] blocks and a target between 1 and [m - 1] the
    loop of [merge_blocks_by_vertical_spacing] performs exactly the target
    number of merges and emits [m - 1 - target] blocks; the block
    accumulated last is added when it has a line, which it has when the last
    block given has one, and the list returned then has [m - target]
    blocks; else the list returned has [m - target - 1] blocks. *)
Theorem merge_performs_target_merges (blocks : list TextBlock) (target_merge_count : Z) :
  (2 <= Py.len blocks)%Z ->
  (1 <= target_merge_count <= Py.len blocks - 1)%Z ->
  exists (st : merge_state) (out : list TextBlock),
    merge_blocks_final_state block_distance blocks target_merge_count = Ok st
    /\ merged_count st = target_merge_count
    /\ merge_blocks_by_vertical_spacing block_distance blocks target_merge_count = Ok out
    /\ (lines (last blocks empty_block) <> [] -> lines (current_merged_block st) <> [])
    /\ (lines (current_merged_block st) <> [] ->
        Py.len out = (Py.len blocks - target_merge_count)%Z)
    /\ (lines (current_merged_block st) = [] ->
        Py.len out = (Py.len blocks - target_merge_count - 1)%Z).
Proof.
  intros _ Ht.
  destruct (merge_final_state_spec blocks target_merge_count Ht) as (st & E & Hc & Hl & Hn).
  unfold merge_blocks_by_vertical_spacing. rewrite E. cbn [bind].
  exists st. eexists. split; [reflexivity|]. split; [exact Hc|].
  split; [reflexivity|]. split; [exact Hn|].
  destruct (Py.len (lines (current_merged_block st)) =? 0)%Z eqn:E0.
  - apply len_zero_iff in E0. split; [congruence|]. intros _. lia.
  - split; [|intros C; rewrite C in E0; discriminate].
    intros _. unfold Py.len in *. rewrite length_app. simpl. lia.
Qed.

End MergeFacts.

(** Witness of [merge_performs_target_merges]: four blocks at the gaps
    5, 1 and 8 and one merge give three blocks. *)
Lemma merge_performs_target_merges_witness :
  exists (st : merge_state) (out : list TextBlock),
    merge_blocks_final_state vertical_gap
      [block_at 0 [10]; block_at 6 [10]; block_at 8 [10]; block_at 17 [10]]%Z 1 = Ok st
    /\ merged_count st = 1%Z
    /\ merge_blocks_by_vertical_spacing vertical_gap
         [block_at 0 [10]; block_at 6 [10]; block_at 8 [10]; block_at 17 [10]]%Z 1 = Ok out
    /\ (lines (last [block_at 0 [10]; block_at 6 [10]; block_at 8 [10]; block_at 17 [10]]%Z
                    empty_block) <> [] -> lines (current_merged_block st) <> [])
    /\ (lines (current_merged_block st) <> [] -> Py.len out = (4 - 1)%Z)
    /\ (lines (current_merged_block st) = [] -> Py.len out = (4 - 1 - 1)%Z).
Proof.
  apply (merge_performs_target_merges vertical_gap
           [block_at 0 [10]; block_at 6 [10]; block_at 8 [10]; block_at 17 [10]]%Z 1).
  - vm_compute. discriminate.
  - vm_compute. split; discriminate.
Defined.

(** C2 as stated fails: two blocks without lines and a target of 1 satisfy
    its conditions; the one merge happens, the merged block has no line and
    is not added, and the list returned is empty instead of holding one
    block. *)
Lemma merge_drops_empty_block :
  (2 <= Py.len [empty_block; empty_block])%Z
  /\ (1 <= 1 <= Py.len [empty_block; empty_block] - 1)%Z
  /\ merge_blocks_by_vertical_spacing vertical_gap [empty_block; empty_block] 1 = Ok []
  /\ Py.len (@nil TextBlock) <> (Py.len [empty_block; empty_block] - 1)%Z.
Proof.
  vm_compute. repeat split; discriminate.
Qed.

(** ** Counting the splits *)

Lemma count_eq_compat (v w : Q) (l : list Q) : v == w -> count_eq v l = count_eq w l.
Proof.
  intros E. unfold count_eq. induction l as [|y l IH]; [reflexivity|]. simpl.
  assert (Eb : Qeq_bool y v = Qeq_bool y w).
  { destruct (Qeq_bool y v) eqn:E1, (Qeq_bool y w) eqn:E2; try reflexivity.
    - apply Qeq_bool_iff in E1. apply Qeq_bool_neq in E2.
      exfalso. apply E2. now rewrite E1.
    - apply Qeq_bool_iff in E2. apply Qeq_bool_neq in E1.
      exfalso. apply E1. now rewrite E2. }
  rewrite Eb. destruct (Qeq_bool y w); simpl; congruence.
Qed.

Lemma count_eq_cons (v x : Q) (l : list Q) :
  count_eq v (x :: l) = ((if Qeq_bool x v then 1 else 0) + count_eq v l)%nat.
Proof. unfold count_eq. simpl. now destruct (Qeq_bool x v). Qed.

Lemma count_eq_app (v : Q) (l l' : list Q) :
  count_eq v (l ++ l') = (count_eq v l + count_eq v l')%nat.
Proof. unfold count_eq. now rewrite filter_app, length_app. Qed.

Lemma count_eq_not_contained (x : Q) (l : list Q) :
  Py.contains x l = false -> count_eq x l = 0%nat.
Proof.
  unfold Py.contains, count_eq. induction l as [|y l IH]; [reflexivity|]. simpl.
  rewrite orb_false_iff. intros [E1 E2]. rewrite Qeq_bool_comm, E1. now apply IH.
Qed.

Lemma remove_contained (x : Q) (l : list Q) :
  Py.contains x l = true ->
  (List.length (Py.remove x l) + 1 = List.length l)%nat
  /\ (count_eq x (Py.remove x l) + 1 = count_eq x l)%nat.
Proof.
  unfold Py.contains, count_eq. induction l as [|y l IH]; [discriminate|]. simpl.
  rewrite (Qeq_bool_comm x y). destruct (Qeq_bool y x) eqn:E; simpl.
  - intros _. split; lia.
  - intros H. rewrite E. destruct (IH H). simpl. split; lia.
Qed.

Lemma remove_other (x v : Q) (l : list Q) :
  ~ v == x -> count_eq v (Py.remove x l) = count_eq v l.
Proof.
  intros N. unfold count_eq. induction l as [|y l IH]; [reflexivity|]. simpl.
  destruct (Qeq_bool y x) eqn:E.
  - destruct (Qeq_bool y v) eqn:E'; [|reflexivity].
    apply Qeq_bool_iff in E, E'. exfalso. apply N. now rewrite <- E, <- E'.
  - simpl. destruct (Qeq_bool y v); simpl; congruence.
Qed.

Lemma included_nil (c : list Q) : included c [] -> c = [].
Proof.
  destruct c as [|y c]; [reflexivity|]. intros H. specialize (H y).
  unfold count_eq in H. simpl in H. rewrite Qeq_bool_refl in H. simpl in H. lia.
Qed.

(** One round of the walk: a line that is not the last of its block takes
    its length out of the cutoff values when it is among them. *)
Lemma included_step (x : Q) (c rest : list Q) :
  included c (x :: rest) ->
  included (if Py.contains x c then Py.remove x c else c) rest.
Proof.
  intros H v. specialize (H v). rewrite count_eq_cons in H.
  destruct (Qeq_bool x v) eqn:Exv.
  - apply Qeq_bool_iff in Exv.
    destruct (Py.contains x c) eqn:Ec.
    + destruct (remove_contained x c Ec) as [_ Hr].
      rewrite (count_eq_compat v x (Py.remove x c)) by now symmetry.
      rewrite (count_eq_compat v x c) in H by now symmetry. lia.
    + rewrite (count_eq_compat v x c) by now symmetry.
      rewrite (count_eq_not_contained x c Ec). lia.
  - apply Qeq_bool_neq in Exv. destruct (Py.contains x c); [|exact H].
    rewrite remove_other; [exact H|]. intros C. apply Exv. now symmetry.
Qed.

Lemma slice_to_minus_one {A : Type} (l : list A) : Py.slice_to l (-1) = removelast l.
Proof.
  unfold Py.slice_to, Py.len. simpl.
  rewrite removelast_firstn_len. f_equal. lia.
Qed.

Lemma split_lines_counts (count : nat) (ls : list TextLine) :
  forall (line_index : nat) (st : split_state) (later : list Q),
    (line_index + List.length ls = count)%nat ->
    included (cutoff_values st)
             (map (fun line => x1 (rect line)) (removelast ls) ++ later) ->
    let st' := split_lines count line_index ls st in
    included (cutoff_values st') later
    /\ (List.length (split_blocks st') + List.length (cutoff_values st')
        = List.length (split_blocks st) + List.length (cutoff_values st))%nat
    /\ (ls <> [] -> current_block_lines st' <> []).
Proof.
  induction ls as [|line ls IH]; intros line_index st later Hi Hc; cbn zeta.
  - simpl. split; [exact Hc|]. split; [reflexivity | congruence].
  - cbn [split_lines]. destruct ls as [|line' ls].
    + (* the last line of the block *)
      assert (E : (Z.of_nat line_index <? Z.of_nat count - 1)%Z = false).
      { apply Z.ltb_ge. simpl in Hi. lia. }
      rewrite E. simpl. split; [exact Hc|]. split; [reflexivity|].
      intros _ C. apply app_eq_nil in C. destruct C; discriminate.
    + assert (E : (Z.of_nat line_index <? Z.of_nat count - 1)%Z = true).
      { apply Z.ltb_lt. simpl in Hi. lia. }
      rewrite E. cbn [andb].
      change (removelast (line :: line' :: ls)) with (line :: removelast (line' :: ls)) in Hc.
      cbn [map app] in Hc. apply included_step in Hc.
      match goal with
      | |- context [split_lines _ _ _ ?s] =>
          destruct (IH (S line_index) s later) as (H1 & H2 & H3)
      end.
      * simpl in *. lia.
      * destruct (Py.contains (x1 (rect line)) (cutoff_values st)); exact Hc.
      * split; [exact H1|]. split; [|intros _; apply H3; discriminate].
        rewrite H2. destruct (Py.contains (x1 (rect line)) (cutoff_values st)) eqn:Ec;
          cbn [split_blocks cutoff_values]; [|reflexivity].
        destruct (remove_contained _ _ Ec) as [Hr _].
        rewrite length_app. simpl. lia.
Qed.

Lemma set_last_terminated_nonempty (bs : list TextBlock) :
  bs <> [] ->
  exists bs', set_last_terminated bs = Ok bs' /\ List.length bs' = List.length bs.
Proof.
  induction bs as [|b bs IH]; [congruence|]. intros _.
  destruct bs as [|b' bs].
  - eexists. split; reflexivity.
  - destruct IH as (bs' & E & Hl); [discriminate|].
    cbn [set_last_terminated] in *. rewrite E. eexists. split; [reflexivity|].
    simpl in *. lia.
Qed.

Lemma split_loop_counts (blocks : list TextBlock) :
  forall st : split_state,
    (forall b, In b blocks -> lines b <> []) ->
    current_block_lines st = [] ->
    included (cutoff_values st) (eligible_lengths blocks) ->
    exists st',
      split_loop blocks st = Ok st'
      /\ cutoff_values st' = []
      /\ (List.length (split_blocks st')
          = List.length (split_blocks st) + List.length (cutoff_values st)
            + List.length blocks)%nat.
Proof.
  induction blocks as [|block blocks IH]; intros st Hne Hcur Hinc.
  - exists st. split; [reflexivity|]. apply included_nil in Hinc.
    split; [exact Hinc|]. rewrite Hinc. simpl. lia.
  - cbn [split_loop].
    unfold eligible_lengths in Hinc. cbn [flat_map] in Hinc.
    rewrite slice_to_minus_one in Hinc.
    fold (eligible_lengths blocks) in Hinc.
    destruct (split_lines_counts (line_count block) (lines block) 0 st
                (eligible_lengths blocks)) as (H1 & H2 & H3);
      [reflexivity | exact Hinc |].
    set (st1 := split_lines (line_count block) 0 (lines block) st) in *.
    assert (Hc1 : current_block_lines st1 <> []) by (apply H3, Hne; now left).
    assert (E0 : (Py.len (current_block_lines st1) =? 0)%Z = false).
    { destruct (Py.len (current_block_lines st1) =? 0)%Z eqn:E0; [|reflexivity].
      apply len_zero_iff in E0. contradiction. }
    rewrite E0.
    set (bs2 := split_blocks st1 ++ [TextBlock_init (current_block_lines st1)]).
    assert (Hl2 : List.length bs2 = (List.length (split_blocks st1) + 1)%nat).
    { unfold bs2. rewrite length_app. reflexivity. }
    assert (Hn2 : bs2 <> []).
    { intros C. rewrite C in Hl2. simpl in Hl2. lia. }
    destruct (is_terminated_by_line block).
    + destruct (set_last_terminated_nonempty bs2 Hn2) as (bs3 & E3 & Hl3).
      cbn [split_blocks cutoff_values current_block_lines]. rewrite E3. cbn [bind].
      destruct (IH (mkSplit (cutoff_values st1) bs3 [])) as (st' & Es & Hc & Hl);
        [intros b Hb; apply Hne; now right | reflexivity | exact H1 |].
      exists st'. split; [exact Es|]. split; [exact Hc|].
      rewrite Hl. cbn [split_blocks cutoff_values]. simpl. lia.
    + cbn [bind].
      destruct (IH (mkSplit (cutoff_values st1) bs2 [])) as (st' & Es & Hc & Hl);
        [intros b Hb; apply Hne; now right | reflexivity | exact H1 |].
      exists st'. split; [exact Es|]. split; [exact Hc|].
      rewrite Hl. cbn [split_blocks cutoff_values]. simpl. lia.
Qed.

Lemma count_eq_firstn (v : Q) (k : nat) (l : list Q) :
  (count_eq v (firstn k l) <= count_eq v l)%nat.
Proof.
  rewrite <- (firstn_skipn k l) at 2. rewrite count_eq_app. lia.
Qed.

Lemma eligible_lengths_length (blocks : list TextBlock) :
  (forall b, In b blocks -> lines b <> []) ->
  (List.length (eligible_lengths blocks) + List.length blocks
   = total_line_count blocks)%nat.
Proof.
  induction blocks as [|block blocks IH]; intros Hne; [reflexivity|].
  unfold eligible_lengths, total_line_count in *. cbn [flat_map map list_sum].
  rewrite length_app, length_map, slice_to_minus_one.
  assert (Hb : lines block <> []) by (apply Hne; now left).
  assert (Hl : (List.length (removelast (lines block)) + 1 = line_count block)%nat).
  { unfold line_count. destruct (exists_last Hb) as (l' & a & ->).
    rewrite removelast_last, length_app. simpl. lia. }
  specialize (IH (fun b Hb' => Hne b (or_intror Hb'))). simpl. lia.
Qed.

Lemma one_block_per_line_length (blocks : list TextBlock) :
  List.length
    (flat_map (fun block => map (fun line => TextBlock_init [line]) (lines block)) blocks)
  = total_line_count blocks.
Proof.
  induction blocks as [|block blocks IH]; [reflexivity|].
  cbn [flat_map]. rewrite length_app, length_map, IH. reflexivity.
Qed.

(** The number of blocks after a split, for blocks that have a line each:
    one block per line when the lines that may end a block are at most the
    target, else the target more than before. *)
Lemma split_count (blocks : list TextBlock) (target_split_count : Z) :
  (forall b, In b blocks -> lines b <> []) ->
  (0 <= target_split_count)%Z ->
  exists out,
    split_blocks_by_textline_length blocks target_split_count = Ok out
    /\ Py.len out
       = if (Py.len (eligible_lengths blocks) <=? target_split_count)%Z
         then Z.of_nat (total_line_count blocks)
         else (Py.len blocks + target_split_count)%Z.
Proof.
  intros Hne Ht. unfold split_blocks_by_textline_length.
  assert (Hs : Py.len (Py.sorted (eligible_lengths blocks)) = Py.len (eligible_lengths blocks)).
  { unfold Py.len. now rewrite sorted_length. }
  rewrite Hs.
  destruct (Py.len (eligible_lengths blocks) <=? target_split_count)%Z eqn:E.
  - eexists. split; [reflexivity|]. unfold Py.len. now rewrite one_block_per_line_length.
  - apply Z.leb_gt in E.
    set (cutoffs := Py.slice_to (Py.sorted (eligible_lengths blocks)) target_split_count).
    assert (Hc : cutoffs = firstn (Z.to_nat target_split_count)
                                  (Py.sorted (eligible_lengths blocks))).
    { unfold cutoffs, Py.slice_to.
      destruct (target_split_count <? 0)%Z eqn:E'; [apply Z.ltb_lt in E'; lia | reflexivity]. }
    destruct (split_loop_counts blocks (mkSplit cutoffs [] [])) as (st' & Es & _ & Hl).
    + exact Hne.
    + reflexivity.
    + intros v. cbn [cutoff_values]. rewrite Hc.
      etransitivity; [apply count_eq_firstn|].
      unfold Py.sorted. now rewrite (count_eq_perm v _ _ (sort_by_perm _ _)).
    + rewrite Es. cbn [bind]. eexists. split; [reflexivity|].
      unfold Py.len in *. rewrite Hl. cbn [split_blocks cutoff_values].
      rewrite Hc, length_firstn, sorted_length. simpl. lia.
Qed.

(** ** [transform_groups] *)

(** The number of blocks after a merge, when the last block has a line. *)
Lemma merge_count (block_distance : TextBlock -> TextBlock -> Q)
    (blocks : list TextBlock) (target_merge_count : Z) :
  (1 <= target_merge_count <= Py.len blocks - 1)%Z ->
  lines (last blocks empty_block) <> [] ->
  exists out,
    merge_blocks_by_vertical_spacing block_distance blocks target_merge_count = Ok out
    /\ Py.len out = (Py.len blocks - target_merge_count)%Z.
Proof.
  intros Ht Hlast.
  destruct (merge_final_state_spec block_distance blocks target_merge_count Ht)
    as (st & E & Hc & Hl & Hn).
  unfold merge_blocks_by_vertical_spacing. rewrite E. cbn [bind].
  destruct (Py.len (lines (current_merged_block st)) =? 0)%Z eqn:E0.
  - apply len_zero_iff in E0. now apply Hn in Hlast.
  - eexists. split; [reflexivity|].
    unfold Py.len in *. rewrite length_app. simpl. lia.
Qed.

Section TransformFacts.

Variable Interval : Type.
Variable block_distance : TextBlock -> TextBlock -> Q.

Lemma zip_groups_equal_length (depth_intervals : list Interval) (blocks : list TextBlock) :
  Py.len blocks = Py.len depth_intervals ->
  Py.len (zip_groups depth_intervals blocks) = Py.len depth_intervals
  /\ map depth_interval (zip_groups depth_intervals blocks) = depth_intervals
  /\ map block (zip_groups depth_intervals blocks) = blocks.
Proof.
  unfold Py.len, zip_groups. intros H. apply Nat2Z.inj in H.
  revert blocks H. induction depth_intervals as [|i rest IH]; intros [|b bs] H;
    try discriminate; [repeat split|].
  simpl in H. injection H as H. destruct (IH bs H) as (H1 & H2 & H3).
  simpl. rewrite H2, H3. repeat split. simpl in *. lia.
Qed.

(** C1, amended: for [n > 1] depth intervals and blocks that have at least
    one line each and at least [n] lines in total, [transform_groups]
    returns exactly [n] pairs, the [k]-th pair holding the [k]-th
    interval. *)
Theorem transform_groups_count (depth_intervals : list Interval) (blocks : list TextBlock) :
  (1 < Py.len depth_intervals)%Z ->
  (forall b, In b blocks -> lines b <> []) ->
  (Py.len depth_intervals <= Z.of_nat (total_line_count blocks))%Z ->
  exists groups,
    transform_groups block_distance depth_intervals blocks = Ok groups
    /\ Py.len groups = Py.len depth_intervals
    /\ map depth_interval groups = depth_intervals.
Proof.
  intros Hn Hne Hl. unfold transform_groups.
  destruct (Py.len depth_intervals =? 0)%Z eqn:E0; [apply Z.eqb_eq in E0; lia|].
  destruct (Py.len depth_intervals =? 1)%Z eqn:E1; [apply Z.eqb_eq in E1; lia|].
  clear E0 E1.
  destruct (Py.len blocks <? Py.len depth_intervals)%Z eqn:Elt.
  - (* fewer blocks than intervals: split *)
    apply Z.ltb_lt in Elt.
    destruct (split_count blocks (Py.len depth_intervals - Py.len blocks) Hne)
      as (out & Es & Ho); [lia|].
    rewrite Es. cbn [bind].
    pose proof (eligible_lengths_length blocks Hne) as He.
    assert (Hout : Py.len out = Py.len depth_intervals).
    { unfold Py.len in *.
      destruct (Z.of_nat (List.length (eligible_lengths blocks))
                <=? Z.of_nat (List.length depth_intervals)
                    - Z.of_nat (List.length blocks))%Z eqn:E;
        [apply Z.leb_le in E | apply Z.leb_gt in E]; lia. }
    assert (Eg : (Py.len out >? Py.len depth_intervals)%Z = false).
    { rewrite Hout, Z.gtb_ltb. apply Z.ltb_irrefl. }
    rewrite Eg. cbn [bind]. eexists. split; [reflexivity|].
    destruct (zip_groups_equal_length depth_intervals out Hout) as (H1 & H2 & _).
    now split.
  - apply Z.ltb_ge in Elt. cbn [bind].
    destruct (Py.len blocks >? Py.len depth_intervals)%Z eqn:Egt.
    + (* more blocks than intervals: merge *)
      rewrite Z.gtb_ltb in Egt. apply Z.ltb_lt in Egt.
      destruct (merge_count block_distance blocks
                  (Py.len blocks - Py.len depth_intervals)) as (out & Em & Ho).
      * lia.
      * destruct blocks as [|b blocks]; [unfold Py.len in Egt; simpl in Egt; lia|].
        apply Hne.
        assert (Hnil : b :: blocks <> []) by discriminate.
        destruct (exists_last Hnil) as (l' & a & E).
        rewrite E, last_last. apply in_or_app. right. now left.
      * rewrite Em. cbn [bind]. eexists. split; [reflexivity|].
        assert (Hout : Py.len out = Py.len depth_intervals) by lia.
        destruct (zip_groups_equal_length depth_intervals out Hout) as (H1 & H2 & _).
        now split.
    + rewrite Z.gtb_ltb in Egt. apply Z.ltb_ge in Egt.
      eexists. split; [reflexivity|].
      assert (Hout : Py.len blocks = Py.len depth_intervals) by lia.
      destruct (zip_groups_equal_length depth_intervals blocks Hout) as (H1 & H2 & _).
      now split.
Qed.

End TransformFacts.

(** Witness of [transform_groups_count]: three intervals and one block of
    five lines. *)
Lemma transform_groups_count_witness :
  exists groups,
    transform_groups vertical_gap [1; 2; 3]%nat [block_at 0 [10; 20; 30; 40; 50]%Z]
    = Ok groups
    /\ Py.len groups = Py.len [1; 2; 3]%nat
    /\ map depth_interval groups = [1; 2; 3]%nat.
Proof.
  apply (transform_groups_count nat vertical_gap [1; 2; 3]%nat
           [block_at 0 [10; 20; 30; 40; 50]%Z]).
  - vm_compute. reflexivity.
  - intros b [<-|[]]. vm_compute. discriminate.
  - vm_compute. discriminate.
Defined.

(** C1 as stated fails: three intervals and one block of two lines give two
    pairs, the block cannot be split further; two intervals and no block
    give no pair. *)
Lemma transform_groups_too_few_lines :
  (1 < Py.len [1; 2; 3]%nat)%Z
  /\ (exists groups,
        transform_groups vertical_gap [1; 2; 3]%nat [block_at 0 [10; 20]%Z] = Ok groups
        /\ Py.len groups = 2%Z
        /\ Py.len groups <> Py.len [1; 2; 3]%nat)
  /\ transform_groups vertical_gap [1; 2]%nat [] = Ok [].
Proof.
  split; [vm_compute; reflexivity|]. split; [|vm_compute; reflexivity].
  eexists. split; [vm_compute; reflexivity|]. split; [reflexivity | discriminate].
Qed.

(** Witness of [split_preserves_line_count]: one block of five lines and
    two splits. *)
Lemma split_preserves_line_count_witness :
  match split_blocks_by_textline_length [block_at 0 [10; 20; 30; 40; 50]%Z] 2 with
  | Ok out => total_line_count out = total_line_count [block_at 0 [10; 20; 30; 40; 50]%Z]
  | Raise e =>
      e = IndexError
      /\ exists b, In b [block_at 0 [10; 20; 30; 40; 50]%Z]
                   /\ lines b = [] /\ is_terminated_by_line b = true
  end.
Proof.
  apply (split_preserves_line_count [block_at 0 [10; 20; 30; 40; 50]%Z] 2).
  - discriminate.
  - vm_compute. discriminate.
Defined.

(** The examples of the reconciler: a split after the two shortest lines,
    a merge at the smallest gap, and a block without lines that carries the
    flag. *)
Example split_example :
  option_map (map (fun b => map (fun l => x1 (rect l)) (lines b)))
    (match split_blocks_by_textline_length [block_at 0 [10; 20; 30; 40; 50]%Z] 2 with
     | Ok out => Some out
     | Raise _ => None
     end)
  = Some [[inject_Z 10]; [inject_Z 20]; [inject_Z 30; inject_Z 40; inject_Z 50]].
Proof. vm_compute. reflexivity. Qed.

Example merge_example :
  option_map (map line_count)
    (match merge_blocks_by_vertical_spacing vertical_gap
             [block_at 0 [10]; block_at 6 [10]; block_at 8 [10]; block_at 17 [10]]%Z 1 with
     | Ok out => Some out
     | Raise _ => None
     end)
  = Some [1; 2; 1]%nat.
Proof. vm_compute. reflexivity. Qed.

Example split_raises_on_empty_terminated_block :
  split_blocks_by_textline_length
    [mkTextBlock [] true; block_at 0 [10; 20; 30]%Z] 1 = Raise IndexError.
Proof. vm_compute. reflexivity. Qed.

(** * Further properties of the reconciler *)

(** ** Merging keeps the lines *)

Section MergeLines.

Variable block_distance : TextBlock -> TextBlock -> Q.

Lemma merge_loop_lines (target_merge_count : Z) (cutoff : Q) (rest : list TextBlock) :
  forall (previous : TextBlock) (st : merge_state),
    let st' := merge_loop block_distance target_merge_count cutoff previous rest st in
    flat_map lines (merged_blocks st') ++ lines (current_merged_block st')
    = flat_map lines (merged_blocks st) ++ lines (current_merged_block st)
      ++ flat_map lines rest.
Proof.
  induction rest as [|new_block rest IH]; intros previous st; cbn zeta.
  - simpl. now rewrite app_nil_r.
  - cbn [merge_loop flat_map]. rewrite IH.
    destruct ((merged_count st <? target_merge_count)%Z
              && Qle_bool (block_distance previous new_block) cutoff); simpl.
    + now rewrite <- !app_assoc.
    + rewrite flat_map_app. simpl. now rewrite app_nil_r, <- !app_assoc.
Qed.

Lemma index_raises_index_error {A : Type} (l : list A) (i : Z) (e : exception) :
  Py.index l i = Raise e -> e = IndexError.
Proof.
  unfold Py.index.
  destruct ((if (i <? 0)%Z then (Py.len l + i)%Z else i) <? 0)%Z; [congruence|].
  destruct (nth_error l _); congruence.
Qed.

Lemma index_in_range {A : Type} (l : list A) (i : Z) :
  is_ok (Py.index l i) = true <-> (- Py.len l <= i < Py.len l)%Z.
Proof.
  unfold Py.index, Py.len.
  destruct (i <? 0)%Z eqn:Ei; [apply Z.ltb_lt in Ei | apply Z.ltb_ge in Ei].
  - destruct (Z.of_nat (List.length l) + i <? 0)%Z eqn:Ej;
      [apply Z.ltb_lt in Ej | apply Z.ltb_ge in Ej].
    + simpl. split; [discriminate | lia].
    + destruct (nth_error l (Z.to_nat (Z.of_nat (List.length l) + i))) eqn:En; simpl.
      * split; [lia | reflexivity].
      * apply nth_error_None in En. lia.
  - destruct (i <? 0)%Z eqn:Ej; [apply Z.ltb_lt in Ej; lia|].
    destruct (nth_error l (Z.to_nat i)) eqn:En; simpl.
    + assert (H : nth_error l (Z.to_nat i) <> None) by congruence.
      apply nth_error_Some in H. split; [lia | reflexivity].
    + apply nth_error_None in En. split; [discriminate | lia].
Qed.

Lemma merge_lines (blocks : list TextBlock) (target_merge_count : Z) :
  match merge_blocks_by_vertical_spacing block_distance blocks target_merge_count with
  | Ok out => flat_map lines out = flat_map lines blocks
  | Raise e => e = IndexError
  end.
Proof.
  unfold merge_blocks_by_vertical_spacing, merge_blocks_final_state.
  destruct (Py.index (Py.sorted (distances block_distance blocks))
              (target_merge_count - 1)) as [cutoff|e] eqn:Ec; cbn [bind];
    [|now apply index_raises_index_error in Ec].
  destruct blocks as [|first rest]; [reflexivity|].
  change (Py.index (first :: rest) 0) with (Ok first). cbn [bind Py.slice_from_1 tl].
  pose proof (merge_loop_lines target_merge_count cutoff rest first
                (mkMerge 0 [] first)) as H.
  cbn zeta in H. cbn [merged_blocks current_merged_block flat_map app] in H.
  set (st := merge_loop _ _ _ _ _ _) in *.
  change (flat_map lines (first :: rest)) with (lines first ++ flat_map lines rest).
  rewrite <- H.
  destruct (Py.len (lines (current_merged_block st)) =? 0)%Z eqn:E0.
  - apply len_zero_iff in E0. rewrite E0. now rewrite app_nil_r.
  - rewrite flat_map_app. simpl. now rewrite app_nil_r.
Qed.

Lemma total_line_count_flat (bs : list TextBlock) :
  total_line_count bs = List.length (flat_map lines bs).
Proof.
  induction bs as [|b bs IH]; [reflexivity|].
  unfold total_line_count in *. simpl. rewrite length_app, <- IH. reflexivity.
Qed.

(** X1: whenever [merge_blocks_by_vertical_spacing] returns, the blocks it
    returns hold the lines of the blocks given, in the same order, so that
    the number of lines is kept: a merge neither loses nor reorders a line.
    The only exception of the call is [IndexError]. *)
Theorem merge_preserves_lines (blocks : list TextBlock) (target_merge_count : Z) :
  match merge_blocks_by_vertical_spacing block_distance blocks target_merge_count with
  | Ok out =>
      flat_map lines out = flat_map lines blocks
      /\ total_line_count out = total_line_count blocks
  | Raise e => e = IndexError
  end.
Proof.
  pose proof (merge_lines blocks target_merge_count) as H.
  destruct (merge_blocks_by_vertical_spacing block_distance blocks target_merge_count)
    as [out|e]; [|exact H].
  split; [exact H|]. now rewrite !total_line_count_flat, H.
Qed.

Lemma merge_length_le (blocks out : list TextBlock) (target_merge_count : Z) :
  (1 <= target_merge_count <= Py.len blocks - 1)%Z ->
  merge_blocks_by_vertical_spacing block_distance blocks target_merge_count = Ok out ->
  (Py.len out <= Py.len blocks - target_merge_count)%Z.
Proof.
  intros Ht. unfold merge_blocks_by_vertical_spacing.
  destruct (merge_final_state_spec block_distance blocks target_merge_count Ht)
    as (st & E & _ & Hl & _).
  rewrite E. cbn [bind]. intros H. injection H as <-.
  destruct (Py.len (lines (current_merged_block st)) =? 0)%Z; [lia|].
  unfold Py.len in *. rewrite length_app. simpl. lia.
Qed.

(** X2: [merge_blocks_by_vertical_spacing] on [m] blocks returns exactly
    when the target lies between [2 - m] and [m - 1]; outside this range,
    and so for every target when there are fewer than two blocks, the call
    raises. *)
Theorem merge_returns_iff (blocks : list TextBlock) (target_merge_count : Z) :
  is_ok (merge_blocks_by_vertical_spacing block_distance blocks target_merge_count) = true
  <-> (2 - Py.len blocks <= target_merge_count <= Py.len blocks - 1)%Z.
Proof.
  unfold merge_blocks_by_vertical_spacing, merge_blocks_final_state.
  pose proof (index_in_range (Py.sorted (distances block_distance blocks))
                (target_merge_count - 1)) as Hi.
  assert (Hlen : Py.len (Py.sorted (distances block_distance blocks))
                 = Z.max 0 (Py.len blocks - 1)).
  { unfold Py.len. rewrite sorted_length. destruct blocks as [|first rest]; [reflexivity|].
    simpl distances. rewrite distances_from_length. simpl List.length. lia. }
  rewrite Hlen in Hi.
  destruct (Py.index (Py.sorted (distances block_distance blocks))
              (target_merge_count - 1)) as [cutoff|e]; cbn [bind].
  - destruct blocks as [|first rest].
    + cbn. destruct Hi as [Hi _]. specialize (Hi eq_refl). unfold Py.len in *. simpl in *. lia.
    + change (Py.index (first :: rest) 0) with (Ok first). cbn [bind is_ok].
      destruct Hi as [Hi _]. specialize (Hi eq_refl). split; [intros _; lia | reflexivity].
  - cbn [is_ok]. split; [discriminate|]. intros H. destruct Hi as [_ Hi].
    cbn [is_ok] in Hi. apply Hi. lia.
Qed.

End MergeLines.

Section MergeNoTarget.

Variable block_distance : TextBlock -> TextBlock -> Q.

Lemma merge_loop_no_merge (target_merge_count : Z) (cutoff : Q) (rest : list TextBlock) :
  forall (previous : TextBlock) (st : merge_state),
    (target_merge_count <= merged_count st)%Z ->
    let st' := merge_loop block_distance target_merge_count cutoff previous rest st in
    merged_blocks st' ++ [current_merged_block st']
    = merged_blocks st ++ current_merged_block st :: rest
    /\ current_merged_block st' = last rest (current_merged_block st).
Proof.
  induction rest as [|new_block rest IH]; intros previous st Hle; cbn zeta.
  - split; reflexivity.
  - cbn [merge_loop].
    assert (E : (merged_count st <? target_merge_count)%Z = false) by (apply Z.ltb_ge; lia).
    rewrite E. cbn [andb].
    destruct (IH new_block
                (mkMerge (merged_count st) (merged_blocks st ++ [current_merged_block st])
                         new_block) Hle) as [H1 H2].
    cbn [merged_blocks current_merged_block] in H1, H2. split.
    + rewrite H1, <- app_assoc. reflexivity.
    + rewrite H2. destruct rest as [|b rest]; [reflexivity|].
      change (last (b :: rest) new_block = last (b :: rest) (current_merged_block st)).
      apply last_default.
Qed.

(** X3: a target of 0, or a negative target, merges nothing: when the call
    returns, it returns the blocks as given, without the last block when
    that block has no line. *)
Theorem merge_without_target (blocks : list TextBlock) (target_merge_count : Z) :
  (target_merge_count <= 0)%Z ->
  match merge_blocks_by_vertical_spacing block_distance blocks target_merge_count with
  | Ok out =>
      out = if (Py.len (lines (last blocks empty_block)) =? 0)%Z
            then removelast blocks else blocks
  | Raise e => e = IndexError
  end.
Proof.
  intros Ht. unfold merge_blocks_by_vertical_spacing, merge_blocks_final_state.
  destruct (Py.index (Py.sorted (distances block_distance blocks))
              (target_merge_count - 1)) as [cutoff|e] eqn:Ec; cbn [bind];
    [|now apply index_raises_index_error in Ec].
  destruct blocks as [|first rest]; [reflexivity|].
  change (Py.index (first :: rest) 0) with (Ok first). cbn [bind Py.slice_from_1 tl].
  destruct (merge_loop_no_merge target_merge_count cutoff rest first
              (mkMerge 0 [] first) Ht) as [H1 H2].
  cbn [merged_blocks current_merged_block app] in H1, H2.
  set (st := merge_loop _ _ _ _ _ _) in *.
  assert (El : last (first :: rest) empty_block = current_merged_block st).
  { rewrite H2. destruct rest as [|b rest]; [reflexivity|].
    change (last (b :: rest) empty_block = last (b :: rest) first). apply last_default. }
  rewrite El.
  destruct (Py.len (lines (current_merged_block st)) =? 0)%Z; [|exact H1].
  rewrite <- H1. now rewrite removelast_last.
Qed.

End MergeNoTarget.

(** Witness of [merge_without_target]: three blocks and the target 0. *)
Lemma merge_without_target_witness :
  merge_blocks_by_vertical_spacing vertical_gap
    [block_at 0 [10]; block_at 6 [10]; block_at 8 [10]]%Z 0
  = Ok [block_at 0 [10]; block_at 6 [10]; block_at 8 [10]]%Z.
Proof.
  pose proof (merge_without_target vertical_gap
                [block_at 0 [10]; block_at 6 [10]; block_at 8 [10]]%Z 0) as H.
  destruct (merge_blocks_by_vertical_spacing vertical_gap
              [block_at 0 [10]; block_at 6 [10]; block_at 8 [10]]%Z 0) as [out|e] eqn:E.
  - rewrite H; [reflexivity | vm_compute; discriminate].
  - vm_compute in E. discriminate.
Defined.

(** ** Splitting keeps the lines in order and returns no empty block *)

Lemma split_lines_sequence (count : nat) (ls : list TextLine) :
  forall (line_index : nat) (st : split_state),
    let st' := split_lines count line_index ls st in
    flat_map lines (split_blocks st') ++ current_block_lines st'
    = flat_map lines (split_blocks st) ++ current_block_lines st ++ ls.
Proof.
  induction ls as [|line ls IH]; intros line_index st; cbn zeta.
  - simpl. now rewrite app_nil_r.
  - cbn [split_lines]. rewrite IH.
    destruct ((Z.of_nat line_index <? Z.of_nat count - 1)%Z
              && Py.contains (x1 (rect line)) (cutoff_values st));
      cbn [split_blocks current_block_lines].
    + rewrite flat_map_app. simpl. now rewrite app_nil_r, <- !app_assoc.
    + now rewrite <- !app_assoc.
Qed.

Lemma split_lines_nonempty (count : nat) (ls : list TextLine) :
  forall (line_index : nat) (st : split_state),
    Forall (fun b => lines b <> []) (split_blocks st) ->
    Forall (fun b => lines b <> [])
           (split_blocks (split_lines count line_index ls st)).
Proof.
  induction ls as [|line ls IH]; intros line_index st Hf; [exact Hf|].
  cbn [split_lines]. apply IH.
  destruct ((Z.of_nat line_index <? Z.of_nat count - 1)%Z
            && Py.contains (x1 (rect line)) (cutoff_values st));
    cbn [split_blocks]; [|exact Hf].
  apply Forall_app. split; [exact Hf|]. constructor; [|constructor].
  simpl. intros C. apply app_eq_nil in C. destruct C; discriminate.
Qed.

Lemma set_last_terminated_lines (bs bs' : list TextBlock) :
  set_last_terminated bs = Ok bs' -> map lines bs' = map lines bs.
Proof.
  revert bs'. induction bs as [|b bs IH]; intros bs'; [discriminate|].
  destruct bs as [|b' bs].
  - simpl. intros H. injection H as <-. reflexivity.
  - cbn [set_last_terminated]. intros H. apply bind_ok in H.
    destruct H as (bs'' & E & H). injection H as <-.
    cbn [map]. f_equal. now apply IH.
Qed.

Lemma flat_map_lines_map (bs : list TextBlock) :
  flat_map lines bs = List.concat (map lines bs).
Proof. apply flat_map_concat_map. Qed.

Lemma split_loop_sequence (blocks : list TextBlock) :
  forall (st st' : split_state),
    current_block_lines st = [] ->
    Forall (fun b => lines b <> []) (split_blocks st) ->
    split_loop blocks st = Ok st' ->
    flat_map lines (split_blocks st')
    = flat_map lines (split_blocks st) ++ flat_map lines blocks
    /\ Forall (fun b => lines b <> []) (split_blocks st').
Proof.
  induction blocks as [|block blocks IH]; intros st st' Hc Hf.
  - simpl. intros H. injection H as <-. rewrite app_nil_r. now split.
  - cbn [split_loop]. intros H.
    pose proof (split_lines_sequence (line_count block) (lines block) 0 st) as Hs.
    pose proof (split_lines_nonempty (line_count block) (lines block) 0 st Hf) as Hn.
    cbn zeta in Hs. rewrite Hc in Hs. cbn [app] in Hs.
    set (st1 := split_lines (line_count block) 0 (lines block) st) in *.
    set (st2 := if (Py.len (current_block_lines st1) =? 0)%Z then st1
                else mkSplit (cutoff_values st1)
                       (split_blocks st1 ++ [TextBlock_init (current_block_lines st1)]) [])
      in *.
    assert (H2 : current_block_lines st2 = []
                 /\ flat_map lines (split_blocks st2)
                    = flat_map lines (split_blocks st) ++ lines block
                 /\ Forall (fun b => lines b <> []) (split_blocks st2)).
    { subst st2. destruct (Py.len (current_block_lines st1) =? 0)%Z eqn:E0.
      - apply len_zero_iff in E0. rewrite E0, app_nil_r in Hs. now repeat split.
      - cbn [current_block_lines split_blocks]. split; [reflexivity|]. split.
        + rewrite flat_map_app. simpl. now rewrite app_nil_r.
        + apply Forall_app. split; [exact Hn|]. constructor; [|constructor].
          simpl. intros C. rewrite C in E0. discriminate. }
    destruct H2 as (Hc2 & Hl2 & Hf2).
    apply bind_ok in H. destruct H as (st3 & E3 & H).
    assert (H3 : current_block_lines st3 = []
                 /\ map lines (split_blocks st3) = map lines (split_blocks st2)).
    { destruct (is_terminated_by_line block).
      - apply bind_ok in E3. destruct E3 as (bs & Eb & E3). injection E3 as <-.
        cbn [current_block_lines split_blocks]. split; [exact Hc2|].
        now apply set_last_terminated_lines.
      - injection E3 as <-. now split. }
    destruct H3 as [Hc3 Hm3].
    assert (Hf3 : Forall (fun b => lines b <> []) (split_blocks st3)).
    { rewrite Forall_forall in *. intros b Hb.
      apply (in_map lines) in Hb. rewrite Hm3 in Hb. apply in_map_iff in Hb.
      destruct Hb as (b' & Eb & Hb'). rewrite <- Eb. now apply Hf2. }
    destruct (IH st3 st' Hc3 Hf3 H) as [H4 H5]. split; [|exact H5].
    rewrite H4. rewrite (flat_map_lines_map (split_blocks st3)), Hm3,
      <- flat_map_lines_map, Hl2. cbn [flat_map]. now rewrite <- app_assoc.
Qed.

Lemma one_block_per_line_sequence (blocks : list TextBlock) :
  let out :=
    flat_map (fun block => map (fun line => TextBlock_init [line]) (lines block)) blocks in
  flat_map lines out = flat_map lines blocks
  /\ Forall (fun b => lines b <> []) out
  /\ Forall (fun b => is_terminated_by_line b = false) out.
Proof.
  induction blocks as [|block blocks IH]; cbn zeta; [repeat split; constructor|].
  destruct IH as (H1 & H2 & H3). cbn [flat_map].
  rewrite flat_map_app, H1.
  assert (H : flat_map lines (map (fun line => TextBlock_init [line]) (lines block))
              = lines block
              /\ Forall (fun b => lines b <> [])
                        (map (fun line => TextBlock_init [line]) (lines block))
              /\ Forall (fun b => is_terminated_by_line b = false)
                        (map (fun line => TextBlock_init [line]) (lines block))).
  { induction (lines block) as [|l ls IHl]; [repeat split; constructor|].
    destruct IHl as (A & B & C). cbn [map flat_map]. rewrite A.
    repeat split; constructor; try assumption; simpl; congruence. }
  destruct H as (A & B & C). rewrite A.
  repeat split; try reflexivity; apply Forall_app; now split.
Qed.

Lemma split_sequence (blocks : list TextBlock) (target_split_count : Z) :
  match split_blocks_by_textline_length blocks target_split_count with
  | Ok out => flat_map lines out = flat_map lines blocks
  | Raise e => e = IndexError
  end.
Proof.
  unfold split_blocks_by_textline_length.
  destruct (Py.len (Py.sorted (eligible_lengths blocks)) <=? target_split_count)%Z.
  - now destruct (one_block_per_line_sequence blocks) as (H1 & _ & _).
  - set (st := mkSplit _ [] []).
    pose proof (split_loop_total blocks st eq_refl) as Ht.
    pose proof (split_loop_sequence blocks st) as Hs.
    destruct (split_loop blocks st) as [st'|e]; cbn [bind]; [|tauto].
    apply (Hs st' eq_refl); [constructor | reflexivity].
Qed.

(** X4: whenever [split_blocks_by_textline_length] returns, the blocks it
    returns hold the lines of the blocks given, in the same order, and none
    of the blocks returned is empty; the only exception of the call is
    [IndexError]. *)
Theorem split_preserves_sequence (blocks : list TextBlock) (target_split_count : Z) :
  match split_blocks_by_textline_length blocks target_split_count with
  | Ok out =>
      flat_map lines out = flat_map lines blocks
      /\ Forall (fun b => lines b <> []) out
  | Raise e => e = IndexError
  end.
Proof.
  unfold split_blocks_by_textline_length.
  destruct (Py.len (Py.sorted (eligible_lengths blocks)) <=? target_split_count)%Z.
  - destruct (one_block_per_line_sequence blocks) as (H1 & H2 & _). now split.
  - set (st := mkSplit _ [] []).
    pose proof (split_loop_total blocks st eq_refl) as Ht.
    pose proof (split_loop_sequence blocks st) as Hs.
    destruct (split_loop blocks st) as [st'|e]; cbn [bind].
    + apply (Hs st' eq_refl); [constructor | reflexivity].
    + tauto.
Qed.

(** ** The number of blocks after a split, and the flags *)

(** X5: for blocks that have a line each and a target that is not
    negative, the split returns, and the number of blocks it returns is the
    smaller of the number of lines and [m + target]: the target is reached
    unless the lines run out. *)
Theorem split_block_count (blocks : list TextBlock) (target_split_count : Z) :
  (forall b, In b blocks -> lines b <> []) ->
  (0 <= target_split_count)%Z ->
  exists out,
    split_blocks_by_textline_length blocks target_split_count = Ok out
    /\ Py.len out
       = Z.min (Z.of_nat (total_line_count blocks)) (Py.len blocks + target_split_count).
Proof.
  intros Hne Ht. destruct (split_count blocks target_split_count Hne Ht) as (out & E & H).
  exists out. split; [exact E|]. rewrite H.
  pose proof (eligible_lengths_length blocks Hne) as He. unfold Py.len in *.
  destruct (Z.of_nat (List.length (eligible_lengths blocks)) <=? target_split_count)%Z
    eqn:El; [apply Z.leb_le in El | apply Z.leb_gt in El]; lia.
Qed.

(** Witness of [split_block_count]: one block of five lines and two splits
    give three blocks. *)
Lemma split_block_count_witness :
  exists out,
    split_blocks_by_textline_length [block_at 0 [10; 20; 30; 40; 50]%Z] 2 = Ok out
    /\ Py.len out
       = Z.min (Z.of_nat (total_line_count [block_at 0 [10; 20; 30; 40; 50]%Z]))
               (Py.len [block_at 0 [10; 20; 30; 40; 50]%Z] + 2).
Proof.
  apply (split_block_count [block_at 0 [10; 20; 30; 40; 50]%Z] 2).
  - intros b [<-|[]]. vm_compute. discriminate.
  - vm_compute. discriminate.
Defined.

Lemma set_last_terminated_snoc (bs : list TextBlock) (b : TextBlock) :
  set_last_terminated (bs ++ [b]) = Ok (bs ++ [mkTextBlock (lines b) true]).
Proof.
  induction bs as [|a bs IH]; [reflexivity|].
  change ((a :: bs) ++ [b]) with (a :: (bs ++ [b])).
  destruct (bs ++ [b]) as [|c l] eqn:E; [destruct bs; discriminate|].
  change (set_last_terminated (a :: c :: l))
    with (bs'' <- set_last_terminated (c :: l) ;; Ok (a :: bs'')).
  rewrite IH. reflexivity.
Qed.

Lemma flagged_app (bs cs : list TextBlock) :
  List.length (filter is_terminated_by_line (bs ++ cs))
  = (List.length (filter is_terminated_by_line bs)
     + List.length (filter is_terminated_by_line cs))%nat.
Proof. now rewrite filter_app, length_app. Qed.

Lemma split_lines_flags (count : nat) (ls : list TextLine) :
  forall (line_index : nat) (st : split_state),
    List.length (filter is_terminated_by_line
                        (split_blocks (split_lines count line_index ls st)))
    = List.length (filter is_terminated_by_line (split_blocks st)).
Proof.
  induction ls as [|line ls IH]; intros line_index st; [reflexivity|].
  cbn [split_lines]. rewrite IH.
  destruct ((Z.of_nat line_index <? Z.of_nat count - 1)%Z
            && Py.contains (x1 (rect line)) (cutoff_values st));
    cbn [split_blocks]; [|reflexivity].
  rewrite flagged_app. simpl. lia.
Qed.

Lemma split_loop_flags (blocks : list TextBlock) :
  forall (st st' : split_state),
    (forall b, In b blocks -> lines b <> []) ->
    current_block_lines st = [] ->
    split_loop blocks st = Ok st' ->
    List.length (filter is_terminated_by_line (split_blocks st'))
    = (List.length (filter is_terminated_by_line (split_blocks st))
       + List.length (filter is_terminated_by_line blocks))%nat.
Proof.
  induction blocks as [|block blocks IH]; intros st st' Hne Hc.
  - simpl. intros H. injection H as <-. lia.
  - cbn [split_loop]. intros H.
    pose proof (split_lines_flags (line_count block) (lines block) 0 st) as Hf.
    pose proof (split_lines_sequence (line_count block) (lines block) 0 st) as Hs.
    cbn zeta in Hs. rewrite Hc in Hs. cbn [app] in Hs.
    set (st1 := split_lines (line_count block) 0 (lines block) st) in *.
    assert (Hb : lines block <> []) by (apply Hne; now left).
    assert (Hc1 : current_block_lines st1 <> []).
    { destruct (split_lines_counts (line_count block) (lines block) 0 st
                  (map (fun line => x1 (rect line)) (removelast (lines block))
                   ++ cutoff_values st)) as (_ & _ & H3); [reflexivity| |now apply H3].
      intros v. rewrite !count_eq_app. lia. }
    assert (E0 : (Py.len (current_block_lines st1) =? 0)%Z = false).
    { destruct (Py.len (current_block_lines st1) =? 0)%Z eqn:E0; [|reflexivity].
      apply len_zero_iff in E0. contradiction. }
    rewrite E0 in H. cbn [split_blocks cutoff_values current_block_lines] in H.
    destruct (is_terminated_by_line block) eqn:Et.
    + rewrite set_last_terminated_snoc in H. cbn [bind] in H.
      apply IH in H; [|intros b Hb'; apply Hne; now right|reflexivity]. rewrite H.
      cbn [split_blocks filter]. rewrite Et, flagged_app, Hf. simpl. lia.
    + cbn [bind] in H.
      apply IH in H; [|intros b Hb'; apply Hne; now right|reflexivity]. rewrite H.
      cbn [split_blocks filter]. rewrite Et, flagged_app, Hf. simpl. lia.
Qed.

(** X6: for blocks that have a line each, the walk over the cutoff values
    returns as many blocks with the flag [is_terminated_by_line] as it was
    given; the branch of one block per line, taken when the lines that may
    end a block are at most the target, returns no block with the flag. *)
Theorem split_flags (blocks : list TextBlock) (target_split_count : Z) :
  (forall b, In b blocks -> lines b <> []) ->
  (0 <= target_split_count)%Z ->
  exists out,
    split_blocks_by_textline_length blocks target_split_count = Ok out
    /\ List.length (filter is_terminated_by_line out)
       = if (Py.len (eligible_lengths blocks) <=? target_split_count)%Z
         then 0%nat
         else List.length (filter is_terminated_by_line blocks).
Proof.
  intros Hne Ht. destruct (split_count blocks target_split_count Hne Ht) as (out & E & _).
  exists out. split; [exact E|].
  unfold split_blocks_by_textline_length in E.
  assert (Hs : Py.len (Py.sorted (eligible_lengths blocks)) = Py.len (eligible_lengths blocks)).
  { unfold Py.len. now rewrite sorted_length. }
  rewrite Hs in E.
  destruct (Py.len (eligible_lengths blocks) <=? target_split_count)%Z.
  - injection E as <-. destruct (one_block_per_line_sequence blocks) as (_ & _ & H).
    cbn zeta in H. induction H as [|b bs Hb _ IH]; [reflexivity|].
    simpl. now rewrite Hb.
  - apply bind_ok in E. destruct E as (st' & Es & E). injection E as <-.
    apply split_loop_flags in Es; [|exact Hne|reflexivity]. exact Es.
Qed.

(** Witness of [split_flags]: a flagged block of three lines and a block of
    two lines, with one split. *)
Lemma split_flags_witness :
  exists out,
    split_blocks_by_textline_length
      [mkTextBlock (lines (block_at 0 [10; 20; 30]%Z)) true; block_at 3 [40; 50]%Z] 1 = Ok out
    /\ List.length (filter is_terminated_by_line out) = 1%nat.
Proof.
  destruct (split_flags
              [mkTextBlock (lines (block_at 0 [10; 20; 30]%Z)) true; block_at 3 [40; 50]%Z] 1)
    as (out & E & H).
  - intros b [<-|[<-|[]]]; vm_compute; discriminate.
  - vm_compute. discriminate.
  - exists out. split; [exact E|]. rewrite H. vm_compute. reflexivity.
Defined.

(** ** [transform_groups] and [match_columns] keep the lines *)

Section TransformLines.

Variable Interval : Type.
Variable block_distance : TextBlock -> TextBlock -> Q.

Lemma zip_groups_prefix (depth_intervals : list Interval) (blocks : list TextBlock) :
  map depth_interval (zip_groups depth_intervals blocks)
  = firstn (List.length (zip_groups depth_intervals blocks)) depth_intervals
  /\ (List.length (zip_groups depth_intervals blocks) <= List.length depth_intervals)%nat.
Proof.
  unfold zip_groups. revert blocks.
  induction depth_intervals as [|i rest IH]; intros [|b bs]; simpl; try (split; [reflexivity|lia]).
  destruct (IH bs) as [H1 H2]. rewrite <- H1. split; [reflexivity | lia].
Qed.

Lemma zip_groups_blocks (depth_intervals : list Interval) (blocks : list TextBlock) :
  (List.length blocks <= List.length depth_intervals)%nat ->
  map block (zip_groups depth_intervals blocks) = blocks.
Proof.
  unfold zip_groups. revert blocks.
  induction depth_intervals as [|i rest IH]; intros [|b bs] H; simpl in *;
    try reflexivity; try lia.
  rewrite IH; [reflexivity | lia].
Qed.

Lemma transform_groups_prefix (depth_intervals : list Interval)
    (blocks : list TextBlock) :
  match transform_groups block_distance depth_intervals blocks with
  | Ok groups =>
      map depth_interval groups = firstn (List.length groups) depth_intervals
      /\ (List.length groups <= List.length depth_intervals)%nat
  | Raise e => e = IndexError
  end.
Proof.
  unfold transform_groups.
  destruct (Py.len depth_intervals =? 0)%Z eqn:E0; [split; [reflexivity | simpl; lia]|].
  destruct (Py.len depth_intervals =? 1)%Z eqn:E1.
  - destruct depth_intervals as [|i rest]; [discriminate|].
    change (Py.index (i :: rest) 0) with (Ok i). cbn [bind].
    split; [reflexivity | simpl; lia].
  - destruct (Py.len blocks <? Py.len depth_intervals)%Z.
    + pose proof (split_sequence blocks (Py.len depth_intervals - Py.len blocks)) as Hs.
      destruct (split_blocks_by_textline_length blocks _) as [out|e]; cbn [bind];
        [|exact Hs].
      destruct (Py.len out >? Py.len depth_intervals)%Z.
      * pose proof (merge_lines block_distance out
                      (Py.len out - Py.len depth_intervals)) as Hm.
        destruct (merge_blocks_by_vertical_spacing _ out _) as [out'|e]; cbn [bind].
        -- apply zip_groups_prefix.
        -- exact Hm.
      * cbn [bind]. apply zip_groups_prefix.
    + cbn [bind]. destruct (Py.len blocks >? Py.len depth_intervals)%Z.
      * pose proof (merge_lines block_distance blocks
                      (Py.len blocks - Py.len depth_intervals)) as Hm.
        destruct (merge_blocks_by_vertical_spacing _ blocks _) as [out'|e]; cbn [bind].
        -- apply zip_groups_prefix.
        -- exact Hm.
      * cbn [bind]. apply zip_groups_prefix.
Qed.

(** X7: [transform_groups] returns at most one pair per depth interval, and
    the intervals of the pairs are the first intervals given, in order; for
    no interval it returns no pair, whatever the blocks.  The only
    exception of the call is [IndexError]. *)
Theorem transform_groups_intervals (depth_intervals : list Interval)
    (blocks : list TextBlock) :
  transform_groups block_distance (@nil Interval) blocks = Ok []
  /\ match transform_groups block_distance depth_intervals blocks with
     | Ok groups =>
         map depth_interval groups = firstn (List.length groups) depth_intervals
         /\ (List.length groups <= List.length depth_intervals)%nat
     | Raise e => e = IndexError
     end.
Proof. split; [reflexivity | apply transform_groups_prefix]. Qed.

(** The blocks that reach the zip are at most as many as the intervals. *)
Lemma reconciled_blocks (depth_intervals : list Interval) (blocks : list TextBlock) :
  (1 < Py.len depth_intervals)%Z ->
  match
    (blocks <- (if (Py.len blocks <? Py.len depth_intervals)%Z
                then split_blocks_by_textline_length blocks
                       (Py.len depth_intervals - Py.len blocks)
                else Ok blocks) ;;
     if (Py.len blocks >? Py.len depth_intervals)%Z
     then merge_blocks_by_vertical_spacing block_distance blocks
            (Py.len blocks - Py.len depth_intervals)
     else Ok blocks)
  with
  | Ok out =>
      flat_map lines out = flat_map lines blocks
      /\ (Py.len out <= Py.len depth_intervals)%Z
  | Raise e => e = IndexError
  end.
Proof.
  intros Hn.
  assert (Hm : forall bs,
             match (if (Py.len bs >? Py.len depth_intervals)%Z
                    then merge_blocks_by_vertical_spacing block_distance bs
                           (Py.len bs - Py.len depth_intervals)
                    else Ok bs) with
             | Ok out => flat_map lines out = flat_map lines bs
                         /\ (Py.len out <= Py.len depth_intervals)%Z
             | Raise e => e = IndexError
             end).
  { intros bs. destruct (Py.len bs >? Py.len depth_intervals)%Z eqn:Eg.
    - rewrite Z.gtb_ltb in Eg. apply Z.ltb_lt in Eg.
      pose proof (merge_lines block_distance bs (Py.len bs - Py.len depth_intervals)) as Hl.
      destruct (merge_blocks_by_vertical_spacing block_distance bs _) as [out|e] eqn:Em;
        [|exact Hl].
      split; [exact Hl|].
      apply merge_length_le in Em; lia.
    - rewrite Z.gtb_ltb in Eg. apply Z.ltb_ge in Eg. now split. }
  destruct (Py.len blocks <? Py.len depth_intervals)%Z.
  - pose proof (split_sequence blocks (Py.len depth_intervals - Py.len blocks)) as Hs.
    destruct (split_blocks_by_textline_length blocks _) as [out|e]; cbn [bind];
      [|exact Hs].
    specialize (Hm out). destruct (if (Py.len out >? _)%Z then _ else _) as [out'|e];
      [|exact Hm].
    destruct Hm as [H1 H2]. split; [congruence | exact H2].
  - cbn [bind]. apply Hm.
Qed.

Lemma transform_groups_keeps_lines (depth_intervals : list Interval) (blocks : list TextBlock) :
  (1 <= Py.len depth_intervals)%Z ->
  match transform_groups block_distance depth_intervals blocks with
  | Ok groups => flat_map lines (map block groups) = flat_map lines blocks
  | Raise e => e = IndexError
  end.
Proof.
  intros Hn. unfold transform_groups.
  destruct (Py.len depth_intervals =? 0)%Z eqn:E0; [apply Z.eqb_eq in E0; lia|].
  destruct (Py.len depth_intervals =? 1)%Z eqn:E1.
  - destruct depth_intervals as [|i rest]; [discriminate|].
    change (Py.index (i :: rest) 0) with (Ok i). cbn [bind map block flat_map].
    unfold TextBlock_init. cbn [lines]. now rewrite app_nil_r.
  - apply Z.eqb_neq in E0, E1.
    pose proof (reconciled_blocks depth_intervals blocks) as H.
    cbv beta in H.
    destruct (if (Py.len blocks <? Py.len depth_intervals)%Z then _ else _)
      as [blocks1|e]; cbn [bind] in *; [|apply H; lia].
    destruct (if (Py.len blocks1 >? Py.len depth_intervals)%Z then _ else _)
      as [blocks2|e]; cbn [bind] in *; [|apply H; lia].
    destruct H as [H1 H2]; [lia|].
    rewrite zip_groups_blocks; [exact H1|]. unfold Py.len in H2. lia.
Qed.

(** X8: with at least one depth interval, whenever [transform_groups]
    returns, the blocks of the pairs hold the lines of the blocks given, in
    the same order, and so as many lines: no line of the description is
    lost by the split, the merge or the pairing. *)
Theorem transform_groups_lines (depth_intervals : list Interval) (blocks : list TextBlock) :
  (1 <= Py.len depth_intervals)%Z ->
  match transform_groups block_distance depth_intervals blocks with
  | Ok groups =>
      flat_map lines (map block groups) = flat_map lines blocks
      /\ total_line_count (map block groups) = total_line_count blocks
  | Raise e => e = IndexError
  end.
Proof.
  intros Hn. pose proof (transform_groups_keeps_lines depth_intervals blocks Hn) as H.
  destruct (transform_groups block_distance depth_intervals blocks) as [groups|e];
    [|exact H].
  split; [exact H|]. now rewrite !total_line_count_flat, H.
Qed.

End TransformLines.

(** Witness of [transform_groups_lines]: the example of one interval and
    three blocks of two, one and three lines. *)
Lemma transform_groups_lines_witness :
  match transform_groups vertical_gap [0%nat]
          [block_at 0 [10; 20]; block_at 2 [10]; block_at 3 [10; 20; 30]]%Z with
  | Ok groups =>
      flat_map lines (map block groups)
      = flat_map lines [block_at 0 [10; 20]; block_at 2 [10]; block_at 3 [10; 20; 30]]%Z
      /\ total_line_count (map block groups)
         = total_line_count
             [block_at 0 [10; 20]; block_at 2 [10]; block_at 3 [10; 20; 30]]%Z
  | Raise e => e = IndexError
  end.
Proof.
  apply (transform_groups_lines nat vertical_gap [0%nat]
           [block_at 0 [10; 20]; block_at 2 [10]; block_at 3 [10; 20; 30]]%Z).
  vm_compute. discriminate.
Defined.

Section MatchColumnsFacts.

Variable Interval : Type.
Variable block_distance : TextBlock -> TextBlock -> Q.

(** X9: when every group has at least one depth interval and
    [match_columns] returns, the blocks of the pairs hold the lines of the
    blocks of all groups, in the order of the groups, and there are at most
    as many pairs as depth intervals. *)
Theorem match_columns_lines (groups : list (list Interval * list TextBlock)) :
  (forall group, In group groups -> (1 <= Py.len (fst group))%Z) ->
  match match_columns block_distance groups with
  | Ok elements =>
      flat_map lines (map block elements) = flat_map lines (flat_map snd groups)
      /\ (List.length elements <= List.length (flat_map fst groups))%nat
  | Raise e => e = IndexError
  end.
Proof.
  induction groups as [|group groups IH]; intros Hn; [split; [reflexivity | simpl; lia]|].
  cbn [match_columns].
  pose proof (transform_groups_keeps_lines Interval block_distance (fst group) (snd group)
                (Hn group (or_introl eq_refl))) as Hl.
  pose proof (transform_groups_prefix Interval block_distance
                (fst group) (snd group)) as Hi.
  destruct (transform_groups block_distance (fst group) (snd group)) as [elements|e];
    cbn [bind]; [|exact Hl].
  specialize (IH (fun g Hg => Hn g (or_intror Hg))).
  destruct (match_columns block_distance groups) as [others|e]; cbn [bind]; [|exact IH].
  destruct IH as [IH1 IH2]. destruct Hi as [_ Hi]. cbn [flat_map].
  rewrite map_app, !flat_map_app, Hl, IH1, !length_app. split; [reflexivity | lia].
Qed.

End MatchColumnsFacts.

(** * Further properties of the conflict removal *)

Lemma insert_by_sorted {A : Type} (key : A -> Q) (a : A) (l : list A) :
  StronglySorted (fun x y => key x <= key y) l ->
  StronglySorted (fun x y => key x <= key y) (Py.insert_by key a l).
Proof.
  induction l as [|b l IH]; intros Hs; simpl.
  - constructor; constructor.
  - inversion Hs as [|? ? Hs' Hall]; subst.
    destruct (Qle_bool (key a) (key b)) eqn:E.
    + apply Qle_bool_iff in E. constructor; [exact Hs|].
      constructor; [exact E|].
      eapply Forall_impl; [|exact Hall]. intros c Hc. eapply Qle_trans; eassumption.
    + apply Qle_bool_false_iff in E. constructor; [now apply IH|].
      eapply Permutation_Forall.
      * symmetry. apply insert_by_perm.
      * constructor; [now apply Qlt_le_weak | exact Hall].
Qed.

Lemma sort_by_sorted {A : Type} (key : A -> Q) (l : list A) :
  StronglySorted (fun x y => key x <= key y) (Py.sort_by key l).
Proof.
  induction l as [|a l IH]; simpl; [constructor|]. now apply insert_by_sorted.
Qed.

Section ConflictFacts.

Variable DepthColumn : Type.
Variable column_rect : DepthColumn -> Rect.
Variable noise_count : DepthColumn -> list TextLine -> Z.
Variable words : list TextLine.

Let score (pair : DepthColumn * Rect) : Q :=
  score_column_match column_rect noise_count (fst pair) (snd pair) (Some words).

Lemma to_delete_from_lower_bound (pairs : list (DepthColumn * Rect)) :
  forall (i k : nat), In k (to_delete_from i pairs) -> (i <= k)%nat.
Proof.
  induction pairs as [|[c r] later IH]; intros i k; simpl; [intros []|].
  rewrite in_app_iff. intros [H|H].
  - unfold to_delete_for in H. apply in_map_iff in H. destruct H as (_ & <- & _). lia.
  - apply IH in H. lia.
Qed.

Lemma existsb_eqb_iff (k : nat) (l : list nat) : existsb (Nat.eqb k) l = true <-> In k l.
Proof.
  rewrite existsb_exists. split.
  - intros (x & Hx & E). apply Nat.eqb_eq in E. now subst.
  - intros H. exists k. split; [exact H | apply Nat.eqb_refl].
Qed.

Lemma filter_enumerate_surviving (pairs : list (DepthColumn * Rect)) :
  forall (i : nat) (earlier : list nat),
    (forall k, In k earlier -> (k < i)%nat) ->
    map snd (filter (fun item =>
                       negb (existsb (Nat.eqb (fst item))
                                     (earlier ++ to_delete_from i pairs)))
                    (combine (seq i (List.length pairs)) pairs))
    = surviving pairs.
Proof.
  induction pairs as [|[c r] later IH]; intros i earlier He; [reflexivity|].
  cbn [List.length seq combine filter to_delete_from surviving fst snd].
  rewrite app_assoc.
  assert (IH' : map snd
                  (filter (fun item : nat * (DepthColumn * Rect) =>
                             negb (existsb (Nat.eqb (fst item))
                                     ((earlier ++ to_delete_for i r later)
                                      ++ to_delete_from (S i) later)))
                          (combine (seq (S i) (List.length later)) later))
                = surviving later).
  { apply IH. intros k Hk. apply in_app_iff in Hk. destruct Hk as [Hk|Hk].
    - apply He in Hk. lia.
    - unfold to_delete_for in Hk. apply in_map_iff in Hk.
      destruct Hk as (_ & <- & _). lia. }
  destruct (existsb (fun pair_2 => intersects r (snd pair_2)) later) eqn:Ex.
  - assert (Hin : existsb (Nat.eqb i)
                    ((earlier ++ to_delete_for i r later) ++ to_delete_from (S i) later)
                  = true).
    { apply existsb_eqb_iff. apply in_or_app. left. apply in_or_app. right.
      apply existsb_exists in Ex. destruct Ex as (q & Hq & Hi).
      unfold to_delete_for. apply in_map_iff. exists q. split; [reflexivity|].
      apply filter_In. now split. }
    rewrite Hin. cbn [negb]. exact IH'.
  - assert (Hin : existsb (Nat.eqb i)
                    ((earlier ++ to_delete_for i r later) ++ to_delete_from (S i) later)
                  = false).
    { destruct (existsb (Nat.eqb i) _) eqn:E; [|reflexivity]. exfalso.
      apply existsb_eqb_iff in E. rewrite !in_app_iff in E.
      destruct E as [[E|E]|E].
      - apply He in E. lia.
      - unfold to_delete_for in E. apply in_map_iff in E. destruct E as (q & _ & Hq).
        apply filter_In in Hq. destruct Hq as [Hq Hi].
        assert (C : existsb (fun pair_2 => intersects r (snd pair_2)) later = true).
        { apply existsb_exists. now exists q. }
        congruence.
      - apply to_delete_from_lower_bound in E. lia. }
    rewrite Hin. cbn [negb map snd]. now rewrite IH'.
Qed.

Lemma filtered_pairs_surviving (pairs : list (DepthColumn * Rect)) :
  filtered_pairs column_rect noise_count words pairs
  = surviving (Py.sort_by score pairs).
Proof.
  unfold filtered_pairs, Py.enumerate.
  apply (filter_enumerate_surviving (Py.sort_by score pairs) 0 []). intros k [].
Qed.

Lemma surviving_sublist (pairs : list (DepthColumn * Rect)) :
  forall pair, In pair (surviving pairs) -> In pair pairs.
Proof.
  induction pairs as [|p later IH]; intros pair; simpl; [intros []|].
  destruct (existsb _ later).
  - intros H. right. now apply IH.
  - intros [<-|H]; [now left | right; now apply IH].
Qed.

Lemma surviving_disjoint (pairs : list (DepthColumn * Rect)) :
  ForallOrdPairs (fun p q => intersects (snd p) (snd q) = false) (surviving pairs).
Proof.
  induction pairs as [|p later IH]; simpl; [constructor|].
  destruct (existsb (fun pair_2 => intersects (snd p) (snd pair_2)) later) eqn:Ex;
    [exact IH|].
  constructor; [|exact IH]. apply Forall_forall. intros q Hq.
  apply surviving_sublist in Hq.
  destruct (intersects (snd p) (snd q)) eqn:Ei; [|reflexivity].
  assert (C : existsb (fun pair_2 => intersects (snd p) (snd pair_2)) later = true).
  { apply existsb_exists. now exists q. }
  congruence.
Qed.

Lemma surviving_sorted (R : DepthColumn * Rect -> DepthColumn * Rect -> Prop)
    (pairs : list (DepthColumn * Rect)) :
  StronglySorted R pairs -> StronglySorted R (surviving pairs).
Proof.
  induction 1 as [|p later Hs IH Hall]; simpl; [constructor|].
  destruct (existsb _ later); [exact IH|].
  constructor; [exact IH|]. rewrite Forall_forall in *. intros q Hq.
  apply Hall. now apply surviving_sublist.
Qed.

(** X10: the pairs that survive the conflict removal are pairs that were
    given, they come in ascending order of score, and no two of them have
    regions that intersect. *)
Theorem filtered_pairs_disjoint (pairs : list (DepthColumn * Rect)) :
  (forall pair, In pair (filtered_pairs column_rect noise_count words pairs) ->
                In pair pairs)
  /\ StronglySorted (fun p q => score p <= score q)
                    (filtered_pairs column_rect noise_count words pairs)
  /\ ForallOrdPairs (fun p q => intersects (snd p) (snd q) = false
                                /\ intersects (snd q) (snd p) = false)
                    (filtered_pairs column_rect noise_count words pairs).
Proof.
  rewrite filtered_pairs_surviving. split; [|split].
  - intros pair H. apply surviving_sublist in H.
    eapply Permutation_in; [apply sort_by_perm | exact H].
  - apply surviving_sorted, sort_by_sorted.
  - pose proof (surviving_disjoint (Py.sort_by score pairs)) as H.
    induction H as [|p l Hp Hl IH]; constructor; [|exact IH].
    eapply Forall_impl; [|exact Hp]. intros q Hq. split; [exact Hq|].
    now rewrite intersects_sym.
Qed.

Lemma surviving_last (pairs : list (DepthColumn * Rect)) (d : DepthColumn * Rect) :
  pairs <> [] -> In (last pairs d) (surviving pairs).
Proof.
  induction pairs as [|a later IH]; [congruence|]. intros _.
  destruct later as [|b later]; [now left|].
  change (last (a :: b :: later) d) with (last (b :: later) d).
  cbn [surviving]. destruct (existsb _ (b :: later)).
  - apply IH. discriminate.
  - right. apply IH. discriminate.
Qed.

(** X11: when at least one pair is given, a pair of the highest score
    survives the conflict removal: the filtered list is not empty and holds
    a pair that scores at least as high as every pair given. *)
Theorem filtered_pairs_keeps_best (pairs : list (DepthColumn * Rect)) :
  pairs <> [] ->
  exists best,
    In best (filtered_pairs column_rect noise_count words pairs)
    /\ forall pair, In pair pairs -> score pair <= score best.
Proof.
  intros Hne. rewrite filtered_pairs_surviving.
  destruct pairs as [|p0 pairs]; [congruence|].
  set (sorted := Py.sort_by score (p0 :: pairs)).
  assert (Hs : sorted <> []).
  { intros C. assert (H : In p0 sorted).
    { eapply Permutation_in; [symmetry; apply sort_by_perm | now left]. }
    rewrite C in H. destruct H. }
  exists (last sorted p0). split; [now apply surviving_last|].
  intros pair Hp.
  assert (Hin : In pair sorted).
  { eapply Permutation_in; [symmetry; apply sort_by_perm | exact Hp]. }
  pose proof (sort_by_sorted score (p0 :: pairs)) as Hsort. fold sorted in Hsort.
  clear Hp Hs. induction Hsort as [|a l Hl IH Hall]; [destruct Hin|].
  destruct l as [|b l].
  - destruct Hin as [<-|[]]. apply Qle_refl.
  - change (last (a :: b :: l) p0) with (last (b :: l) p0).
    destruct Hin as [<-|Hin]; [|now apply IH].
    rewrite Forall_forall in Hall. apply Hall.
    destruct (exists_last (l := b :: l)) as (l' & z & E); [discriminate|].
    rewrite E, last_last. apply in_or_app. right. now left.
Qed.

Lemma surviving_dropped (pairs : list (DepthColumn * Rect)) :
  StronglySorted (fun p q => score p <= score q) pairs ->
  forall pair,
    In pair pairs -> ~ In pair (surviving pairs) ->
    exists before after other,
      pairs = before ++ pair :: after
      /\ In other after /\ intersects (snd pair) (snd other) = true
      /\ score pair <= score other.
Proof.
  induction 1 as [|p later Hs IH Hall]; intros pair Hin Hout; [destruct Hin|].
  cbn [surviving] in Hout.
  destruct (existsb (fun pair_2 => intersects (snd p) (snd pair_2)) later) eqn:Ex.
  - destruct Hin as [<-|Hin].
    + apply existsb_exists in Ex. destruct Ex as (q & Hq & Hi).
      exists [], later, q. split; [reflexivity|]. split; [exact Hq|]. split; [exact Hi|].
      rewrite Forall_forall in Hall. now apply Hall.
    + destruct (IH pair Hin Hout) as (before & after & q & E & Hq & Hi & Hle).
      exists (p :: before), after, q. split; [now rewrite E | now repeat split].
  - destruct Hin as [<-|Hin]; [exfalso; apply Hout; now left|].
    destruct (IH pair Hin) as (before & after & q & E & Hq & Hi & Hle).
    + intros C. apply Hout. now right.
    + exists (p :: before), after, q. split; [now rewrite E | now repeat split].
Qed.

(** X12: a pair is removed only in favour of another pair: when a pair that
    was given is absent from the filtered list, the list of the pairs in
    ascending order of their scores holds, at a later position than this
    pair, a pair whose region intersects its region; that pair scores at
    least as high. *)
Theorem filtered_pairs_removed (pairs : list (DepthColumn * Rect))
    (pair : DepthColumn * Rect) :
  In pair pairs ->
  ~ In pair (filtered_pairs column_rect noise_count words pairs) ->
  exists before after other,
    Py.sort_by score pairs = before ++ pair :: after
    /\ In other after /\ intersects (snd pair) (snd other) = true
    /\ score pair <= score other.
Proof.
  rewrite filtered_pairs_surviving. intros Hin Hout.
  apply (surviving_dropped (Py.sort_by score pairs) (sort_by_sorted score pairs) pair).
  - eapply Permutation_in; [symmetry; apply sort_by_perm | exact Hin].
  - exact Hout.
Qed.

End ConflictFacts.

(** * Further properties of the description region locator *)

Lemma expand_below_grows (all_lines : list TextLine) (rounds : nat) :
  forall best_x0 best_x1 best_y1 x x' y : Q,
    expand_below rounds all_lines (best_x0, best_x1, best_y1) = (x, x', y) ->
    x <= best_x0 /\ best_x1 <= x' /\ best_y1 <= y.
Proof.
  induction rounds as [|rounds IH]; intros best_x0 best_x1 best_y1 x x' y.
  - simpl. intros H. injection H as <- <- <-. repeat split; apply Qle_refl.
  - cbn [expand_below].
    destruct (find (is_below best_x0 best_x1 best_y1) all_lines) as [line|] eqn:Ef.
    + intros H. apply IH in H. destruct H as (H1 & H2 & H3).
      apply find_some in Ef. destruct Ef as [_ Hb].
      unfold is_below in Hb. rewrite !andb_true_iff in Hb. destruct Hb as [_ Hb].
      apply lt_iff in Hb. repeat split.
      * eapply Qle_trans; [exact H1 | apply Q.le_min_l].
      * eapply Qle_trans; [apply Q.le_max_l | exact H2].
      * eapply Qle_trans; [apply Qlt_le_weak, Hb | exact H3].
    + intros H. injection H as <- <- <-. repeat split; apply Qle_refl.
Qed.

(** X13: the downward expansion ends after at most one round per line; the
    rectangle it returns reaches at least as far to the left, to the right
    and to the bottom as the rectangle it started from, and no line is
    below it in the sense of [is_below]. *)
Theorem expansion_ends (all_lines : list TextLine) (best_x0 best_x1 best_y1 : Q) :
  exists x x' y : Q,
    expand_below (S (List.length all_lines)) all_lines (best_x0, best_x1, best_y1)
    = (x, x', y)
    /\ (forall more : nat,
          expand_below (S (List.length all_lines) + more) all_lines
                       (best_x0, best_x1, best_y1) = (x, x', y))
    /\ x <= best_x0 /\ best_x1 <= x' /\ best_y1 <= y
    /\ find (is_below x x' y) all_lines = None.
Proof.
  destruct (expand_below (S (List.length all_lines)) all_lines
              (best_x0, best_x1, best_y1)) as [[x x'] y] eqn:E.
  exists x, x', y. split; [reflexivity|].
  pose proof (expand_below_complete all_lines _ _ _ _ _ _ E) as Hf.
  destruct (expand_below_grows all_lines _ _ _ _ _ _ _ E) as (G1 & G2 & G3).
  split; [|repeat split; assumption].
  intros more. revert E. generalize (S (List.length all_lines)) as rounds.
  intros rounds. clear G1 G2 G3. revert best_x0 best_x1 best_y1.
  induction rounds as [|rounds IH]; intros best_x0 best_x1 best_y1 E.
  - simpl in E. injection E as <- <- <-. destruct more as [|more]; [reflexivity|].
    cbn [Nat.add expand_below]. now rewrite Hf.
  - cbn [Nat.add expand_below] in *.
    destruct (find (is_below best_x0 best_x1 best_y1) all_lines) as [line|];
      [now apply IH | exact E].
Qed.

Lemma min_attained (l : list Q) (m : Q) : Py.min l = Ok m -> In m l.
Proof.
  destruct l as [|q l]; [discriminate|]. simpl. intros H. injection H as <-.
  revert q. induction l as [|y l IH]; intros q; simpl; [now left|].
  destruct (Qlt_le_dec y q).
  - destruct (IH y) as [E|H]; [right; left; exact E | right; right; exact H].
  - destruct (IH q) as [E|H]; [left; exact E | right; right; exact H].
Qed.

Lemma max_attained (l : list Q) (m : Q) : Py.max l = Ok m -> In m l.
Proof.
  destruct l as [|q l]; [discriminate|]. simpl. intros H. injection H as <-.
  revert q. induction l as [|y l IH]; intros q; simpl; [now left|].
  destruct (Qlt_le_dec q y).
  - destruct (IH y) as [E|H]; [right; left; exact E | right; right; exact H].
  - destruct (IH q) as [E|H]; [left; exact E | right; right; exact H].
Qed.

(** * The order of the coordinates *)

(** The comparisons of the rationals order them. *)
Lemma rationals_ordered : ordered rationals (fun _ => True).
Proof.
  constructor; cbn [rationals num num_lt num_le].
  - intros a _. destruct (Py.lt a a) eqn:E; [|reflexivity].
    apply lt_iff in E. exfalso. exact (Qlt_irrefl _ E).
  - intros a b c _ _ _ H1 H2. apply lt_iff in H1, H2. apply lt_iff.
    eapply Qlt_trans; eassumption.
  - intros a b _ _. destruct (Py.lt b a) eqn:E; simpl.
    + apply lt_iff in E. destruct (Qle_bool a b) eqn:E'; [|reflexivity].
      apply Qle_bool_iff in E'. exfalso. exact (Qlt_not_le _ _ E E').
    + apply Qle_bool_iff. apply Qnot_lt_le. intros C. apply lt_iff in C. congruence.
  - intros a b c _ _ _ H1 H2. apply Qle_bool_iff in H1, H2. apply Qle_bool_iff.
    eapply Qle_trans; eassumption.
Qed.

Ltac compare_cases :=
  repeat match goal with
         | H : context [Z.compare ?a ?b] |- _ =>
             destruct (Z.compare_spec a b); try discriminate H
         | |- context [Z.compare ?a ?b] => destruct (Z.compare_spec a b)
         | H : context [Pos.compare_cont Eq ?a ?b] |- _ =>
             change (Pos.compare_cont Eq a b) with (Pos.compare a b) in H;
             destruct (Pos.compare_spec a b); try discriminate H
         | |- context [Pos.compare_cont Eq ?a ?b] =>
             change (Pos.compare_cont Eq a b) with (Pos.compare a b);
             destruct (Pos.compare_spec a b)
         end;
  subst; simpl in *; try reflexivity; try discriminate; try lia.

Lemma SFltb_irreflexive (a : SpecFloat.spec_float) : SpecFloat.SFltb a a = false.
Proof.
  unfold SpecFloat.SFltb.
  destruct a as [[]|[]| |[] m e]; simpl; try reflexivity; compare_cases.
Qed.

Lemma SFltb_transitive (a b c : SpecFloat.spec_float) :
  SpecFloat.SFltb a b = true -> SpecFloat.SFltb b c = true -> SpecFloat.SFltb a c = true.
Proof.
  unfold SpecFloat.SFltb.
  destruct a as [[]|[]| |[] ma ea], b as [[]|[]| |[] mb eb], c as [[]|[]| |[] mc ec];
    simpl; try reflexivity; try discriminate; intros H1 H2; compare_cases.
Qed.

Lemma SFleb_not_gt (a b : SpecFloat.spec_float) :
  a <> SpecFloat.S754_nan -> b <> SpecFloat.S754_nan ->
  SpecFloat.SFleb a b = negb (SpecFloat.SFltb b a).
Proof.
  unfold SpecFloat.SFleb, SpecFloat.SFltb.
  destruct a as [[]|[]| |[] ma ea], b as [[]|[]| |[] mb eb];
    simpl; try reflexivity; try congruence; intros _ _; compare_cases.
Qed.

Lemma SFleb_transitive (a b c : SpecFloat.spec_float) :
  SpecFloat.SFleb a b = true -> SpecFloat.SFleb b c = true -> SpecFloat.SFleb a c = true.
Proof.
  unfold SpecFloat.SFleb.
  destruct a as [[]|[]| |[] ma ea], b as [[]|[]| |[] mb eb], c as [[]|[]| |[] mc ec];
    simpl; try reflexivity; try discriminate; intros H1 H2; compare_cases.
Qed.

Lemma is_number_spec (x : PrimFloat.float) :
  is_number x -> FloatOps.Prim2SF x <> SpecFloat.S754_nan.
Proof.
  unfold is_number. rewrite FloatAxioms.eqb_spec. intros H C. rewrite C in H.
  discriminate H.
Qed.

(** The comparisons of Python's floats order the floats that are no NaN. *)
Lemma binary64_ordered : ordered binary64 is_number.
Proof.
  constructor; cbn [binary64 num num_lt num_le].
  - intros a _. rewrite FloatAxioms.ltb_spec. apply SFltb_irreflexive.
  - intros a b c _ _ _. rewrite !FloatAxioms.ltb_spec. apply SFltb_transitive.
  - intros a b Ha Hb. rewrite FloatAxioms.ltb_spec, FloatAxioms.leb_spec.
    apply SFleb_not_gt; now apply is_number_spec.
  - intros a b c _ _ _. rewrite !FloatAxioms.leb_spec. apply SFleb_transitive.
Qed.

(** * The rectangle of a cluster *)

Section Covering.

Variable A : arithmetic.
Variable proper : num A -> Prop.
Hypothesis order : ordered A proper.

Lemma le_reflexive (a : num A) : proper a -> num_le A a a = true.
Proof.
  intros Ha. rewrite (le_not_gt A proper order a a Ha Ha).
  now rewrite (lt_irreflexive A proper order a Ha).
Qed.

Lemma lt_le (a b : num A) :
  proper a -> proper b -> num_lt A a b = true -> num_le A a b = true.
Proof.
  intros Ha Hb H. rewrite (le_not_gt A proper order a b Ha Hb).
  destruct (num_lt A b a) eqn:E; [|reflexivity].
  pose proof (lt_transitive A proper order a b a Ha Hb Ha H E) as C.
  now rewrite (lt_irreflexive A proper order a Ha) in C.
Qed.

Lemma not_lt_le (a b : num A) :
  proper a -> proper b -> num_lt A b a = false -> num_le A a b = true.
Proof. intros Ha Hb H. now rewrite (le_not_gt A proper order a b Ha Hb), H. Qed.

Lemma min2_spec (a b : num A) :
  proper a -> proper b ->
  proper (locator.min2 A a b)
  /\ num_le A (locator.min2 A a b) a = true /\ num_le A (locator.min2 A a b) b = true.
Proof.
  intros Ha Hb. unfold locator.min2. destruct (num_lt A b a) eqn:E.
  - repeat split; [exact Hb | now apply lt_le | now apply le_reflexive].
  - repeat split; [exact Ha | now apply le_reflexive | now apply not_lt_le].
Qed.

Lemma max2_spec (a b : num A) :
  proper a -> proper b ->
  proper (locator.max2 A a b)
  /\ num_le A a (locator.max2 A a b) = true /\ num_le A b (locator.max2 A a b) = true.
Proof.
  intros Ha Hb. unfold locator.max2. destruct (num_lt A a b) eqn:E.
  - repeat split; [exact Hb | now apply lt_le | now apply le_reflexive].
  - repeat split; [exact Ha | now apply le_reflexive | now apply not_lt_le].
Qed.

Lemma min_list_spec (l : list (num A)) (m : num A) :
  Forall proper l -> locator.min_list A l = Ok m ->
  proper m /\ forall x, In x l -> num_le A m x = true.
Proof.
  destruct l as [|q l]; [discriminate|]. simpl. intros Hl H. injection H as <-.
  apply Forall_cons_iff in Hl. destruct Hl as [Hq Hl].
  assert (G : proper (fold_left (fun m x => if num_lt A x m then x else m) l q)
              /\ num_le A (fold_left (fun m x => if num_lt A x m then x else m) l q) q
                 = true
              /\ forall x, In x l ->
                   num_le A (fold_left (fun m x => if num_lt A x m then x else m) l q) x
                   = true).
  { revert q Hq. induction Hl as [|y l Hy Hl IH]; intros q Hq; simpl.
    - repeat split; [exact Hq | now apply le_reflexive | intros x []].
    - destruct (num_lt A y q) eqn:E.
      + destruct (IH y Hy) as (P1 & L1 & L2). repeat split; [exact P1| |].
        * apply (le_transitive A proper order _ y q P1 Hy Hq L1). now apply lt_le.
        * intros x [<-|Hx]; [exact L1 | now apply L2].
      + destruct (IH q Hq) as (P1 & L1 & L2). repeat split; [exact P1|exact L1|].
        intros x [<-|Hx]; [|now apply L2].
        apply (le_transitive A proper order _ q y P1 Hq Hy L1). now apply not_lt_le. }
  destruct G as (P1 & L1 & L2). split; [exact P1|].
  intros x [<-|Hx]; [exact L1 | now apply L2].
Qed.

Lemma max_list_spec (l : list (num A)) (m : num A) :
  Forall proper l -> locator.max_list A l = Ok m ->
  proper m /\ forall x, In x l -> num_le A x m = true.
Proof.
  destruct l as [|q l]; [discriminate|]. simpl. intros Hl H. injection H as <-.
  apply Forall_cons_iff in Hl. destruct Hl as [Hq Hl].
  assert (G : proper (fold_left (fun m x => if num_lt A m x then x else m) l q)
              /\ num_le A q (fold_left (fun m x => if num_lt A m x then x else m) l q)
                 = true
              /\ forall x, In x l ->
                   num_le A x (fold_left (fun m x => if num_lt A m x then x else m) l q)
                   = true).
  { revert q Hq. induction Hl as [|y l Hy Hl IH]; intros q Hq; simpl.
    - repeat split; [exact Hq | now apply le_reflexive | intros x []].
    - destruct (num_lt A q y) eqn:E.
      + destruct (IH y Hy) as (P1 & L1 & L2). repeat split; [exact P1| |].
        * apply (le_transitive A proper order q y _ Hq Hy P1); [now apply lt_le|exact L1].
        * intros x [<-|Hx]; [exact L1 | now apply L2].
      + destruct (IH q Hq) as (P1 & L1 & L2). repeat split; [exact P1|exact L1|].
        intros x [<-|Hx]; [|now apply L2].
        apply (le_transitive A proper order y q _ Hy Hq P1); [now apply not_lt_le|exact L1]. }
  destruct G as (P1 & L1 & L2). split; [exact P1|].
  intros x [<-|Hx]; [exact L1 | now apply L2].
Qed.

Lemma proper_coordinates (f : locator.Rect A -> num A) (l : list (locator.line_object A)) :
  (forall line, proper_line proper line -> proper (f (locator.rect_of line))) ->
  Forall (proper_line proper) l ->
  Forall proper (map (fun line => f (locator.rect_of line)) l).
Proof.
  intros Hf Hl. apply Forall_map. eapply Forall_impl; [|exact Hl]. exact Hf.
Qed.

(** The downward expansion only grows the rectangle. *)
Lemma expansion_grows (lines : list (locator.line_object A)) (rounds : nat) :
  Forall (proper_line proper) lines ->
  forall best_x0 best_x1 best_y1 x x' y : num A,
    proper best_x0 -> proper best_x1 -> proper best_y1 ->
    locator.expand_below A rounds lines (best_x0, best_x1, best_y1) = Returns (x, x', y) ->
    num_le A x best_x0 = true /\ num_le A best_x1 x' = true
    /\ num_le A best_y1 y = true.
Proof.
  intros Hl.
  assert (G : forall best_x0 best_x1 best_y1 x x' y : num A,
             proper best_x0 -> proper best_x1 -> proper best_y1 ->
             locator.expand_below A rounds lines (best_x0, best_x1, best_y1)
             = Returns (x, x', y) ->
             (proper x /\ proper x' /\ proper y)
             /\ num_le A x best_x0 = true /\ num_le A best_x1 x' = true
                /\ num_le A best_y1 y = true).
  { induction rounds as [|rounds IH]; intros best_x0 best_x1 best_y1 x x' y P0 P1 P2;
      cbn [locator.expand_below];
      destruct (find (locator.is_below A best_x0 best_x1 best_y1) lines) as [line|] eqn:Ef;
      try discriminate;
      try (intros H; injection H as <- <- <-;
           repeat split; try assumption; now apply le_reflexive).
    intros H. apply find_some in Ef. destruct Ef as [Hin Hb].
    rewrite Forall_forall in Hl. destruct (Hl line Hin) as (Q0 & _ & Q1 & Q2).
    unfold locator.is_below in Hb. rewrite !andb_true_iff in Hb. destruct Hb as [_ Hb].
    destruct (min2_spec best_x0 (locator.x0 (locator.rect_of line)) P0 Q0)
      as (M0 & M1 & _).
    destruct (max2_spec best_x1 (locator.x1 (locator.rect_of line)) P1 Q1)
      as (N0 & N1 & _).
    apply IH in H; [|assumption..]. destruct H as ((R0 & R1 & R2) & H1 & H2 & H3).
    split; [now repeat split|]. repeat split.
    - exact (le_transitive A proper order _ _ _ R0 M0 P0 H1 M1).
    - exact (le_transitive A proper order _ _ _ P1 N0 R1 N1 H2).
    - apply (le_transitive A proper order _ _ _ P2 Q2 R2); [now apply lt_le | exact H3]. }
  intros best_x0 best_x1 best_y1 x x' y P0 P1 P2 H.
  now destruct (G best_x0 best_x1 best_y1 x x' y P0 P1 P2 H).
Qed.

(** Each round raises [best_y1] to the bottom of a line that lies below it,
    so that one round per line is enough. *)
Lemma expansion_ends_within (lines : list (locator.line_object A)) (rounds : nat) :
  Forall (proper_line proper) lines ->
  forall best_x0 best_x1 best_y1 : num A,
    proper best_y1 ->
    (List.length (filter (fun line => num_lt A best_y1 (locator.y1 (locator.rect_of line)))
                         lines) <= rounds)%nat ->
    locator.expand_below A rounds lines (best_x0, best_x1, best_y1) <> Loops.
Proof.
  intros Hl. rewrite Forall_forall in Hl.
  induction rounds as [|rounds IH]; intros best_x0 best_x1 best_y1 P2 Hm;
    cbn [locator.expand_below];
    destruct (find (locator.is_below A best_x0 best_x1 best_y1) lines) as [line|] eqn:Ef;
    try discriminate.
  - apply find_some in Ef. destruct Ef as [Hin Hb].
    unfold locator.is_below in Hb. rewrite !andb_true_iff in Hb. destruct Hb as [_ Hb].
    assert (Hf : In line (filter (fun l => num_lt A best_y1 (locator.y1 (locator.rect_of l)))
                                 lines)) by (apply filter_In; now split).
    destruct (filter _ lines); [destruct Hf | simpl in Hm; lia].
  - apply find_some in Ef. destruct Ef as [Hin Hb].
    unfold locator.is_below in Hb. rewrite !andb_true_iff in Hb. destruct Hb as [_ Hb].
    destruct (Hl line Hin) as (_ & _ & _ & Q2).
    apply IH; [exact Q2|].
    assert (Hlt : (List.length
                     (filter (fun l => num_lt A (locator.y1 (locator.rect_of line))
                                                (locator.y1 (locator.rect_of l))) lines)
                   < List.length
                       (filter (fun l => num_lt A best_y1 (locator.y1 (locator.rect_of l)))
                               lines))%nat).
    { clear IH Hm. revert Hin.
      assert (Hsub : forall l, In l lines ->
                  num_lt A (locator.y1 (locator.rect_of line))
                           (locator.y1 (locator.rect_of l)) = true ->
                  num_lt A best_y1 (locator.y1 (locator.rect_of l)) = true).
      { intros l Hin' H. destruct (Hl l Hin') as (_ & _ & _ & Q2').
        exact (lt_transitive A proper order _ _ _ P2 Q2 Q2' Hb H). }
      revert Hsub Hl. generalize lines at 1 2 3 4 5 as ls.
      induction ls as [|a ls IHl]; intros Hsub Hl' Hin; [destruct Hin|].
      assert (Hle : (List.length
                       (filter (fun l => num_lt A (locator.y1 (locator.rect_of line))
                                                  (locator.y1 (locator.rect_of l))) ls)
                     <= List.length
                         (filter (fun l => num_lt A best_y1
                                                    (locator.y1 (locator.rect_of l))) ls))%nat).
      { clear IHl Hin Hl'. assert (Hsub' : forall l, In l ls ->
                  num_lt A (locator.y1 (locator.rect_of line))
                           (locator.y1 (locator.rect_of l)) = true ->
                  num_lt A best_y1 (locator.y1 (locator.rect_of l)) = true)
          by (intros l Hl0; apply Hsub; now right).
        clear Hsub. induction ls as [|b ls IHb]; [reflexivity|]. simpl.
        destruct (num_lt A (locator.y1 (locator.rect_of line))
                           (locator.y1 (locator.rect_of b))) eqn:E1.
        - rewrite (Hsub' b (or_introl eq_refl) E1). simpl.
          apply le_n_S. apply IHb. intros l Hl0; apply Hsub'; now right.
        - destruct (num_lt A best_y1 (locator.y1 (locator.rect_of b))); simpl;
            [apply le_S|]; apply IHb; intros l Hl0; apply Hsub'; now right. }
      simpl. destruct Hin as [->|Hin].
      - rewrite (lt_irreflexive A proper order _ Q2), Hb. simpl. lia.
      - assert (IH' := IHl (fun l Hl0 => Hsub l (or_intror Hl0))
                           (fun l Hl0 => Hl' l (or_intror Hl0)) Hin).
        destruct (num_lt A (locator.y1 (locator.rect_of line))
                           (locator.y1 (locator.rect_of a))) eqn:E1.
        + rewrite (Hsub a (or_introl eq_refl) E1). simpl. lia.
        + destruct (num_lt A best_y1 (locator.y1 (locator.rect_of a))); simpl; lia. }
    lia.
Qed.

Lemma filter_length_le {X : Type} (f : X -> bool) (l : list X) :
  (List.length (filter f l) <= List.length l)%nat.
Proof. induction l as [|a l IH]; [reflexivity|]. simpl. destruct (f a); simpl; lia. Qed.

(** X14: when the comparisons order the coordinates of the lines, the loop
    that expands the rectangle of a cluster ends, and the rectangle that
    the step returns contains every good line of the cluster, and every
    line of the cluster from top to bottom. *)
Theorem candidate_rect_covers_cluster
    (lines candidate_description cluster : list (locator.line_object A)) :
  Forall (proper_line proper) lines ->
  Forall (proper_line proper) candidate_description ->
  Forall (proper_line proper) cluster ->
  locator.candidate_rect A lines candidate_description cluster <> Loops
  /\ forall r : locator.Rect A,
       locator.candidate_rect A lines candidate_description cluster = Returns r ->
       (forall line, In line cluster ->
          num_le A (locator.y0 r) (locator.y0 (locator.rect_of line)) = true
          /\ num_le A (locator.y1 (locator.rect_of line)) (locator.y1 r) = true)
       /\ exists (best_y0 best_y1 : num A) (good_lines : list (locator.line_object A)),
            locator.good_lines A candidate_description cluster
            = Ok (best_y0, best_y1, good_lines)
            /\ good_lines <> []
            /\ forall line, In line good_lines ->
                 num_le A (locator.x0 r) (locator.x0 (locator.rect_of line)) = true
                 /\ num_le A (locator.x1 (locator.rect_of line)) (locator.x1 r) = true
                 /\ num_le A (locator.y0 r) (locator.y0 (locator.rect_of line)) = true
                 /\ num_le A (locator.y1 (locator.rect_of line)) (locator.y1 r) = true.
Proof.
  intros Hl Hd Hc. unfold locator.candidate_rect.
  destruct (locator.good_lines A candidate_description cluster)
    as [[[best_y0 best_y1] good]|e] eqn:Eg; [|split; [discriminate | intros r; discriminate]].
  cbn [of_result outcome_bind].
  unfold locator.good_lines in Eg.
  destruct (locator.min_list A (map (fun l => locator.y0 (locator.rect_of l)) cluster))
    as [b0|] eqn:E1; [|discriminate]. cbn [bind] in Eg.
  destruct (locator.max_list A (map (fun l => locator.y1 (locator.rect_of l)) cluster))
    as [b1|] eqn:E2; [|discriminate]. cbn [bind] in Eg.
  match type of Eg with
  | bind ?m _ = _ => destruct m as [lo|]; [|discriminate]
  end. cbn [bind] in Eg.
  match type of Eg with
  | bind ?m _ = _ => destruct m as [hi|]; [|discriminate]
  end. cbn [bind] in Eg. injection Eg as <- <- Eg.
  apply min_list_spec in E1;
    [|apply (proper_coordinates (@locator.y0 A)); [now intros l (_ & H & _) | exact Hc]].
  apply max_list_spec in E2;
    [|apply (proper_coordinates (@locator.y1 A)); [now intros l (_ & _ & _ & H) | exact Hc]].
  destruct E1 as (P0 & B0), E2 as (P1 & B1).
  assert (Hgood : Forall (proper_line proper) good).
  { subst good. apply Forall_forall. intros l Hin. apply filter_In in Hin.
    rewrite Forall_forall in Hd. now apply Hd. }
  assert (Hwin : forall l, In l good ->
             num_le A b0 (locator.y0 (locator.rect_of l)) = true
             /\ num_le A (locator.y1 (locator.rect_of l)) b1 = true).
  { subst good. intros l Hin. apply filter_In in Hin. destruct Hin as [_ Hin].
    rewrite !andb_true_iff in Hin. tauto. }
  clear Eg.
  destruct (locator.min_list A (map (fun l => locator.x0 (locator.rect_of l)) good))
    as [bx0|e] eqn:E5; [|split; [discriminate | intros r; discriminate]].
  destruct (locator.max_list A (map (fun l => locator.x1 (locator.rect_of l)) good))
    as [bx1|e] eqn:E6; [|split; [discriminate | intros r; discriminate]].
  cbn [of_result outcome_bind].
  assert (Hne : good <> []) by (intros ->; discriminate E5).
  apply min_list_spec in E5;
    [|apply (proper_coordinates (@locator.x0 A)); [now intros l (H & _) | exact Hgood]].
  apply max_list_spec in E6;
    [|apply (proper_coordinates (@locator.x1 A)); [now intros l (_ & _ & H & _) | exact Hgood]].
  destruct E5 as (P5 & B5), E6 as (P6 & B6).
  pose proof (expansion_ends_within lines (List.length lines) Hl bx0 bx1 b1 P1
                (filter_length_le _ lines)) as Hends.
  destruct (locator.expand_below A (List.length lines) lines (bx0, bx1, b1))
    as [[[x x'] y]|e|] eqn:Ee; [| |congruence].
  2:{ now apply expand_below_never_raises in Ee. }
  cbn [outcome_bind]. split; [discriminate|].
  intros r H. injection H as <-. cbn [locator.x0 locator.x1 locator.y0 locator.y1].
  pose proof Ee as Hp.
  apply (expansion_grows lines _ Hl _ _ _ _ _ _ P5 P6 P1) in Ee.
  destruct Ee as (G1 & G2 & G3).
  assert (Py : proper x /\ proper x' /\ proper y).
  { clear - Hp Hl P5 P6 P1 order. revert bx0 bx1 b1 P5 P6 P1 Hp.
    induction (List.length lines) as [|rounds IH]; intros bx0 bx1 b1 P5 P6 P1;
      cbn [locator.expand_below];
      destruct (find (locator.is_below A bx0 bx1 b1) lines) as [line|] eqn:Ef;
      try discriminate; try (intros H; injection H as <- <- <-; now repeat split).
    apply find_some in Ef. destruct Ef as [Hin _].
    rewrite Forall_forall in Hl. destruct (Hl line Hin) as (Q0 & _ & Q1 & Q2).
    apply IH; [now apply min2_spec | now apply max2_spec | exact Q2]. }
  destruct Py as (Px & Px' & Py). split.
  - intros line Hin.
    pose proof (in_map (fun l => locator.y0 (locator.rect_of l)) _ _ Hin) as I0.
    pose proof (in_map (fun l => locator.y1 (locator.rect_of l)) _ _ Hin) as I1.
    rewrite Forall_forall in Hc. destruct (Hc line Hin) as (_ & _ & _ & Q2).
    split; [now apply B0|].
    exact (le_transitive A proper order _ _ _ Q2 P1 Py (B1 _ I1) G3).
  - exists b0, b1, good. split; [reflexivity|]. split; [exact Hne|].
    intros line Hin.
    pose proof (in_map (fun l => locator.x0 (locator.rect_of l)) _ _ Hin) as I0.
    pose proof (in_map (fun l => locator.x1 (locator.rect_of l)) _ _ Hin) as I1.
    rewrite Forall_forall in Hgood. destruct (Hgood line Hin) as (Q0 & Q1 & Q2 & Q3).
    destruct (Hwin line Hin) as [W0 W1]. repeat split.
    + exact (le_transitive A proper order _ _ _ Px P5 Q0 G1 (B5 _ I0)).
    + exact (le_transitive A proper order _ _ _ Q2 P6 Px' (B6 _ I1) G2).
    + exact W0.
    + exact (le_transitive A proper order _ _ _ Q3 P1 Py W1 G3).
Qed.

End Covering.

(** Witness of [candidate_rect_covers_cluster]: the two lines of
    [paragraph], in the arithmetic of Python's floats. *)
Lemma candidate_rect_covers_cluster_witness :
  locator.candidate_rect binary64 paragraph paragraph paragraph <> Loops
  /\ forall r : locator.Rect binary64,
       locator.candidate_rect binary64 paragraph paragraph paragraph = Returns r ->
       (forall line, In line paragraph ->
          PrimFloat.leb (locator.y0 r) (locator.y0 (locator.rect_of line)) = true
          /\ PrimFloat.leb (locator.y1 (locator.rect_of line)) (locator.y1 r) = true)
       /\ exists (best_y0 best_y1 : PrimFloat.float)
                 (good_lines : list (locator.line_object binary64)),
            locator.good_lines binary64 paragraph paragraph
            = Ok (best_y0, best_y1, good_lines)
            /\ good_lines <> []
            /\ forall line, In line good_lines ->
                 PrimFloat.leb (locator.x0 r) (locator.x0 (locator.rect_of line)) = true
                 /\ PrimFloat.leb (locator.x1 (locator.rect_of line)) (locator.x1 r) = true
                 /\ PrimFloat.leb (locator.y0 r) (locator.y0 (locator.rect_of line)) = true
                 /\ PrimFloat.leb (locator.y1 (locator.rect_of line)) (locator.y1 r) = true.
Proof.
  apply (candidate_rect_covers_cluster binary64 is_number binary64_ordered
           paragraph paragraph paragraph);
    repeat constructor; vm_compute; reflexivity.
Defined.

Section GatingFacts.

Variable DepthColumn : Type.
Variable column_rect : DepthColumn -> Rect.
Variable noise_count : DepthColumn -> list TextLine -> Z.

(** X15: the vertical gating returns lines of the page only.  For a depth
    column, every line it returns starts above the bottom of the column,
    and none of them overlaps the column horizontally while starting above
    its top; without a depth column it returns every line. *)
Theorem candidate_description_gated (all_lines : list TextLine) (column : DepthColumn) :
  candidate_description column_rect all_lines None = Ok all_lines
  /\ exists candidates,
       candidate_description column_rect all_lines (Some column) = Ok candidates
       /\ forall line, In line candidates ->
            In line all_lines
            /\ y0 (rect line) < y1 (column_rect column)
            /\ ~ (~ x_overlap (rect line) (column_rect column) == 0
                  /\ y0 (rect line) < y0 (column_rect column)).
Proof.
  split; [reflexivity|]. unfold candidate_description.
  set (above := filter _ all_lines).
  assert (Habove : forall line, In line all_lines ->
                     ~ x_overlap (rect line) (column_rect column) == 0 ->
                     y0 (rect line) < y0 (column_rect column) -> In line above).
  { intros line Hl Hx Hy. apply filter_In. split; [exact Hl|].
    apply andb_true_iff. split; [|now apply lt_iff].
    apply negb_true_iff. destruct (Qeq_bool _ 0) eqn:E; [|reflexivity].
    apply Qeq_bool_iff in E. contradiction. }
  destruct (Py.len above =? 0)%Z eqn:E0.
  - apply len_zero_iff in E0. cbn [bind]. eexists. split; [reflexivity|].
    intros line Hl. apply filter_In in Hl. destruct Hl as [Hl Hc].
    apply andb_true_iff in Hc. destruct Hc as [H1 H2]. apply lt_iff in H1, H2.
    repeat split; try assumption.
    intros [Hx Hy]. specialize (Habove line Hl Hx Hy). rewrite E0 in Habove.
    destruct Habove.
  - destruct (Py.max (map (fun line => y0 (rect line)) above)) as [min_y0|] eqn:Em.
    2:{ destruct above; discriminate. }
    cbn [bind]. eexists. split; [reflexivity|].
    intros line Hl. apply filter_In in Hl. destruct Hl as [Hl Hc].
    apply andb_true_iff in Hc. destruct Hc as [H1 H2]. apply lt_iff in H1, H2.
    repeat split; try assumption.
    intros [Hx Hy]. specialize (Habove line Hl Hx Hy).
    pose proof (max_upper_bound _ _ Em _
                  (in_map (fun l => y0 (rect l)) _ _ Habove)) as B.
    cbv beta in B. exact (Qlt_not_le _ _ H1 B).
Qed.

End GatingFacts.

(** X16: for a non-empty coverage of lines of positive width,
    [filter_coverage] returns lines of the coverage only and keeps a line,
    the one that starts furthest to the left: the cluster taken from it is
    not empty. *)
Theorem filter_coverage_keeps_leftmost (coverage : list TextLine) :
  coverage <> [] ->
  (forall line, In line coverage -> x0 (rect line) < x1 (rect line)) ->
  exists kept leftmost,
    filter_coverage coverage = Ok kept
    /\ (forall line, In line kept -> In line coverage)
    /\ In leftmost kept
    /\ forall line, In line coverage -> x0 (rect leftmost) <= x0 (rect line).
Proof.
  intros Hne Hw. unfold filter_coverage.
  destruct (Py.len coverage =? 0)%Z eqn:E0; [apply len_zero_iff in E0; congruence|].
  destruct (Py.min (map (fun line => x0 (rect line)) coverage)) as [min_x0|] eqn:E1;
    [|destruct coverage; [congruence | discriminate]].
  destruct (Py.max (map (fun line => x1 (rect line)) coverage)) as [max_x1|] eqn:E2;
    [|destruct coverage; [congruence | discriminate]].
  cbn [bind].
  pose proof (min_attained _ _ E1) as Ha. apply in_map_iff in Ha.
  destruct Ha as (leftmost & El & Hin).
  eexists. exists leftmost. split; [reflexivity|]. split; [|split].
  - intros line Hl. apply filter_In in Hl. tauto.
  - apply filter_In. split; [exact Hin|]. apply lt_iff. rewrite El.
    pose proof (max_upper_bound _ _ E2 _ (in_map (fun l => x1 (rect l)) _ _ Hin)) as B.
    cbv beta in B. specialize (Hw leftmost Hin). rewrite El in Hw.
    assert (Hd : 0 < max_x1 - min_x0).
    { rewrite <- (Qplus_opp_r min_x0). apply Qplus_lt_l.
      eapply Qlt_le_trans; eassumption. }
    assert (E : max_x1 - (4 # 10) * (max_x1 - min_x0)
                == min_x0 + (6 # 10) * (max_x1 - min_x0)) by ring.
    rewrite E. rewrite <- (Qplus_0_r min_x0) at 1. apply Qplus_lt_r.
    apply Qmult_lt_0_compat; [reflexivity | exact Hd].
  - intros line Hl. rewrite El.
    exact (min_lower_bound _ _ E1 _ (in_map (fun l => x0 (rect l)) _ _ Hl)).
Qed.

(** Witness of [filter_coverage_keeps_leftmost]: two lines, one below the
    other. *)
Lemma filter_coverage_keeps_leftmost_witness :
  exists kept leftmost,
    filter_coverage [line_at 0 10; line_at 1 20] = Ok kept
    /\ (forall line, In line kept -> In line [line_at 0 10; line_at 1 20])
    /\ In leftmost kept
    /\ forall line, In line [line_at 0 10; line_at 1 20] ->
         x0 (rect leftmost) <= x0 (rect line).
Proof.
  apply (filter_coverage_keeps_leftmost [line_at 0 10; line_at 1 20]).
  - discriminate.
  - intros line [<-|[<-|[]]]; vm_compute; reflexivity.
Defined.

Lemma max_by_spec {A : Type} (key : A -> Q) (l : list A) (best : A) :
  Py.max_by key l = Ok best ->
  In best l /\ forall a, In a l -> key a <= key best.
Proof.
  destruct l as [|a0 l]; [discriminate|]. simpl. intros H. injection H as <-.
  revert a0. induction l as [|y l IH]; intros a0; simpl.
  - split; [now left|]. intros a [<-|[]]. apply Qle_refl.
  - destruct (Qlt_le_dec (key a0) (key y)) as [Hlt|Hle].
    + destruct (IH y) as [H1 H2]. split.
      * destruct H1 as [E|H1]; [right; left; exact E | right; right; exact H1].
      * intros a [<-|[<-|Ha]].
        -- apply Qle_trans with (key y); [now apply Qlt_le_weak | apply H2; now left].
        -- apply H2. now left.
        -- apply H2. now right.
    + destruct (IH a0) as [H1 H2]. split.
      * destruct H1 as [E|H1]; [left; exact E | right; right; exact H1].
      * intros a [<-|[<-|Ha]].
        -- apply H2. now left.
        -- apply Qle_trans with (key a0); [exact Hle | apply H2; now left].
        -- apply H2. now right.
Qed.

Section ChoiceFacts.

Variable DepthColumn : Type.
Variable column_rect : DepthColumn -> Rect.
Variable noise_count : DepthColumn -> list TextLine -> Z.

(** X17: the final choice never raises.  It returns nothing exactly when
    there is no candidate; for a depth column it returns a candidate whose
    score, computed without words, is at least the score of every
    candidate; without a depth column it returns the first candidate. *)
Theorem choose_candidate_best (depth_column : option DepthColumn)
    (candidate_rects : list Rect) :
  match choose_candidate column_rect noise_count depth_column candidate_rects with
  | Ok None => candidate_rects = []
  | Ok (Some chosen) =>
      In chosen candidate_rects
      /\ match depth_column with
         | Some column =>
             forall r, In r candidate_rects ->
               score_column_match column_rect noise_count column r None
               <= score_column_match column_rect noise_count column chosen None
         | None => hd_error candidate_rects = Some chosen
         end
  | Raise _ => False
  end.
Proof.
  unfold choose_candidate.
  destruct (Py.len candidate_rects =? 0)%Z eqn:E0; [now apply len_zero_iff in E0|].
  destruct candidate_rects as [|r0 rest]; [discriminate|].
  destruct depth_column as [column|].
  - destruct (Py.max_by _ (r0 :: rest)) as [best|e] eqn:Em; [|discriminate].
    cbn [bind]. now apply max_by_spec in Em.
  - change (Py.index (r0 :: rest) 0) with (Ok r0). cbn [bind].
    split; [now left | reflexivity].
Qed.

End ChoiceFacts.

(** * Properties of the macro averages *)

Lemma fold_sum_bounds (l : list Q) (lo hi : Q) :
  (forall x, In x l -> lo <= x <= hi) ->
  forall a : Q,
    a + inject_Z (Py.len l) * lo <= fold_left Qplus l a
    /\ fold_left Qplus l a <= a + inject_Z (Py.len l) * hi.
Proof.
  unfold Py.len. induction l as [|x l IH]; intros Hb a.
  - simpl. split; ring_simplify; apply Qle_refl.
  - cbn [fold_left List.length]. rewrite Nat2Z.inj_succ, <- Z.add_1_r, inject_Z_plus.
    destruct (IH (fun y Hy => Hb y (or_intror Hy)) (a + x)) as [H1 H2].
    destruct (Hb x (or_introl eq_refl)) as [B1 B2]. split.
    + eapply Qle_trans; [|exact H1].
      assert (E : a + (inject_Z (Z.of_nat (List.length l)) + inject_Z 1) * lo
                  == a + lo + inject_Z (Z.of_nat (List.length l)) * lo) by ring.
      rewrite E. apply Qplus_le_l. now apply Qplus_le_r.
    + eapply Qle_trans; [exact H2|].
      assert (E : a + (inject_Z (Z.of_nat (List.length l)) + inject_Z 1) * hi
                  == a + hi + inject_Z (Z.of_nat (List.length l)) * hi) by ring.
      rewrite E. apply Qplus_le_l. now apply Qplus_le_r.
Qed.

Section AverageFacts.

Variable Metrics : Type.

(** The average of the scores of a non-empty dict lies between any two
    bounds of the scores. *)
Lemma average_bounds (score : Metrics -> Q) (items : list (string * Metrics)) (lo hi : Q) :
  items <> [] ->
  (forall item, In item items -> lo <= score (snd item) <= hi) ->
  exists v,
    Py.truediv (Py.sum (map (fun item => score (snd item)) items)) (Py.len items) = Ok v
    /\ lo <= v <= hi.
Proof.
  intros Hne Hb. unfold Py.truediv.
  assert (Hpos : (0 < Py.len items)%Z).
  { unfold Py.len. destruct items; [congruence | simpl; lia]. }
  destruct (Py.len items =? 0)%Z eqn:E0; [apply Z.eqb_eq in E0; lia|].
  eexists. split; [reflexivity|].
  destruct (fold_sum_bounds (map (fun item => score (snd item)) items) lo hi) with (a := 0)
    as [H1 H2].
  { intros x Hx. apply in_map_iff in Hx. destruct Hx as (item & <- & Hi). now apply Hb. }
  assert (El : Py.len (map (fun item => score (snd item)) items) = Py.len items).
  { unfold Py.len. now rewrite length_map. }
  rewrite El in H1, H2. rewrite Qplus_0_l in H1, H2.
  assert (Hq : 0 < inject_Z (Py.len items)).
  { rewrite <- (Zlt_Qlt 0). exact Hpos. }
  unfold Py.sum. split.
  - apply Qle_shift_div_l; [exact Hq|]. now rewrite Qmult_comm.
  - apply Qle_shift_div_r; [exact Hq|]. now rewrite Qmult_comm.
Qed.

Variable f1 precision recall : Metrics -> Q.

(** X18: on a dataset with at least one document whose scores all lie in
    [0, 1], each macro average returns a value that lies in [0, 1]. *)
Theorem macro_averages_bounded (self : DatasetMetrics Metrics) :
  metrics self <> [] ->
  (forall item, In item (metrics self) ->
     0 <= f1 (snd item) <= 1 /\ 0 <= precision (snd item) <= 1
     /\ 0 <= recall (snd item) <= 1) ->
  exists a b c,
    macro_f1 f1 self = Ok a /\ macro_precision precision self = Ok b
    /\ macro_recall recall self = Ok c
    /\ 0 <= a <= 1 /\ 0 <= b <= 1 /\ 0 <= c <= 1.
Proof.
  intros Hne Hb. unfold macro_f1, macro_precision, macro_recall.
  destruct (Py.len (metrics self) =? 0)%Z eqn:E0; [apply len_zero_iff in E0; congruence|].
  destruct (average_bounds f1 (metrics self) 0 1 Hne) as (a & Ea & Ha);
    [intros item Hi; now apply Hb|].
  destruct (average_bounds precision (metrics self) 0 1 Hne) as (b & Eb & Hb');
    [intros item Hi; now apply Hb|].
  destruct (average_bounds recall (metrics self) 0 1 Hne) as (c & Ec & Hc);
    [intros item Hi; now apply Hb|].
  exists a, b, c. repeat split; try assumption; tauto.
Qed.

(** X19: [pseudo_macro_f1] never divides by zero: it returns on every
    dataset, with 0 for the empty dataset; when the precision and the
    recall of every document lie in [0, 1], so does the value returned. *)
Theorem pseudo_macro_f1_safe (self : DatasetMetrics Metrics) :
  pseudo_macro_f1 precision recall DatasetMetrics_init = Ok 0
  /\ exists v,
       pseudo_macro_f1 precision recall self = Ok v
       /\ ((forall item, In item (metrics self) ->
              0 <= precision (snd item) <= 1 /\ 0 <= recall (snd item) <= 1) ->
           0 <= v <= 1).
Proof.
  split; [reflexivity|]. unfold pseudo_macro_f1.
  destruct (Py.len (metrics self) =? 0)%Z eqn:E0.
  - exists 0. split; [reflexivity|]. intros _. split; [apply Qle_refl | discriminate].
  - assert (Hne : metrics self <> []).
    { intros C. rewrite C in E0. discriminate. }
    unfold macro_precision, macro_recall. rewrite E0.
    unfold Py.truediv. rewrite E0. cbn [bind].
    set (p := Py.sum (map (fun item => precision (snd item)) (metrics self))
              / inject_Z (Py.len (metrics self))).
    set (r := Py.sum (map (fun item => recall (snd item)) (metrics self))
              / inject_Z (Py.len (metrics self))).
    destruct (Py.lt 0 (p + r)) eqn:El.
    + apply lt_iff in El. unfold float_truediv.
      destruct (Qeq_bool (p + r) 0) eqn:Ez.
      { apply Qeq_bool_iff in Ez. rewrite Ez in El. exfalso. exact (Qlt_irrefl _ El). }
      eexists. split; [reflexivity|]. intros Hb.
      destruct (average_bounds precision (metrics self) 0 1 Hne) as (p' & Ep & Hp);
        [intros item Hi; now apply Hb|].
      destruct (average_bounds recall (metrics self) 0 1 Hne) as (r' & Er & Hr);
        [intros item Hi; now apply Hb|].
      unfold Py.truediv in Ep, Er. rewrite E0 in Ep, Er.
      injection Ep as <-. injection Er as <-. fold p in Hp. fold r in Hr.
      destruct Hp as [Hp0 Hp1], Hr as [Hr0 Hr1]. split.
      * apply Qle_shift_div_l; [exact El|]. rewrite Qmult_0_l.
        apply Qmult_le_0_compat; [|exact Hr0].
        apply Qmult_le_0_compat; [discriminate | exact Hp0].
      * apply Qle_shift_div_r; [exact El|]. rewrite Qmult_1_l.
        assert (H1 : p * r <= p).
        { rewrite <- (Qmult_1_r p) at 2. rewrite !(Qmult_comm p).
          now apply Qmult_le_compat_r. }
        assert (H2 : p * r <= r).
        { rewrite <- (Qmult_1_l r) at 2. now apply Qmult_le_compat_r. }
        assert (E : 2 * p * r == p * r + p * r) by ring.
        rewrite E. now apply Qplus_le_compat.
    + exists 0. split; [reflexivity|]. intros _. split; [apply Qle_refl | discriminate].
Qed.

End AverageFacts.

(** * Properties of the geometry utilities *)

Lemma x_overlap_positive (r s : Rect) :
  0 < x_overlap r s -> x0 r < x1 r /\ x0 s < x1 s.
Proof.
  unfold x_overlap.
  destruct (Qlt_le_dec (x0 r) (x1 s)) as [H1|H1];
    [|intros C; exfalso; exact (Qlt_irrefl _ C)].
  destruct (Qlt_le_dec (x0 s) (x1 r)) as [H2|H2];
    [|intros C; exfalso; exact (Qlt_irrefl _ C)].
  intros H.
  assert (Hm : Qmax (x0 r) (x0 s) < Qmin (x1 r) (x1 s)).
  { apply (Qplus_lt_l _ _ (- Qmax (x0 r) (x0 s))). now rewrite Qplus_opp_r. }
  apply Q.max_lub_lt_iff in Hm. destruct Hm as [Ha Hb].
  apply Q.min_glb_lt_iff in Ha, Hb. tauto.
Qed.

(** X20: the horizontal overlap of two rectangles does not depend on their
    order; for rectangles with [x0 <= x1] it is not negative and at most
    the width of either rectangle, and it is 0 when one rectangle ends
    where the other starts or before. *)
Theorem x_overlap_facts (r s : Rect) :
  x_overlap r s == x_overlap s r
  /\ (x0 r <= x1 r -> x0 s <= x1 s ->
      0 <= x_overlap r s /\ x_overlap r s <= width r /\ x_overlap r s <= width s)
  /\ (x1 r <= x0 s -> x_overlap r s == 0).
Proof.
  split; [|split].
  - unfold x_overlap.
    destruct (Qlt_le_dec (x0 r) (x1 s)), (Qlt_le_dec (x0 s) (x1 r)); try reflexivity.
    now rewrite Q.min_comm, Q.max_comm.
  - intros Hr Hs.
    assert (Wr : width r == x1 r - x0 r).
    { unfold width. apply Q.max_r. rewrite <- (Qplus_opp_r (x0 r)). now apply Qplus_le_l. }
    assert (Ws : width s == x1 s - x0 s).
    { unfold width. apply Q.max_r. rewrite <- (Qplus_opp_r (x0 s)). now apply Qplus_le_l. }
    assert (Pr : 0 <= width r) by apply Q.le_max_l.
    assert (Ps : 0 <= width s) by apply Q.le_max_l.
    unfold x_overlap.
    destruct (Qlt_le_dec (x0 r) (x1 s)) as [H1|H1];
      [|repeat split; [apply Qle_refl | exact Pr | exact Ps]].
    destruct (Qlt_le_dec (x0 s) (x1 r)) as [H2|H2];
      [|repeat split; [apply Qle_refl | exact Pr | exact Ps]].
    repeat split.
    + rewrite <- (Qplus_opp_r (Qmax (x0 r) (x0 s))). apply Qplus_le_l.
      apply Q.max_lub; apply Q.min_glb; try assumption; now apply Qlt_le_weak.
    + rewrite Wr. apply Qplus_le_compat; [apply Q.le_min_l|].
      apply Qopp_le_compat, Q.le_max_l.
    + rewrite Ws. apply Qplus_le_compat; [apply Q.le_min_r|].
      apply Qopp_le_compat, Q.le_max_r.
  - intros H. unfold x_overlap.
    destruct (Qlt_le_dec (x0 r) (x1 s)); [|reflexivity].
    destruct (Qlt_le_dec (x0 s) (x1 r)) as [H2|H2]; [|reflexivity].
    exfalso. exact (Qlt_not_le _ _ H2 H).
Qed.

Lemma width_nonneg (r : Rect) : 0 <= width r.
Proof. apply Q.le_max_l. Qed.

(** X21: for a level that is not negative, an overlap that is significant
    against the wider rectangle is significant against the narrower one,
    and an overlap that is significant against the narrower one is only
    found between two rectangles of positive width; a rectangle of positive
    width overlaps itself significantly at every level below 1. *)
Theorem x_overlap_significance (r s : Rect) (level : Q) :
  0 <= level ->
  (x_overlap_significant_largest r s level = true ->
   x_overlap_significant_smallest r s level = true)
  /\ (x_overlap_significant_smallest r s level = true ->
      x0 r < x1 r /\ x0 s < x1 s)
  /\ (level < 1 -> x0 r < x1 r -> x_overlap_significant_smallest r r level = true).
Proof.
  intros Hl. unfold x_overlap_significant_largest, x_overlap_significant_smallest.
  rewrite !negb_true_iff, !Qle_bool_false_iff. split; [|split].
  - intros H. eapply Qle_lt_trans; [|exact H].
    rewrite !(Qmult_comm level). apply Qmult_le_compat_r; [|exact Hl].
    eapply Qle_trans; [apply Q.le_min_l | apply Q.le_max_l].
  - intros H. apply x_overlap_positive. eapply Qle_lt_trans; [|exact H].
    apply Qmult_le_0_compat; [exact Hl|]. apply Q.min_glb; apply width_nonneg.
  - intros H1 Hw.
    assert (W : width r == x1 r - x0 r).
    { unfold width. apply Q.max_r. rewrite <- (Qplus_opp_r (x0 r)).
      apply Qplus_le_l. now apply Qlt_le_weak. }
    assert (Wp : 0 < width r).
    { rewrite W. rewrite <- (Qplus_opp_r (x0 r)). now apply Qplus_lt_l. }
    assert (O : x_overlap r r == width r).
    { unfold x_overlap. destruct (Qlt_le_dec (x0 r) (x1 r)) as [H|H];
        [|exfalso; exact (Qlt_not_le _ _ Hw H)].
      rewrite W, Q.min_id, Q.max_id. reflexivity. }
    rewrite O, Q.min_id. rewrite <- (Qmult_1_l (width r)) at 2.
    now apply Qmult_lt_compat_r.
Qed.

(** * Properties of [flatten] *)

Lemma dict_set_keys {A : Type} (k : string) (v : A) (d : list (string * A)) :
  map fst (dict_set k v d)
  = if existsb (String.eqb k) (map fst d) then map fst d else map fst d ++ [k].
Proof.
  induction d as [|[k' v'] d IH]; [reflexivity|]. cbn [dict_set map fst existsb].
  rewrite (String.eqb_sym k k'). destruct (String.eqb k' k) eqn:E; [reflexivity|].
  cbn [map fst orb]. rewrite IH. now destruct (existsb (String.eqb k) (map fst d)).
Qed.

Lemma dict_set_new {A : Type} (k : string) (v : A) (d : list (string * A)) :
  ~ In k (map fst d) -> dict_set k v d = d ++ [(k, v)].
Proof.
  induction d as [|[k' v'] d IH]; intros H; [reflexivity|]. cbn [dict_set].
  destruct (String.eqb k' k) eqn:E.
  - apply String.eqb_eq in E. subst. exfalso. apply H. now left.
  - rewrite IH; [reflexivity|]. intros C. apply H. now right.
Qed.

Lemma dict_set_nodup {A : Type} (k : string) (v : A) (d : list (string * A)) :
  NoDup (map fst d) -> NoDup (map fst (dict_set k v d)).
Proof.
  intros H. rewrite dict_set_keys.
  destruct (existsb (String.eqb k) (map fst d)) eqn:E; [exact H|].
  apply NoDup_app; [exact H | repeat constructor; intros [] |].
  intros x Hx [Ex|[]]. subst x.
  assert (C : existsb (String.eqb k) (map fst d) = true).
  { apply existsb_exists. exists k. split; [exact Hx | apply String.eqb_refl]. }
  congruence.
Qed.

Lemma dict_of_items_nodup {A : Type} (items : list (string * A)) :
  NoDup (map fst (dict_of_items items)).
Proof.
  unfold dict_of_items.
  assert (H : forall acc : list (string * A),
             NoDup (map fst acc) ->
             NoDup (map fst (fold_left (fun d item => dict_set (fst item) (snd item) d)
                                       items acc))).
  { induction items as [|item items IH]; intros acc Ha; [exact Ha|].
    cbn [fold_left]. apply IH. now apply dict_set_nodup. }
  apply H. constructor.
Qed.

Lemma dict_of_items_unique {A : Type} (items : list (string * A)) :
  NoDup (map fst items) -> dict_of_items items = items.
Proof.
  unfold dict_of_items.
  assert (H : forall acc : list (string * A),
             NoDup (map fst (acc ++ items)) ->
             fold_left (fun d item => dict_set (fst item) (snd item) d) items acc
             = acc ++ items).
  { induction items as [|[k v] items IH]; intros acc Ha; [now rewrite app_nil_r|].
    cbn [fold_left fst snd]. rewrite dict_set_new.
    - rewrite IH; rewrite <- app_assoc; [reflexivity | exact Ha].
    - rewrite map_app in Ha. cbn [map fst] in Ha.
      apply NoDup_remove_2 in Ha. intros C. apply Ha. apply in_or_app. now left. }
  intros Hn. now apply (H []).
Qed.

Lemma flatten_flat {A : Type} (d : list (string * A)) (separator : string) :
  NoDup (map fst d) -> flatten (as_params d) EmptyString separator = d.
Proof.
  intros Hn. unfold flatten. cbn [flatten_value].
  assert (E : (fix items (dictionary : list (string * param A)) : list (string * A) :=
                 match dictionary with
                 | [] => []
                 | (key, value) :: rest =>
                     flatten_value value (new_key_of EmptyString separator key) separator
                     ++ items rest
                 end) (as_params d) = d).
  { clear Hn. induction d as [|[k v] d IH]; [reflexivity|].
    cbn [as_params map fst snd flatten_value app]. f_equal. exact IH. }
  rewrite E. now apply dict_of_items_unique.
Qed.

(** X22: [flatten] returns a dict, its keys are pairwise different.  It
    returns a dict without nested mappings unchanged, when no parent key is
    given; so flattening the result of [flatten] again returns it as it
    is. *)
Theorem flatten_idempotent {A : Type} (dictionary : list (string * param A))
    (flat : list (string * A)) (parent_key separator separator' : string) :
  NoDup (map fst (flatten dictionary parent_key separator))
  /\ (NoDup (map fst flat) -> flatten (as_params flat) EmptyString separator' = flat)
  /\ flatten (as_params (flatten dictionary parent_key separator)) EmptyString separator'
     = flatten dictionary parent_key separator.
Proof.
  assert (H : NoDup (map fst (flatten dictionary parent_key separator))).
  { unfold flatten. cbn [flatten_value]. apply dict_of_items_nodup. }
  split; [exact H|]. split; [apply flatten_flat | now apply flatten_flat].
Qed.

(** Witness of [flatten_idempotent]: a dict of two entries without nested
    mappings. *)
Lemma flatten_idempotent_witness :
  flatten (as_params [("a"%string, 1%Z); ("b"%string, 2%Z)]) EmptyString "__"
  = [("a"%string, 1%Z); ("b"%string, 2%Z)].
Proof.
  destruct (flatten_idempotent (A := Z) [] [("a"%string, 1%Z); ("b"%string, 2%Z)]
              EmptyString "." "__") as (_ & H & _).
  apply H. repeat constructor; simpl; intuition discriminate.
Defined.

(** The keys of nested entries are joined with the separator, and a later
    entry that produces an existing key overwrites it. *)
Example flatten_example :
  flatten [("a"%string, Mapping [("b"%string, Value 1%Z); ("c"%string, Value 2%Z)]);
           ("d"%string, Value 3%Z); ("a__b"%string, Value 4%Z)]
          EmptyString "__"
  = [("a__b"%string, 4%Z); ("a__c"%string, 2%Z); ("d"%string, 3%Z)].
Proof. reflexivity. Qed.

(** * Instances of the properties above *)

(** Witness of [match_columns_lines]: one group of one interval and one
    group of two intervals. *)
Lemma match_columns_lines_witness :
  match match_columns vertical_gap
          [([0%nat], [block_at 0 [10; 20]%Z]);
           ([1%nat; 2%nat], [block_at 2 [10; 20; 30]%Z])] with
  | Ok elements =>
      flat_map lines (map block elements)
      = flat_map lines
          (flat_map snd [([0%nat], [block_at 0 [10; 20]%Z]);
                         ([1%nat; 2%nat], [block_at 2 [10; 20; 30]%Z])])
      /\ (List.length elements
          <= List.length
               (flat_map fst [([0%nat], [block_at 0 [10; 20]%Z]);
                              ([1%nat; 2%nat], [block_at 2 [10; 20; 30]%Z])]))%nat
  | Raise e => e = IndexError
  end.
Proof.
  apply (match_columns_lines nat vertical_gap
           [([0%nat], [block_at 0 [10; 20]%Z]);
            ([1%nat; 2%nat], [block_at 2 [10; 20; 30]%Z])]).
  intros group [<-|[<-|[]]]; vm_compute; discriminate.
Defined.

(** Witness of [filtered_pairs_keeps_best]: two pairs with intersecting
    regions. *)
Lemma filtered_pairs_keeps_best_witness :
  exists best,
    In best (filtered_pairs column_of_rect every_word_is_noise [] [short_pair; tall_pair])
    /\ forall pair, In pair [short_pair; tall_pair] ->
         score_column_match column_of_rect every_word_is_noise (fst pair) (snd pair)
                            (Some [])
         <= score_column_match column_of_rect every_word_is_noise (fst best) (snd best)
                               (Some []).
Proof.
  apply (filtered_pairs_keeps_best Rect column_of_rect every_word_is_noise []
           [short_pair; tall_pair]).
  discriminate.
Defined.

(** Witness of [filtered_pairs_removed]: the lower of two pairs with
    intersecting regions. *)
Lemma filtered_pairs_removed_witness :
  exists before after other,
    Py.sort_by (fun pair => score_column_match column_of_rect every_word_is_noise
                              (fst pair) (snd pair) (Some []))
               [short_pair; tall_pair]
    = before ++ short_pair :: after
    /\ In other after
    /\ intersects (snd short_pair) (snd other) = true
    /\ score_column_match column_of_rect every_word_is_noise
         (fst short_pair) (snd short_pair) (Some [])
       <= score_column_match column_of_rect every_word_is_noise
            (fst other) (snd other) (Some []).
Proof.
  apply (filtered_pairs_removed Rect column_of_rect every_word_is_noise []
           [short_pair; tall_pair] short_pair).
  - simpl. tauto.
  - vm_compute. intros [H|[]]. discriminate H.
Defined.

(** Witness of [x_overlap_significance]: a rectangle from 0 to 10 and one
    from 2 to 8, at the level of one half. *)
Lemma x_overlap_significance_witness :
  (x_overlap_significant_largest (mkRect 0 0 10 1) (mkRect 2 0 8 1) (1 # 2) = true ->
   x_overlap_significant_smallest (mkRect 0 0 10 1) (mkRect 2 0 8 1) (1 # 2) = true)
  /\ (x_overlap_significant_smallest (mkRect 0 0 10 1) (mkRect 2 0 8 1) (1 # 2) = true ->
      x0 (mkRect 0 0 10 1) < x1 (mkRect 0 0 10 1)
      /\ x0 (mkRect 2 0 8 1) < x1 (mkRect 2 0 8 1))
  /\ ((1 # 2) < 1 -> x0 (mkRect 0 0 10 1) < x1 (mkRect 0 0 10 1) ->
      x_overlap_significant_smallest (mkRect 0 0 10 1) (mkRect 0 0 10 1) (1 # 2) = true).
Proof.
  apply (x_overlap_significance (mkRect 0 0 10 1) (mkRect 2 0 8 1) (1 # 2)).
  vm_compute. discriminate.
Defined.

(** Witness of [macro_averages_bounded]: two documents with the scores one
    half and one. *)
Lemma macro_averages_bounded_witness :
  exists a b c,
    macro_f1 (fun m : Q => m) two_documents = Ok a
    /\ macro_precision (fun m : Q => m) two_documents = Ok b
    /\ macro_recall (fun m : Q => m) two_documents = Ok c
    /\ 0 <= a <= 1 /\ 0 <= b <= 1 /\ 0 <= c <= 1.
Proof.
  apply (macro_averages_bounded Q (fun m => m) (fun m => m) (fun m => m) two_documents).
  - discriminate.
  - intros item [<-|[<-|[]]]; vm_compute; repeat split; discriminate.
Defined.

(** The conflict removal does not keep a largest set of pairs: of three
    regions in a chain, where the first meets the second and the second
    meets the third, only the highest scoring pair survives, though the
    first and the third region do not intersect. *)
Example filtered_pairs_chain :
  let p1 := (mkRect 0 0 5 4, mkRect 5 0 30 4) in
  let p2 := (mkRect 0 2 5 8, mkRect 5 2 30 8) in
  let p3 := (mkRect 0 6 5 14, mkRect 5 6 30 14) in
  intersects (snd p1) (snd p3) = false
  /\ filtered_pairs column_of_rect every_word_is_noise [] [p1; p2; p3] = [p3].
Proof. vm_compute. split; reflexivity. Qed.

(** * A bound on the score *)

Section ScoreBound.

Variable DepthColumn : Type.
Variable column_rect : DepthColumn -> Rect.
Variable noise_count : DepthColumn -> list TextLine -> Z.

(** X23: when the noise count is not negative and the column is not upside
    down, the score is at most the height of the column; it is the height
    when no words are given and the region starts at the right edge of the
    column with the same top and bottom. *)
Theorem score_at_most_height (depth_column : DepthColumn) (region : Rect)
    (all_words : option (list TextLine)) :
  (forall words, 0 <= noise_count depth_column words)%Z ->
  y0 (column_rect depth_column) <= y1 (column_rect depth_column) ->
  score_column_match column_rect noise_count depth_column region all_words
  <= y1 (column_rect depth_column) - y0 (column_rect depth_column)
  /\ (y0 region == y0 (column_rect depth_column) ->
      y1 region == y1 (column_rect depth_column) ->
      x0 region == x1 (column_rect depth_column) ->
      score_column_match column_rect noise_count depth_column region None
      == y1 (column_rect depth_column) - y0 (column_rect depth_column)).
Proof.
  intros Hn Hh. rewrite !score_unfold.
  set (h := y1 (column_rect depth_column) - y0 (column_rect depth_column)).
  set (d := Qabs (y0 (column_rect depth_column) - y0 region)
            + Qabs (y1 (column_rect depth_column) - y1 region)
            + Qabs (x1 (column_rect depth_column) - x0 region)).
  match goal with
  | |- _ * (8 # 10) ^ ?e <= _ /\ _ =>
      assert (Hn0 : (0 <= e)%Z)
        by (destruct all_words as [[|w ws]|]; [lia | apply Hn | lia]);
      set (n := e) in *
  end.
  assert (Hh0 : 0 <= h).
  { unfold h. rewrite <- (Qplus_opp_r (y0 (column_rect depth_column))).
    now apply Qplus_le_l. }
  assert (Hd : 0 <= d).
  { unfold d.
    assert (P : forall a b, 0 <= a -> 0 <= b -> 0 <= a + b).
    { intros a b Ha Hb. rewrite <- (Qplus_0_r 0). now apply Qplus_le_compat. }
    repeat apply P; apply Qabs_nonneg. }
  assert (Hp : 0 < (8 # 10) ^ n <= 1).
  { split; [now apply Qpower_0_lt|].
    destruct (Z.eq_dec n 0) as [->|Hne]; [discriminate|].
    apply Qlt_le_weak. change 1 with ((8 # 10) ^ 0). apply pow_08_decreasing. lia. }
  destruct Hp as [Hp0 Hp1]. split.
  - destruct (Qlt_le_dec (h - d) 0) as [Hneg|Hpos].
    + apply Qle_trans with 0; [|exact Hh0].
      apply Qlt_le_weak. rewrite <- (Qmult_0_l ((8 # 10) ^ n)).
      now apply Qmult_lt_compat_r.
    + apply Qle_trans with (h - d).
      * rewrite <- (Qmult_1_r (h - d)) at 2. rewrite !(Qmult_comm (h - d)).
        now apply Qmult_le_compat_r.
      * rewrite <- (Qplus_0_r h) at 2. apply Qplus_le_r.
        rewrite <- (Qopp_involutive 0). apply Qopp_le_compat. exact Hd.
  - intros E1 E2 E3. change ((8 # 10) ^ 0) with 1. rewrite Qmult_1_r.
    assert (Z0 : forall a b, a == b -> Qabs (b - a) == 0).
    { intros a b E. rewrite E. assert (E' : b - b == 0) by ring. now rewrite E'. }
    assert (Ed : d == 0).
    { unfold d. rewrite (Z0 _ _ E1), (Z0 _ _ E2), (Z0 _ _ E3). reflexivity. }
    rewrite Ed. ring.
Qed.

End ScoreBound.

(** Witness of [score_at_most_height]: a column of height 10 beside its
    region. *)
Lemma score_at_most_height_witness :
  score_column_match column_of_rect every_word_is_noise
    (mkRect 0 0 5 10) (mkRect 5 0 30 10) (Some [thin_line])
  <= y1 (column_of_rect (mkRect 0 0 5 10)) - y0 (column_of_rect (mkRect 0 0 5 10))
  /\ (y0 (mkRect 5 0 30 10) == y0 (column_of_rect (mkRect 0 0 5 10)) ->
      y1 (mkRect 5 0 30 10) == y1 (column_of_rect (mkRect 0 0 5 10)) ->
      x0 (mkRect 5 0 30 10) == x1 (column_of_rect (mkRect 0 0 5 10)) ->
      score_column_match column_of_rect every_word_is_noise
        (mkRect 0 0 5 10) (mkRect 5 0 30 10) None
      == y1 (column_of_rect (mkRect 0 0 5 10)) - y0 (column_of_rect (mkRect 0 0 5 10))).
Proof.
  apply (score_at_most_height Rect column_of_rect every_word_is_noise
           (mkRect 0 0 5 10) (mkRect 5 0 30 10) (Some [thin_line])).
  - intros words. unfold every_word_is_noise, Py.len. lia.
  - vm_compute. discriminate.
Defined.
